(** * Data-quality scoring engine: dimension calculators and composite score

    A shallow embedding of the two scoring engines of the repository:

    - [DataQuality]: the reusable JavaScript functions
      (computeCompleteness ... computeAllScores, computeDQS);
    - [ScoringEngine]: the TypeScript engine of the backend
      (calculateCompleteness ... computeScores, calculateDQS,
      detectDateColumn, prepareMetadata);
    - [Explanation]: the deterministic explanation of the backend
      (generateFallbackExplanation).

    Modelling conventions.
    - A JavaScript string is its list of UTF-16 code units.
    - A row object is the list of its own properties in the order in which
      [Object.keys] enumerates them.
    - Numbers are rationals.  [DataQuality] and [ScoringEngine] read the
      arithmetic as exact; they carry the properties of order and range.
      [DataQuality64] and [ScoringEngine64] are the same functions with the
      result of every operation rounded to a double, the rounding being a
      parameter ([Rounding]) of which [IEEE.binary64] is the instance of the
      machine; they carry the properties that fix a score to a formula,
      since a sum that is exactly a half may fall a rounding error short of
      it.  A result beyond the range of the doubles is not turned into an
      infinity.  A division by zero, where a double would be NaN or
      infinite, is [None]; so is an absent weight once arithmetic has
      touched it.  [Math.round] is [floor (x + 1/2)].
    - [row[col]] finds the own property [col] of the row and, failing
      that, the property that a plain object inherits from
      [Object.prototype]; what is found is kept as the string [String]
      makes of it.
    - The host functions [String.prototype.toLowerCase], date parsing and the
      wall clock are parameters of the development. *)

From Stdlib Require Import ZArith QArith Qround Qabs Qminmax Qpower.
From Stdlib Require Import List Bool Ascii String Lia Lqa.
From Stdlib Require Import Permutation.
Import ListNotations.

Open Scope Q_scope.

(* ------------------------------------------------------------------ *)
(** ** Host language: strings, numbers, rows *)

Module JS.

Definition jsstring := list N.

(** Code units of an ASCII literal. *)
Definition lit (s : string) : jsstring :=
  map N_of_ascii (list_ascii_of_string s).

Definition streq (a b : jsstring) : bool :=
  if list_eq_dec N.eq_dec a b then true else false.

(** WhiteSpace and LineTerminator code points, the ones [trim] strips. *)
Definition isWhiteSpace (c : N) : bool :=
  match c with
  | 9 | 10 | 11 | 12 | 13 | 32 | 160 | 5760
  | 8232 | 8233 | 8239 | 8287 | 12288 | 65279 => true
  | _ => (8192 <=? c) && (c <=? 8202)
  end%N.

Fixpoint trimStart (s : jsstring) : jsstring :=
  match s with
  | [] => []
  | c :: s' => if isWhiteSpace c then trimStart s' else s
  end.

Definition trimEnd (s : jsstring) : jsstring := rev (trimStart (rev s)).

Definition trim (s : jsstring) : jsstring := trimEnd (trimStart s).

(** [s === ''] *)
Definition isEmpty (s : jsstring) : bool :=
  match s with [] => true | _ :: _ => false end.

Fixpoint startsWith (s kw : jsstring) : bool :=
  match kw, s with
  | [], _ => true
  | _ :: _, [] => false
  | k :: kw', c :: s' => (k =? c)%N && startsWith s' kw'
  end.

(** [s.includes(kw)] *)
Fixpoint includes (s kw : jsstring) : bool :=
  startsWith s kw ||
  match s with
  | [] => false
  | _ :: s' => includes s' kw
  end.

(** Integers as numbers. *)
Definition num (n : nat) : Q := inject_Z (Z.of_nat n).

(** [a / b]; [None] when the divisor is zero. *)
Definition div (a b : Q) : option Q :=
  if Qeq_bool b 0 then None else Some (a / b).

(** [a < b] *)
Definition ltb (a b : Q) : bool := negb (Qle_bool b a).

(** [Math.round]: halves go up. *)
Definition round (x : Q) : Z := Qfloor (x + (1 # 2)).

(** [Math.max(0, Math.min(100, z))] *)
Definition clamp (z : Z) : Z := Z.max 0 (Z.min 100 z).

Definition bind {A B : Type} (m : option A) (k : A -> option B) : option B :=
  match m with
  | Some a => k a
  | None => None
  end.

(** A loop whose body may produce a non-finite number. *)
Fixpoint foldM {A B : Type} (f : A -> B -> option A) (l : list B) (a : A)
  : option A :=
  match l with
  | [] => Some a
  | x :: l' => bind (f a x) (foldM f l')
  end.

(** [xs.reduce((a, b) => a + b, 0)] *)
Definition sum (xs : list Q) : Q := fold_left Qplus xs 0.

Definition Row := list (jsstring * jsstring).

(** The own property [col] of a row. *)
Fixpoint own (row : Row) (col : jsstring) : option jsstring :=
  match row with
  | [] => None
  | (k, v) :: row' => if streq k col then Some v else own row' col
  end.

(** The properties a plain object inherits from [Object.prototype], each
    with the string [String] makes of it. *)
Definition objectPrototype : Row :=
  map (fun '(k, v) => (lit k, lit v))
    [ ("constructor", "function Object() { [native code] }");
      ("hasOwnProperty", "function hasOwnProperty() { [native code] }");
      ("isPrototypeOf", "function isPrototypeOf() { [native code] }");
      ("propertyIsEnumerable",
       "function propertyIsEnumerable() { [native code] }");
      ("toLocaleString", "function toLocaleString() { [native code] }");
      ("toString", "function toString() { [native code] }");
      ("valueOf", "function valueOf() { [native code] }");
      ("__defineGetter__", "function __defineGetter__() { [native code] }");
      ("__defineSetter__", "function __defineSetter__() { [native code] }");
      ("__lookupGetter__", "function __lookupGetter__() { [native code] }");
      ("__lookupSetter__", "function __lookupSetter__() { [native code] }");
      ("__proto__", "[object Object]") ]%string.

(** [row[col]] as [String] shows it: an own property, or else one found on
    the prototype chain. *)
Definition get (row : Row) (col : jsstring) : option jsstring :=
  match own row col with
  | Some v => Some v
  | None => own objectPrototype col
  end.

(** [Object.keys(row)] *)
Definition keys (row : Row) : list jsstring := map fst row.

(** [v || ''] *)
Definition orEmpty (v : option jsstring) : jsstring :=
  match v with
  | Some s => s
  | None => []
  end.

(** [String(row[col] || '').trim()] *)
Definition cell (row : Row) (col : jsstring) : jsstring :=
  trim (orEmpty (get row col)).

(** [value !== null && value !== undefined && String(value).trim() !== ''] *)
Definition present (v : option jsstring) : bool :=
  match v with
  | Some s => negb (isEmpty (trim s))
  | None => false
  end.

(** [rows.map(row => String(row[col] || '').trim()).filter(v => v !== '')] *)
Definition columnValues (rows : list Row) (col : jsstring) : list jsstring :=
  filter (fun v => negb (isEmpty v)) (map (fun row => cell row col) rows).

(** [xs.length === 0] *)
Definition isEmptyList {A : Type} (xs : list A) : bool :=
  match xs with [] => true | _ :: _ => false end.

(** [new Set(values).size] *)
Definition setSize (values : list jsstring) : nat :=
  List.length (nodup (list_eq_dec N.eq_dec) values).

(** [Object.keys(rows[0] || {})] *)
Definition firstKeys (rows : list Row) : list jsstring :=
  keys (hd [] rows).

Definition dateKeywords : list jsstring :=
  map lit ["date"; "time"; "timestamp"; "created"; "updated"; "modified"]%string.

End JS.

Import JS.

Arguments div : simpl never.
Arguments round : simpl never.
Arguments clamp : simpl never.
Arguments num : simpl never.
Arguments ltb : simpl never.
Arguments trim : simpl never.

Notation "x <- m ;; k" := (bind m (fun x => k))
  (at level 61, m at next level, right associativity).

(* ------------------------------------------------------------------ *)
(** ** Loop bodies *)

(** One cell of the completeness scan: [totalCells++] and, for a present
    value, [nonEmptyCells++]. *)
Definition completenessCell (row : Row) (st : nat * nat) (col : jsstring)
  : nat * nat :=
  let '(totalCells, nonEmptyCells) := st in
  (S totalCells,
   if present (get row col) then S nonEmptyCells else nonEmptyCells).

Definition completenessScan (rows : list Row) (columns : list jsstring)
  : nat * nat :=
  fold_left (fun st row => fold_left (completenessCell row) columns st)
            rows (0%nat, 0%nat).

(** The length statistics of [computeConsistency]: mean length, mean
    deviation from it, and their ratio. *)
Definition lengthConsistency (values : list jsstring) : option Q :=
  let lengths := map (fun v => num (List.length v)) values in
  avgLength <- div (sum lengths) (num (List.length lengths)) ;;
  let deviations := map (fun len => Qabs (len - avgLength)) lengths in
  avgDeviation <- div (sum deviations) (num (List.length deviations)) ;;
  let maxDeviation := Qmax avgLength 1 in
  ratio <- div avgDeviation maxDeviation ;;
  Some (Qmax 0 (100 - ratio * 100)).

(** The age thresholds of the timeliness score. *)
Definition ageScore (avgAgeHours : Q) : Z :=
  if ltb avgAgeHours 1 then 100
  else if ltb avgAgeHours 6 then 95
  else if ltb avgAgeHours 24 then 85
  else if ltb avgAgeHours 72 then 70
  else if ltb avgAgeHours 168 then 50
  else 30.

(** The host environment of one scoring call. *)
Class Host := {
  (** [String.prototype.toLowerCase] *)
  toLowerCase : jsstring -> jsstring;
  (** [new Date(s).getTime()] in milliseconds; [None] for an invalid date *)
  parseDate : jsstring -> option Z;
  (** [new Date().getTime()] *)
  now : Z
}.

(** [dateKeywords.some(keyword => lowerCol.includes(keyword))] *)
Definition hasDateKeyword `{Host} (col : jsstring) : bool :=
  let lowerCol := toLowerCase col in
  existsb (fun keyword => includes lowerCol keyword) dateKeywords.

(** One row of the age loop: empty and unparsable values are skipped. *)
Definition ageStep `{Host} (dateColumn : jsstring) (st : nat * Q) (row : Row)
  : option (nat * Q) :=
  let '(validDates, totalAgeHours) := st in
  let dateValue := cell row dateColumn in
  if isEmpty dateValue then Some st
  else
    match parseDate dateValue with
    | Some time =>
        let ageMs := inject_Z (now - time) in
        ageHours <- div ageMs (1000 * 60 * 60) ;;
        Some (S validDates, totalAgeHours + ageHours)
    | None => Some st
    end.

(** From the loop's counters to the score. *)
Definition ageResult (st : nat * Q) : option Z :=
  let '(validDates, totalAgeHours) := st in
  match validDates with
  | O => Some 50%Z
  | S _ =>
      avgAgeHours <- div totalAgeHours (num validDates) ;;
      Some (ageScore avgAgeHours)
  end.

(* ------------------------------------------------------------------ *)
(** ** data-quality-functions.js *)

Module DataQuality.

Definition computeCompleteness (rows : list Row) : option Z :=
  match rows with
  | [] => Some 0%Z
  | _ :: _ =>
      let columns := firstKeys rows in
      match columns with
      | [] => Some 0%Z
      | _ :: _ =>
          let '(totalCells, nonEmptyCells) := completenessScan rows columns in
          match totalCells with
          | O => Some 0%Z
          | S _ =>
              r <- div (num nonEmptyCells) (num totalCells) ;;
              let score := round (r * 100) in
              Some (clamp score)
          end
      end
  end.

Definition uniquenessStep (rows : list Row) (st : Q * nat) (col : jsstring)
  : option (Q * nat) :=
  let '(totalUniqueness, columnCount) := st in
  let values := columnValues rows col in
  match values with
  | [] => Some (totalUniqueness + 100, S columnCount)
  | _ :: _ =>
      r <- div (num (setSize values)) (num (List.length values)) ;;
      let uniqueness := r * 100 in
      Some (totalUniqueness + uniqueness, S columnCount)
  end.

Definition computeUniqueness (rows : list Row) : option Z :=
  match rows with
  | [] => Some 0%Z
  | _ :: _ =>
      let columns := firstKeys rows in
      match columns with
      | [] => Some 0%Z
      | _ :: _ =>
          st <- foldM (uniquenessStep rows) columns (0, 0%nat) ;;
          let '(totalUniqueness, columnCount) := st in
          match columnCount with
          | O => Some 0%Z
          | S _ =>
              r <- div totalUniqueness (num columnCount) ;;
              let score := round r in
              Some (clamp score)
          end
      end
  end.

Definition columnConsistency (values : list jsstring) : option Q :=
  match values with
  | [] => Some 100
  | [_] => Some 100
  | _ :: _ :: _ => lengthConsistency values
  end.

Definition consistencyStep (rows : list Row) (st : Q * nat) (col : jsstring)
  : option (Q * nat) :=
  let '(totalConsistency, columnCount) := st in
  consistency <- columnConsistency (columnValues rows col) ;;
  Some (totalConsistency + consistency, S columnCount).

Definition computeConsistency (rows : list Row) : option Z :=
  match rows with
  | [] => Some 0%Z
  | _ :: _ =>
      let columns := firstKeys rows in
      match columns with
      | [] => Some 0%Z
      | _ :: _ =>
          st <- foldM (consistencyStep rows) columns (0, 0%nat) ;;
          let '(totalConsistency, columnCount) := st in
          match columnCount with
          | O => Some 0%Z
          | S _ =>
              r <- div totalConsistency (num columnCount) ;;
              let score := round r in
              Some (clamp score)
          end
      end
  end.

Definition computeValidity (rows : list Row) : option Z :=
  match rows with
  | [] => Some 0%Z
  | _ :: _ =>
      match firstKeys rows with
      | [] => Some 0%Z
      | keyColumn :: _ =>
          let validRows := filter (fun row => present (get row keyColumn)) rows in
          r <- div (num (List.length validRows)) (num (List.length rows)) ;;
          let score := round (r * 100) in
          Some (clamp score)
      end
  end.

Definition computeTimeliness `{Host} (rows : list Row) : option Z :=
  match rows with
  | [] => Some 50%Z
  | _ :: _ =>
      let columns := firstKeys rows in
      match columns with
      | [] => Some 50%Z
      | _ :: _ =>
          match find hasDateKeyword columns with
          | None => Some 50%Z
          | Some [] => Some 50%Z
          | Some dateColumn =>
              st <- foldM (ageStep dateColumn) rows (0%nat, 0) ;;
              ageResult st
          end
      end
  end.

Record AllScores := {
  completeness : Z;
  uniqueness : Z;
  consistency : Z;
  validity : Z;
  timeliness : Z
}.

Definition computeAllScores `{Host} (rows : list Row) : option AllScores :=
  c <- computeCompleteness rows ;;
  u <- computeUniqueness rows ;;
  k <- computeConsistency rows ;;
  v <- computeValidity rows ;;
  t <- computeTimeliness rows ;;
  Some {| completeness := c; uniqueness := u; consistency := k;
          validity := v; timeliness := t |}.

(** The dimensions object handed to [computeDQS]; an entry is [None] when it
    is absent or not a number, and a number is finite. *)
Record Dimensions := {
  d_completeness : option Q;
  d_uniqueness : option Q;
  d_consistency : option Q;
  d_validity : option Q;
  d_timeliness : option Q
}.

(** A weight map; an entry is [None] when it is absent (or not a number). *)
Record WeightMap := {
  w_completeness : option Q;
  w_uniqueness : option Q;
  w_consistency : option Q;
  w_validity : option Q;
  w_timeliness : option Q
}.

Record CompositeResult := {
  dimensions : Dimensions;
  DQS : option Z
}.

Definition DEFAULT_WEIGHTS : WeightMap := {|
  w_completeness := Some 0.25;
  w_uniqueness := Some 0.20;
  w_consistency := Some 0.15;
  w_validity := Some 0.25;
  w_timeliness := Some 0.15
|}.

Definition ofScores (s : AllScores) : Dimensions := {|
  d_completeness := Some (inject_Z (completeness s));
  d_uniqueness := Some (inject_Z (uniqueness s));
  d_consistency := Some (inject_Z (consistency s));
  d_validity := Some (inject_Z (validity s));
  d_timeliness := Some (inject_Z (timeliness s))
|}.


(** [typeof v === 'number' && v >= 0 && v <= 100] *)
Definition inRange (v : option Q) : bool :=
  match v with
  | Some q => Qle_bool 0 q && Qle_bool q 100
  | None => false
  end.

(** The required-dimension check: an invalid score is overwritten with 0. *)
Definition validated (v : option Q) : Q :=
  match v with
  | Some q => if inRange v then q else 0
  | None => 0
  end.

(** The dimensions object after the required-dimension check. *)
Definition validatedDimensions (d : Dimensions) : Dimensions := {|
  d_completeness := Some (validated (d_completeness d));
  d_uniqueness := Some (validated (d_uniqueness d));
  d_consistency := Some (validated (d_consistency d));
  d_validity := Some (validated (d_validity d));
  d_timeliness := d_timeliness d
|}.

(** [w || 0] *)
Definition orZero (w : option Q) : Q :=
  match w with
  | Some q => q
  | None => 0
  end.

(** Truthiness of a weight: present and not zero. *)
Definition truthy (w : option Q) : bool :=
  match w with
  | Some q => negb (Qeq_bool q 0)
  | None => false
  end.

(** Arithmetic on possibly non-finite numbers. *)
Definition nmul (a b : option Q) : option Q :=
  match a, b with
  | Some x, Some y => Some (x * y)
  | _, _ => None
  end.

Definition nadd (a b : option Q) : option Q :=
  match a, b with
  | Some x, Some y => Some (x + y)
  | _, _ => None
  end.

(** [normalizedWeights.{completeness,uniqueness,consistency,validity} *= f] *)
Definition scaleRequired (w : WeightMap) (f : option Q) : WeightMap := {|
  w_completeness := nmul (w_completeness w) f;
  w_uniqueness := nmul (w_uniqueness w) f;
  w_consistency := nmul (w_consistency w) f;
  w_validity := nmul (w_validity w) f;
  w_timeliness := w_timeliness w
|}.

Definition scaleTimeliness (w : WeightMap) (f : option Q) : WeightMap := {|
  w_completeness := w_completeness w;
  w_uniqueness := w_uniqueness w;
  w_consistency := w_consistency w;
  w_validity := w_validity w;
  w_timeliness := nmul (w_timeliness w) f
|}.

(** Sum of the weights of the available dimensions. *)
Definition availableWeight (hasTimeliness : bool) (w : WeightMap) : Q :=
  let totalWeight := 0 in
  let totalWeight := totalWeight + orZero (w_completeness w) in
  let totalWeight := totalWeight + orZero (w_uniqueness w) in
  let totalWeight := totalWeight + orZero (w_consistency w) in
  let totalWeight := totalWeight + orZero (w_validity w) in
  if hasTimeliness then totalWeight + orZero (w_timeliness w)
  else totalWeight.

(** Without timeliness, its weight is spread over the other four. *)
Definition redistribute (hasTimeliness : bool) (st : WeightMap * Q)
  : WeightMap * Q :=
  let '(normalizedWeights, totalWeight) := st in
  if negb hasTimeliness && truthy (w_timeliness normalizedWeights) then
    let timelinessWeight := orZero (w_timeliness normalizedWeights) in
    let otherWeights := totalWeight in
    if ltb 0 otherWeights then
      let scaleFactor := div (otherWeights + timelinessWeight) otherWeights in
      (scaleRequired normalizedWeights scaleFactor,
       otherWeights + timelinessWeight)
    else st
  else st.

(** Weights that do not sum to 1.0 within 0.001 are rescaled. *)
Definition normalize (hasTimeliness : bool) (st : WeightMap * Q)
  : WeightMap * Q :=
  let '(normalizedWeights, totalWeight) := st in
  if ltb 0 totalWeight && ltb 0.001 (Qabs (totalWeight - 1)) then
    let scale := div 1 totalWeight in
    let normalizedWeights := scaleRequired normalizedWeights scale in
    let normalizedWeights :=
      if hasTimeliness then scaleTimeliness normalizedWeights scale
      else normalizedWeights in
    (normalizedWeights, 1)
  else st.

Definition weightedSum (hasTimeliness : bool) (d : Dimensions) (w : WeightMap)
  : option Q :=
  let weightedSum := Some 0 in
  let weightedSum := nadd weightedSum (nmul (d_completeness d) (w_completeness w)) in
  let weightedSum := nadd weightedSum (nmul (d_uniqueness d) (w_uniqueness w)) in
  let weightedSum := nadd weightedSum (nmul (d_consistency d) (w_consistency w)) in
  let weightedSum := nadd weightedSum (nmul (d_validity d) (w_validity w)) in
  if hasTimeliness
  then nadd weightedSum (nmul (d_timeliness d) (w_timeliness w))
  else weightedSum.

(** [computeDQS(dimensions, weights)]; [None] as first argument is a missing
    or non-object [dimensions]. *)
Definition computeDQS (dimensions : option Dimensions) (weights : WeightMap)
  : CompositeResult :=
  match dimensions with
  | None =>
      {| dimensions := {| d_completeness := None; d_uniqueness := None;
                          d_consistency := None; d_validity := None;
                          d_timeliness := None |};
         DQS := Some 0%Z |}
  | Some dimensions =>
      let dimensions := validatedDimensions dimensions in
      let hasTimeliness := inRange (d_timeliness dimensions) in
      let normalizedWeights := weights in
      let totalWeight := availableWeight hasTimeliness normalizedWeights in
      let '(normalizedWeights, totalWeight) :=
        redistribute hasTimeliness (normalizedWeights, totalWeight) in
      let '(normalizedWeights, totalWeight) :=
        normalize hasTimeliness (normalizedWeights, totalWeight) in
      if Qeq_bool totalWeight 0 then
        {| dimensions := dimensions; DQS := Some 0%Z |}
      else
        match weightedSum hasTimeliness dimensions normalizedWeights with
        | Some weightedSum =>
            let DQS := round weightedSum in
            let clampedDQS := clamp DQS in
            {| dimensions := dimensions; DQS := Some clampedDQS |}
        | None => {| dimensions := dimensions; DQS := None |}
        end
  end.

End DataQuality.

(* ------------------------------------------------------------------ *)
(** ** scoring-engine.ts *)

Module ScoringEngine.

Record ScoringMetadata := {
  columns : list jsstring;
  rowCount : nat;
  columnCount : nat;
  hasDateColumn : bool;
  dateColumnName : option jsstring
}.

Record DimensionScores := {
  completeness : Z;
  uniqueness : Z;
  consistency : Z;
  validity : Z;
  timeliness : option Z
}.

Definition calculateCompleteness (rows : list Row) (columns : list jsstring)
  : option Z :=
  if isEmptyList rows || isEmptyList columns then Some 0%Z
  else
    let '(totalCells, nonEmptyCells) := completenessScan rows columns in
    match totalCells with
    | O => Some 0%Z
    | S _ =>
        r <- div (num nonEmptyCells) (num totalCells) ;;
        Some (round (r * 100))
    end.

Definition uniquenessStep (rows : list Row) (st : Q * nat) (col : jsstring)
  : option (Q * nat) :=
  let '(totalUniqueness, columnCount) := st in
  let values := columnValues rows col in
  let uniqueValues := setSize values in
  uniqueness <-
    (if (0 <? List.length values)%nat
     then r <- div (num uniqueValues) (num (List.length values)) ;;
          Some (r * 100)
     else Some 100) ;;
  Some (totalUniqueness + uniqueness, S columnCount).

Definition calculateUniqueness (rows : list Row) (columns : list jsstring)
  : option Z :=
  if isEmptyList rows || isEmptyList columns then Some 0%Z
  else
    st <- foldM (uniquenessStep rows) columns (0, 0%nat) ;;
    let '(totalUniqueness, columnCount) := st in
    match columnCount with
    | O => Some 0%Z
    | S _ =>
        r <- div totalUniqueness (num columnCount) ;;
        Some (round r)
    end.

Definition consistencyStep (rows : list Row) (st : Q * nat) (col : jsstring)
  : option (Q * nat) :=
  let '(totalConsistency, columnCount) := st in
  let values := columnValues rows col in
  match values with
  | [] => Some (totalConsistency + 100, S columnCount)
  | _ :: _ =>
      let lengths := map (fun v => num (List.length v)) values in
      avgLength <- div (sum lengths) (num (List.length lengths)) ;;
      variance <-
        div (fold_left (fun sum len => sum + Qabs (len - avgLength)) lengths 0)
            (num (List.length lengths)) ;;
      ratio <- div variance (Qmax avgLength 1) ;;
      let consistency := Qmax 0 (100 - ratio * 100) in
      Some (totalConsistency + consistency, S columnCount)
  end.

Definition calculateConsistency (rows : list Row) (columns : list jsstring)
  : option Z :=
  if isEmptyList rows || isEmptyList columns then Some 0%Z
  else
    st <- foldM (consistencyStep rows) columns (0, 0%nat) ;;
    let '(totalConsistency, columnCount) := st in
    match columnCount with
    | O => Some 0%Z
    | S _ =>
        r <- div totalConsistency (num columnCount) ;;
        Some (round r)
    end.

Definition calculateValidity (rows : list Row) (columns : list jsstring)
  : option Z :=
  match rows with
  | [] => Some 0%Z
  | _ :: _ =>
      match columns with
      | [] => Some 0%Z
      | keyColumn :: _ =>
          let validRows :=
            filter (fun row => negb (isEmpty (cell row keyColumn))) rows in
          r <- div (num (List.length validRows)) (num (List.length rows)) ;;
          Some (round (r * 100))
      end
  end.

Definition calculateTimeliness `{Host} (rows : list Row)
  (dateColumnName : jsstring) : option Z :=
  match rows with
  | [] => Some 0%Z
  | _ :: _ =>
      st <- foldM (ageStep dateColumnName) rows (0%nat, 0) ;;
      ageResult st
  end.

(** The sampled values of a column that parse as dates. *)
Definition dateLike `{Host} (v : jsstring) : bool :=
  if isEmpty v then false
  else match parseDate v with Some _ => true | None => false end.

Fixpoint detectLoop `{Host} (rows : list Row) (columns : list jsstring)
  : option jsstring :=
  match columns with
  | [] => None
  | col :: columns' =>
      if hasDateKeyword col then
        let sampleValues :=
          map (fun r => cell r col)
              (firstn (Nat.min 10 (List.length rows)) rows) in
        let dateLikeCount := List.length (filter dateLike sampleValues) in
        if ltb (num (List.length sampleValues) * 0.5) (num dateLikeCount)
        then Some col
        else detectLoop rows columns'
      else detectLoop rows columns'
  end.

(** [{ found, columnName }] as the name when found. *)
Definition detectDateColumn `{Host} (rows : list Row) (columns : list jsstring)
  : option jsstring :=
  match rows with
  | [] => None
  | _ :: _ => detectLoop rows columns
  end.

Definition prepareMetadata `{Host} (rows : list Row) : ScoringMetadata :=
  match rows with
  | [] =>
      {| columns := []; rowCount := 0; columnCount := 0;
         hasDateColumn := false; dateColumnName := None |}
  | row0 :: _ =>
      let columns := keys row0 in
      let dateInfo := detectDateColumn rows columns in
      {| columns := columns;
         rowCount := List.length rows;
         columnCount := List.length columns;
         hasDateColumn := match dateInfo with Some _ => true | None => false end;
         dateColumnName := dateInfo |}
  end.

(** [hasDateColumn && dateColumnName]: the name, when the flag is set and
    the name is a non-empty string. *)
Definition dateColumnOf (metadata : ScoringMetadata) : option jsstring :=
  if hasDateColumn metadata then
    match dateColumnName metadata with
    | Some (c :: name) => Some (c :: name)
    | _ => None
    end
  else None.

Definition computeScores `{Host} (rows : list Row) (metadata : ScoringMetadata)
  : option DimensionScores :=
  let columns := columns metadata in
  c <- calculateCompleteness rows columns ;;
  u <- calculateUniqueness rows columns ;;
  k <- calculateConsistency rows columns ;;
  v <- calculateValidity rows columns ;;
  match dateColumnOf metadata with
  | Some dateColumnName =>
      t <- calculateTimeliness rows dateColumnName ;;
      Some {| completeness := c; uniqueness := u; consistency := k;
              validity := v; timeliness := Some t |}
  | None =>
      Some {| completeness := c; uniqueness := u; consistency := k;
              validity := v; timeliness := None |}
  end.

(** The scores that are not [undefined]. *)
Definition definedScores (scores : DimensionScores) : list Q :=
  map inject_Z
      ([completeness scores; uniqueness scores; consistency scores;
        validity scores] ++
       match timeliness scores with Some t => [t] | None => [] end).

Definition calculateDQS (scores : DimensionScores) : option Z :=
  let dimensions := definedScores scores in
  match dimensions with
  | [] => Some 0%Z
  | _ :: _ =>
      r <- div (sum dimensions) (num (List.length dimensions)) ;;
      Some (round r)
  end.

End ScoringEngine.

(** A concrete host for examples: ASCII lower-casing, a decimal timestamp
    reader, and a fixed clock. *)
Module ExampleHost.

Definition lowerUnit (c : N) : N :=
  if (65 <=? c)%N && (c <=? 90)%N then (c + 32)%N else c.

Fixpoint digits (s : jsstring) (acc : Z) : option Z :=
  match s with
  | [] => Some acc
  | c :: s' =>
      if (48 <=? c)%N && (c <=? 57)%N
      then digits s' (10 * acc + Z.of_N (c - 48))%Z
      else None
  end.

Definition readMillis (s : jsstring) : option Z :=
  match s with
  | [] => None
  | _ :: _ => digits s 0%Z
  end.

Definition host : Host := {|
  toLowerCase := map lowerUnit;
  parseDate := readMillis;
  now := 720000000
|}.

Definition row (cells : list (string * string)) : Row :=
  map (fun '(k, v) => (lit k, lit v)) cells.

(** No column name holds a date keyword. *)
Definition people : list Row :=
  [ row [("id", "1"); ("name", "John")];
    row [("id", " "); ("name", "Alexander")] ]%string.

(** One timestamp a millisecond old, one empty, one unparsable. *)
Definition events : list Row :=
  [ row [("id", "1"); ("time", "719999999")];
    row [("id", "2"); ("time", "")];
    row [("id", "3"); ("time", "soon")] ]%string.

(** Timestamps after the clock. *)
Definition planned : list Row :=
  [ row [("id", "1"); ("time", "720000001")];
    row [("id", "2"); ("time", "800000000")] ]%string.

(** 201 rows with the same single cell. *)
Definition repeated : list Row := repeat (row [("a", "x")]%string) 201.

End ExampleHost.

(* ------------------------------------------------------------------ *)
(** ** The documented formulas *)

Module Formula.

(** Arithmetic mean of a list of numbers. *)
Definition mean (xs : list Q) : Q := sum xs / num (List.length xs).

(** Distinct values over values, as a percentage; 100 for a column without
    values. *)
Definition uniquenessOf (values : list jsstring) : Q :=
  match values with
  | [] => 100
  | _ :: _ => num (setSize values) / num (List.length values) * 100
  end.

(** Mean absolute deviation of the lengths from their mean. *)
Definition meanDeviation (lengths : list Q) : Q :=
  mean (map (fun len => Qabs (len - mean lengths)) lengths).

(** 100 without values or with one value; otherwise 100 less the deviation
    ratio, floored at 0. *)
Definition consistencyOf (values : list jsstring) : Q :=
  match values with
  | [] => 100
  | [_] => 100
  | _ :: _ :: _ =>
      let lengths := map (fun v => num (List.length v)) values in
      Qmax 0 (100 - meanDeviation lengths / Qmax (mean lengths) 1 * 100)
  end.

(** Rounded mean of a per-column measure. *)
Definition columnMean (f : list jsstring -> Q) (rows : list Row)
  (columns : list jsstring) : Z :=
  round (mean (map (fun col => f (columnValues rows col)) columns)).

(** Rows whose key field, trimmed, is not empty, over all rows, as a rounded
    percentage. *)
Definition validityOf (rows : list Row) (keyColumn : jsstring) : Z :=
  let valid := filter (fun row => negb (isEmpty (cell row keyColumn))) rows in
  round (num (List.length valid) / num (List.length rows) * 100).

(** Age in hours of a timestamp: now minus the parsed date. *)
Definition ageHours `{Host} (time : Z) : Q :=
  inject_Z (now - time) / (1000 * 60 * 60).

(** The timestamps of a column: empty and unparsable values are left out. *)
Definition parsedDates `{Host} (rows : list Row) (dateColumn : jsstring)
  : list Z :=
  flat_map (fun row =>
              let v := cell row dateColumn in
              if isEmpty v then []
              else match parseDate v with Some t => [t] | None => [] end)
           rows.

Definition ages `{Host} (rows : list Row) (dateColumn : jsstring) : list Q :=
  map ageHours (parsedDates rows dateColumn).

(** The score of a date column: 50 without parsed dates, otherwise the
    score of the mean age. *)
Definition ageOutcome `{Host} (rows : list Row) (dateColumn : jsstring) : Z :=
  match parsedDates rows dateColumn with
  | [] => 50%Z
  | _ :: _ => ageScore (mean (ages rows dateColumn))
  end.



(** Weighted average of four scores under four weights scaled to sum to 1. *)
Definition weighted4 (c u k v : Q) (wc wu wk wv : Q) : Q :=
  let total := wc + wu + wk + wv in
  c * (wc / total) + u * (wu / total) + k * (wk / total) + v * (wv / total).

(** Two datasets with the same cells, row by row. *)
Definition sameCells (rows rows' : list Row) : Prop :=
  Forall2 (fun r r' => forall col, cell r col = cell r' col) rows rows'.


End Formula.

Import Formula.

(* ------------------------------------------------------------------ *)
(** ** genai-explanation.ts: the deterministic explanation *)

Module Explanation.

Inductive Severity := High | Medium | Low.

Inductive Impact := Compliance | Operations | Analytics.

Record Recommendation := {
  severity : Severity;
  text : string;
  impact : Impact
}.

Record ExplanationResponse := {
  explanation : string;
  recommendations : list Recommendation
}.

(** The [dimensions] argument. *)
Record Scores := {
  completeness : Q;
  uniqueness : Q;
  consistency : Q;
  validity : Q;
  timeliness : option Q
}.

Definition completenessAdvice (high : bool) : Recommendation := {|
  severity := if high then High else Medium;
  text := "Implement mandatory field validation and data enrichment processes to improve completeness and ensure regulatory compliance.";
  impact := Compliance
|}.

Definition validityAdvice (high : bool) : Recommendation := {|
  severity := if high then High else Medium;
  text := "Enforce schema validation and business rule checks at data ingestion to prevent invalid entries and transaction failures.";
  impact := Compliance
|}.

Definition uniquenessAdvice (high : bool) : Recommendation := {|
  severity := if high then High else Medium;
  text := "Run deduplication processes and enforce unique constraints on key fields to improve data integrity and analytics accuracy.";
  impact := Analytics
|}.

Definition consistencyAdvice : Recommendation := {|
  severity := Medium;
  text := "Standardize data formats and implement format validation in data pipelines to reduce manual cleanup efforts.";
  impact := Operations
|}.

Definition monitoringAdvice : Recommendation := {|
  severity := Low;
  text := "Continue monitoring data quality metrics and maintain current data governance processes.";
  impact := Operations
|}.

(** [while (recommendations.length < 3) recommendations.push(...)]; three
    rounds are enough for any list. *)
Fixpoint fillToThree (rounds : nat) (recommendations : list Recommendation)
  : list Recommendation :=
  match rounds with
  | O => recommendations
  | S rounds' =>
      if (List.length recommendations <? 3)%nat
      then fillToThree rounds' (recommendations ++ [monitoringAdvice])
      else recommendations
  end.

(** The recommendations of [generateFallbackExplanation], before the final
    [slice(0, 3)]. *)
Definition collectAdvice (dimensions : Scores) : list Recommendation :=
  let recommendations := [] in
  let recommendations :=
    if ltb (completeness dimensions) 70
    then recommendations ++ [completenessAdvice (ltb (completeness dimensions) 50)]
    else recommendations in
  let recommendations :=
    if ltb (validity dimensions) 70
    then recommendations ++ [validityAdvice (ltb (validity dimensions) 50)]
    else recommendations in
  let recommendations :=
    if ltb (uniqueness dimensions) 70
    then recommendations ++ [uniquenessAdvice (ltb (uniqueness dimensions) 50)]
    else recommendations in
  let recommendations :=
    if ltb (consistency dimensions) 70 && (List.length recommendations <? 3)%nat
    then recommendations ++ [consistencyAdvice]
    else recommendations in
  fillToThree 3 recommendations.

Section Fallback.

(** [String(n)], as a template literal interpolates a number. *)
Variable show : Q -> string.

Definition summaryOf (DQS : Q) : string :=
  let summary := ("Overall Data Quality Score: " ++ show DQS ++ "/100. ")%string in
  let summary :=
    (summary ++
     (if Qle_bool 80 DQS then
        "Data quality is strong and meets enterprise standards for payment processing. "
      else if Qle_bool 60 DQS then
        "Data quality is acceptable but requires improvement to meet compliance and operational standards. "
      else
        "Data quality is below acceptable thresholds and poses compliance and operational risks. "))%string in
  (summary ++ "Review key problem areas and implement recommended improvements.")%string.

(** The problem areas, which the function builds and does not return. *)
Definition problemAreas (dimensions : Scores) : list string :=
  let areas := [] in
  let areas :=
    if ltb (completeness dimensions) 70
    then areas ++ [("Completeness is " ++ show (completeness dimensions) ++
                    "% - missing data may impact regulatory reporting and transaction processing.")%string]
    else areas in
  let areas :=
    if ltb (validity dimensions) 70
    then areas ++ [("Validity is " ++ show (validity dimensions) ++
                    "% - invalid data entries violate business rules and may cause transaction failures.")%string]
    else areas in
  let areas :=
    if ltb (uniqueness dimensions) 70
    then areas ++ [("Uniqueness is " ++ show (uniqueness dimensions) ++
                    "% - duplicate records can cause reconciliation issues and analytics inaccuracies.")%string]
    else areas in
  if ltb (consistency dimensions) 70
  then areas ++ [("Consistency is " ++ show (consistency dimensions) ++
                  "% - format inconsistencies require manual cleanup and affect data integration.")%string]
  else areas.

Definition generateFallbackExplanation (dimensions : Scores) (DQS : Q)
  : ExplanationResponse :=
  let summary := summaryOf DQS in
  let recommendations := collectAdvice dimensions in
  {| explanation := summary;
     recommendations := firstn 3 recommendations |}.

End Fallback.

End Explanation.

(* ------------------------------------------------------------------ *)
(** ** Measures used to state further properties *)

Module Measures.

(** Cells with a present value, over the rows and the given columns. *)
Definition presentCells (rows : list Row) (columns : list jsstring) : nat :=
  list_sum
    (map (fun row =>
            List.length (filter (fun col => present (get row col)) columns))
         rows).

(** Present cells over all cells, as a rounded percentage. *)
Definition completenessOf (rows : list Row) (columns : list jsstring) : Z :=
  round (num (presentCells rows columns) /
         num (List.length rows * List.length columns) * 100).

(** The sampled cells of a column in [detectDateColumn]. *)
Definition sampleValues (rows : list Row) (col : jsstring) : list jsstring :=
  map (fun r => cell r col) (firstn (Nat.min 10 (List.length rows)) rows).

(** The test a column passes in [detectDateColumn]: a date keyword in its
    name and more than half of the sampled cells parsing as dates. *)
Definition qualifies `{Host} (rows : list Row) (col : jsstring) : bool :=
  hasDateKeyword col &&
  ltb (num (List.length (sampleValues rows col)) * 0.5)
      (num (List.length (filter ScoringEngine.dateLike (sampleValues rows col)))).

(** A row with every value trimmed. *)
Definition trimRow (row : Row) : Row :=
  map (fun '(k, v) => (k, trim v)) row.




End Measures.

Import Measures.

(** Two score records for the fallback explanation: one with every
    dimension below 70, one with every dimension at 70 or more. *)
Module ExampleScores.

Definition ailing : Explanation.Scores := {|
  Explanation.completeness := 45;
  Explanation.uniqueness := 55;
  Explanation.consistency := 60;
  Explanation.validity := 50;
  Explanation.timeliness := Some 95
|}.

Definition healthy : Explanation.Scores := {|
  Explanation.completeness := 85;
  Explanation.uniqueness := 92;
  Explanation.consistency := 78;
  Explanation.validity := 88;
  Explanation.timeliness := Some 95
|}.

End ExampleScores.

(* ------------------------------------------------------------------ *)
(** ** Double-precision arithmetic

    A JavaScript number is a double: every operation returns the double
    nearest to the exact result.  The modules above read the operations as
    exact; the modules below round after each one.  The rounding is a
    parameter; [IEEE.binary64] is the one of IEEE 754. *)

(** The rounding of an exact result to a double. *)
Class Rounding := { fl : Q -> Q }.

Module IEEE.

(** The exponent of the binade of a non-zero [x]: the largest [k] with
    [2 ^ k <= |x|]. *)
Definition ilog2 (x : Q) : Z :=
  let k := (Z.log2 (Z.abs (Qnum x)) - Z.log2 (Zpos (Qden x)))%Z in
  if Qle_bool (2 ^ k) (Qabs x) then k else (k - 1)%Z.

(** The nearest integer, a tie going to the even one. *)
Definition nearestEven (y : Q) : Z :=
  let f := Qfloor y in
  match Qcompare (y - inject_Z f) (1 # 2) with
  | Lt => f
  | Gt => (f + 1)%Z
  | Eq => if Z.even f then f else (f + 1)%Z
  end.

(** The nearest multiple of [2 ^ e]. *)
Definition roundAt (e : Z) (x : Q) : Q :=
  Qred (inject_Z (nearestEven (x / 2 ^ e)) * 2 ^ e).

(** The nearest double: 53 significant bits, the last of them of weight
    [2 ^ -1074] at least.  Results beyond the largest double, which the
    machine turns into an infinity, are not cut off. *)
Definition binary64 (x : Q) : Q :=
  let x := Qred x in
  if Qeq_bool x 0 then 0
  else roundAt (Z.max (ilog2 x - 52) (-1074)) x.

Definition double : Rounding := {| fl := binary64 |}.

(** No rounding: the exact reading of the operations. *)
Definition exact : Rounding := {| fl := fun x => x |}.


End IEEE.

(** What the proofs use of a rounding: it respects equality of rationals,
    and the integers up to [2 ^ 53] are doubles. *)
Record Lawful (R : Rounding) : Prop := {
  fl_comp : forall x y : Q, x == y -> fl x == fl y;
  fl_integer :
    forall z : Z, (Z.abs z <= 2 ^ 53)%Z -> fl (inject_Z z) == inject_Z z
}.

Module Double.

Section Operations.

Context `{Rounding}.

Definition add (a b : Q) : Q := fl (a + b).

Definition sub (a b : Q) : Q := fl (a - b).

Definition mul (a b : Q) : Q := fl (a * b).

(** [a / b]; [None] when the divisor is zero. *)
Definition div (a b : Q) : option Q :=
  if Qeq_bool b 0 then None else Some (fl (a / b)).

(** [xs.reduce((a, b) => a + b, 0)] *)
Definition sum (xs : list Q) : Q := fold_left add xs 0.

(** Arithmetic on numbers that may be NaN. *)
Definition nmul (a b : option Q) : option Q :=
  match a, b with
  | Some x, Some y => Some (mul x y)
  | _, _ => None
  end.

Definition nadd (a b : option Q) : option Q :=
  match a, b with
  | Some x, Some y => Some (add x y)
  | _, _ => None
  end.

(** The length statistics of the consistency calculators: mean length, mean
    deviation from it, and their ratio. *)
Definition lengthConsistency (values : list jsstring) : option Q :=
  let lengths := map (fun v => num (List.length v)) values in
  avgLength <- div (sum lengths) (num (List.length lengths)) ;;
  let deviations := map (fun len => Qabs (sub len avgLength)) lengths in
  avgDeviation <- div (sum deviations) (num (List.length deviations)) ;;
  let maxDeviation := Qmax avgLength 1 in
  ratio <- div avgDeviation maxDeviation ;;
  Some (Qmax 0 (sub 100 (mul ratio 100))).

Context `{Host}.

(** One row of the age loop: empty and unparsable values are skipped. *)
Definition ageStep (dateColumn : jsstring) (st : nat * Q) (row : Row)
  : option (nat * Q) :=
  let '(validDates, totalAgeHours) := st in
  let dateValue := cell row dateColumn in
  if isEmpty dateValue then Some st
  else
    match parseDate dateValue with
    | Some time =>
        let ageMs := sub (inject_Z now) (inject_Z time) in
        ageHours <- div ageMs (1000 * 60 * 60) ;;
        Some (S validDates, add totalAgeHours ageHours)
    | None => Some st
    end.

(** From the loop's counters to the score. *)
Definition ageResult (st : nat * Q) : option Z :=
  let '(validDates, totalAgeHours) := st in
  match validDates with
  | O => Some 50%Z
  | S _ =>
      avgAgeHours <- div totalAgeHours (num validDates) ;;
      Some (ageScore avgAgeHours)
  end.

End Operations.

End Double.

(* ------------------------------------------------------------------ *)
(** ** data-quality-functions.js in double precision *)

Module DataQuality64.

(** An entry of the dimensions object handed to [computeDQS]: a finite
    number, the number NaN, or anything else (absent, not a number, or
    infinite). *)
Inductive Entry := Finite (q : Q) | NotANumber | Other.

Record Dimensions := {
  d_completeness : Entry;
  d_uniqueness : Entry;
  d_consistency : Entry;
  d_validity : Entry;
  d_timeliness : Entry
}.

Record CompositeResult := {
  dimensions : Dimensions;
  DQS : option Z
}.

(** [typeof v !== 'number' || v < 0 || v > 100]: the required-dimension
    check overwrites such a score with 0.  NaN is a number and neither below
    0 nor above 100. *)
Definition validated (v : Entry) : Entry :=
  match v with
  | Finite q => if ltb q 0 || ltb 100 q then Finite 0 else Finite q
  | NotANumber => NotANumber
  | Other => Finite 0
  end.

(** [typeof v === 'number' && v >= 0 && v <= 100] *)
Definition inRange (v : Entry) : bool :=
  match v with
  | Finite q => Qle_bool 0 q && Qle_bool q 100
  | NotANumber => false
  | Other => false
  end.

(** The dimensions object after the required-dimension check. *)
Definition validatedDimensions (d : Dimensions) : Dimensions := {|
  d_completeness := validated (d_completeness d);
  d_uniqueness := validated (d_uniqueness d);
  d_consistency := validated (d_consistency d);
  d_validity := validated (d_validity d);
  d_timeliness := d_timeliness d
|}.

(** The number of an entry in arithmetic; [None] is NaN. *)
Definition number (v : Entry) : option Q :=
  match v with
  | Finite q => Some q
  | NotANumber => None
  | Other => None
  end.

Definition ofScores (s : DataQuality.AllScores) : Dimensions := {|
  d_completeness := Finite (inject_Z (DataQuality.completeness s));
  d_uniqueness := Finite (inject_Z (DataQuality.uniqueness s));
  d_consistency := Finite (inject_Z (DataQuality.consistency s));
  d_validity := Finite (inject_Z (DataQuality.validity s));
  d_timeliness := Finite (inject_Z (DataQuality.timeliness s))
|}.

Section Engine.

Context `{Rounding}.

Definition computeCompleteness (rows : list Row) : option Z :=
  match rows with
  | [] => Some 0%Z
  | _ :: _ =>
      let columns := firstKeys rows in
      match columns with
      | [] => Some 0%Z
      | _ :: _ =>
          let '(totalCells, nonEmptyCells) := completenessScan rows columns in
          match totalCells with
          | O => Some 0%Z
          | S _ =>
              r <- Double.div (num nonEmptyCells) (num totalCells) ;;
              let score := round (Double.mul r 100) in
              Some (clamp score)
          end
      end
  end.

Definition uniquenessStep (rows : list Row) (st : Q * nat) (col : jsstring)
  : option (Q * nat) :=
  let '(totalUniqueness, columnCount) := st in
  let values := columnValues rows col in
  match values with
  | [] => Some (Double.add totalUniqueness 100, S columnCount)
  | _ :: _ =>
      r <- Double.div (num (setSize values)) (num (List.length values)) ;;
      let uniqueness := Double.mul r 100 in
      Some (Double.add totalUniqueness uniqueness, S columnCount)
  end.

Definition computeUniqueness (rows : list Row) : option Z :=
  match rows with
  | [] => Some 0%Z
  | _ :: _ =>
      let columns := firstKeys rows in
      match columns with
      | [] => Some 0%Z
      | _ :: _ =>
          st <- foldM (uniquenessStep rows) columns (0, 0%nat) ;;
          let '(totalUniqueness, columnCount) := st in
          match columnCount with
          | O => Some 0%Z
          | S _ =>
              r <- Double.div totalUniqueness (num columnCount) ;;
              let score := round r in
              Some (clamp score)
          end
      end
  end.

Definition columnConsistency (values : list jsstring) : option Q :=
  match values with
  | [] => Some 100
  | [_] => Some 100
  | _ :: _ :: _ => Double.lengthConsistency values
  end.

Definition consistencyStep (rows : list Row) (st : Q * nat) (col : jsstring)
  : option (Q * nat) :=
  let '(totalConsistency, columnCount) := st in
  consistency <- columnConsistency (columnValues rows col) ;;
  Some (Double.add totalConsistency consistency, S columnCount).

Definition computeConsistency (rows : list Row) : option Z :=
  match rows with
  | [] => Some 0%Z
  | _ :: _ =>
      let columns := firstKeys rows in
      match columns with
      | [] => Some 0%Z
      | _ :: _ =>
          st <- foldM (consistencyStep rows) columns (0, 0%nat) ;;
          let '(totalConsistency, columnCount) := st in
          match columnCount with
          | O => Some 0%Z
          | S _ =>
              r <- Double.div totalConsistency (num columnCount) ;;
              let score := round r in
              Some (clamp score)
          end
      end
  end.

Definition computeValidity (rows : list Row) : option Z :=
  match rows with
  | [] => Some 0%Z
  | _ :: _ =>
      match firstKeys rows with
      | [] => Some 0%Z
      | keyColumn :: _ =>
          let validRows := filter (fun row => present (get row keyColumn)) rows in
          r <- Double.div (num (List.length validRows)) (num (List.length rows)) ;;
          let score := round (Double.mul r 100) in
          Some (clamp score)
      end
  end.

Definition DEFAULT_WEIGHTS : DataQuality.WeightMap := {|
  DataQuality.w_completeness := Some (fl 0.25);
  DataQuality.w_uniqueness := Some (fl 0.20);
  DataQuality.w_consistency := Some (fl 0.15);
  DataQuality.w_validity := Some (fl 0.25);
  DataQuality.w_timeliness := Some (fl 0.15)
|}.

(** [normalizedWeights.{completeness,uniqueness,consistency,validity} *= f] *)
Definition scaleRequired (w : DataQuality.WeightMap) (f : option Q)
  : DataQuality.WeightMap := {|
  DataQuality.w_completeness := Double.nmul (DataQuality.w_completeness w) f;
  DataQuality.w_uniqueness := Double.nmul (DataQuality.w_uniqueness w) f;
  DataQuality.w_consistency := Double.nmul (DataQuality.w_consistency w) f;
  DataQuality.w_validity := Double.nmul (DataQuality.w_validity w) f;
  DataQuality.w_timeliness := DataQuality.w_timeliness w
|}.

Definition scaleTimeliness (w : DataQuality.WeightMap) (f : option Q)
  : DataQuality.WeightMap := {|
  DataQuality.w_completeness := DataQuality.w_completeness w;
  DataQuality.w_uniqueness := DataQuality.w_uniqueness w;
  DataQuality.w_consistency := DataQuality.w_consistency w;
  DataQuality.w_validity := DataQuality.w_validity w;
  DataQuality.w_timeliness := Double.nmul (DataQuality.w_timeliness w) f
|}.

(** Sum of the weights of the available dimensions. *)
Definition availableWeight (hasTimeliness : bool) (w : DataQuality.WeightMap)
  : Q :=
  let totalWeight := 0 in
  let totalWeight :=
    Double.add totalWeight (DataQuality.orZero (DataQuality.w_completeness w)) in
  let totalWeight :=
    Double.add totalWeight (DataQuality.orZero (DataQuality.w_uniqueness w)) in
  let totalWeight :=
    Double.add totalWeight (DataQuality.orZero (DataQuality.w_consistency w)) in
  let totalWeight :=
    Double.add totalWeight (DataQuality.orZero (DataQuality.w_validity w)) in
  if hasTimeliness
  then Double.add totalWeight (DataQuality.orZero (DataQuality.w_timeliness w))
  else totalWeight.

(** Without timeliness, its weight is spread over the other four. *)
Definition redistribute (hasTimeliness : bool) (st : DataQuality.WeightMap * Q)
  : DataQuality.WeightMap * Q :=
  let '(normalizedWeights, totalWeight) := st in
  if negb hasTimeliness &&
     DataQuality.truthy (DataQuality.w_timeliness normalizedWeights) then
    let timelinessWeight :=
      DataQuality.orZero (DataQuality.w_timeliness normalizedWeights) in
    let otherWeights := totalWeight in
    if ltb 0 otherWeights then
      let scaleFactor :=
        Double.div (Double.add otherWeights timelinessWeight) otherWeights in
      (scaleRequired normalizedWeights scaleFactor,
       Double.add otherWeights timelinessWeight)
    else st
  else st.

(** Weights that do not sum to 1.0 within 0.001 are rescaled. *)
Definition normalize (hasTimeliness : bool) (st : DataQuality.WeightMap * Q)
  : DataQuality.WeightMap * Q :=
  let '(normalizedWeights, totalWeight) := st in
  if ltb 0 totalWeight &&
     ltb (fl 0.001) (Qabs (Double.sub totalWeight 1)) then
    let scale := Double.div 1 totalWeight in
    let normalizedWeights := scaleRequired normalizedWeights scale in
    let normalizedWeights :=
      if hasTimeliness then scaleTimeliness normalizedWeights scale
      else normalizedWeights in
    (normalizedWeights, 1)
  else st.

Definition weightedSum (hasTimeliness : bool) (d : Dimensions)
  (w : DataQuality.WeightMap) : option Q :=
  let weightedSum := Some 0 in
  let weightedSum :=
    Double.nadd weightedSum
      (Double.nmul (number (d_completeness d)) (DataQuality.w_completeness w)) in
  let weightedSum :=
    Double.nadd weightedSum
      (Double.nmul (number (d_uniqueness d)) (DataQuality.w_uniqueness w)) in
  let weightedSum :=
    Double.nadd weightedSum
      (Double.nmul (number (d_consistency d)) (DataQuality.w_consistency w)) in
  let weightedSum :=
    Double.nadd weightedSum
      (Double.nmul (number (d_validity d)) (DataQuality.w_validity w)) in
  if hasTimeliness
  then Double.nadd weightedSum
         (Double.nmul (number (d_timeliness d)) (DataQuality.w_timeliness w))
  else weightedSum.

(** [computeDQS(dimensions, weights)]; [None] as first argument is a missing
    or non-object [dimensions]; a [DQS] of [None] is NaN. *)
Definition computeDQS (dimensions : option Dimensions)
  (weights : DataQuality.WeightMap) : CompositeResult :=
  match dimensions with
  | None =>
      {| dimensions := {| d_completeness := Other; d_uniqueness := Other;
                          d_consistency := Other; d_validity := Other;
                          d_timeliness := Other |};
         DQS := Some 0%Z |}
  | Some dimensions =>
      let dimensions := validatedDimensions dimensions in
      let hasTimeliness := inRange (d_timeliness dimensions) in
      let normalizedWeights := weights in
      let totalWeight := availableWeight hasTimeliness normalizedWeights in
      let '(normalizedWeights, totalWeight) :=
        redistribute hasTimeliness (normalizedWeights, totalWeight) in
      let '(normalizedWeights, totalWeight) :=
        normalize hasTimeliness (normalizedWeights, totalWeight) in
      if Qeq_bool totalWeight 0 then
        {| dimensions := dimensions; DQS := Some 0%Z |}
      else
        match weightedSum hasTimeliness dimensions normalizedWeights with
        | Some weightedSum =>
            let DQS := round weightedSum in
            let clampedDQS := clamp DQS in
            {| dimensions := dimensions; DQS := Some clampedDQS |}
        | None => {| dimensions := dimensions; DQS := None |}
        end
  end.

Context `{Host}.

Definition computeTimeliness (rows : list Row) : option Z :=
  match rows with
  | [] => Some 50%Z
  | _ :: _ =>
      let columns := firstKeys rows in
      match columns with
      | [] => Some 50%Z
      | _ :: _ =>
          match find hasDateKeyword columns with
          | None => Some 50%Z
          | Some [] => Some 50%Z
          | Some dateColumn =>
              st <- foldM (Double.ageStep dateColumn) rows (0%nat, 0) ;;
              Double.ageResult st
          end
      end
  end.

Definition computeAllScores (rows : list Row) : option DataQuality.AllScores :=
  c <- computeCompleteness rows ;;
  u <- computeUniqueness rows ;;
  k <- computeConsistency rows ;;
  v <- computeValidity rows ;;
  t <- computeTimeliness rows ;;
  Some {| DataQuality.completeness := c; DataQuality.uniqueness := u;
          DataQuality.consistency := k; DataQuality.validity := v;
          DataQuality.timeliness := t |}.

End Engine.

End DataQuality64.

(* ------------------------------------------------------------------ *)
(** ** scoring-engine.ts in double precision *)

Module ScoringEngine64.

Section Engine.

Context `{Rounding}.

Definition calculateCompleteness (rows : list Row) (columns : list jsstring)
  : option Z :=
  if isEmptyList rows || isEmptyList columns then Some 0%Z
  else
    let '(totalCells, nonEmptyCells) := completenessScan rows columns in
    match totalCells with
    | O => Some 0%Z
    | S _ =>
        r <- Double.div (num nonEmptyCells) (num totalCells) ;;
        Some (round (Double.mul r 100))
    end.

Definition uniquenessStep (rows : list Row) (st : Q * nat) (col : jsstring)
  : option (Q * nat) :=
  let '(totalUniqueness, columnCount) := st in
  let values := columnValues rows col in
  let uniqueValues := setSize values in
  uniqueness <-
    (if (0 <? List.length values)%nat
     then r <- Double.div (num uniqueValues) (num (List.length values)) ;;
          Some (Double.mul r 100)
     else Some 100) ;;
  Some (Double.add totalUniqueness uniqueness, S columnCount).

Definition calculateUniqueness (rows : list Row) (columns : list jsstring)
  : option Z :=
  if isEmptyList rows || isEmptyList columns then Some 0%Z
  else
    st <- foldM (uniquenessStep rows) columns (0, 0%nat) ;;
    let '(totalUniqueness, columnCount) := st in
    match columnCount with
    | O => Some 0%Z
    | S _ =>
        r <- Double.div totalUniqueness (num columnCount) ;;
        Some (round r)
    end.

Definition consistencyStep (rows : list Row) (st : Q * nat) (col : jsstring)
  : option (Q * nat) :=
  let '(totalConsistency, columnCount) := st in
  let values := columnValues rows col in
  match values with
  | [] => Some (Double.add totalConsistency 100, S columnCount)
  | _ :: _ =>
      let lengths := map (fun v => num (List.length v)) values in
      avgLength <- Double.div (Double.sum lengths) (num (List.length lengths)) ;;
      variance <-
        Double.div
          (fold_left
             (fun sum len => Double.add sum (Qabs (Double.sub len avgLength)))
             lengths 0)
          (num (List.length lengths)) ;;
      ratio <- Double.div variance (Qmax avgLength 1) ;;
      let consistency := Qmax 0 (Double.sub 100 (Double.mul ratio 100)) in
      Some (Double.add totalConsistency consistency, S columnCount)
  end.

Definition calculateConsistency (rows : list Row) (columns : list jsstring)
  : option Z :=
  if isEmptyList rows || isEmptyList columns then Some 0%Z
  else
    st <- foldM (consistencyStep rows) columns (0, 0%nat) ;;
    let '(totalConsistency, columnCount) := st in
    match columnCount with
    | O => Some 0%Z
    | S _ =>
        r <- Double.div totalConsistency (num columnCount) ;;
        Some (round r)
    end.

Definition calculateValidity (rows : list Row) (columns : list jsstring)
  : option Z :=
  match rows with
  | [] => Some 0%Z
  | _ :: _ =>
      match columns with
      | [] => Some 0%Z
      | keyColumn :: _ =>
          let validRows :=
            filter (fun row => negb (isEmpty (cell row keyColumn))) rows in
          r <- Double.div (num (List.length validRows)) (num (List.length rows)) ;;
          Some (round (Double.mul r 100))
      end
  end.

Definition calculateDQS (scores : ScoringEngine.DimensionScores) : option Z :=
  let dimensions := ScoringEngine.definedScores scores in
  match dimensions with
  | [] => Some 0%Z
  | _ :: _ =>
      r <- Double.div (Double.sum dimensions) (num (List.length dimensions)) ;;
      Some (round r)
  end.

Context `{Host}.

Definition calculateTimeliness (rows : list Row) (dateColumnName : jsstring)
  : option Z :=
  match rows with
  | [] => Some 0%Z
  | _ :: _ =>
      st <- foldM (Double.ageStep dateColumnName) rows (0%nat, 0) ;;
      Double.ageResult st
  end.

Definition computeScores (rows : list Row)
  (metadata : ScoringEngine.ScoringMetadata)
  : option ScoringEngine.DimensionScores :=
  let columns := ScoringEngine.columns metadata in
  c <- calculateCompleteness rows columns ;;
  u <- calculateUniqueness rows columns ;;
  k <- calculateConsistency rows columns ;;
  v <- calculateValidity rows columns ;;
  match ScoringEngine.dateColumnOf metadata with
  | Some dateColumnName =>
      t <- calculateTimeliness rows dateColumnName ;;
      Some {| ScoringEngine.completeness := c; ScoringEngine.uniqueness := u;
              ScoringEngine.consistency := k; ScoringEngine.validity := v;
              ScoringEngine.timeliness := Some t |}
  | None =>
      Some {| ScoringEngine.completeness := c; ScoringEngine.uniqueness := u;
              ScoringEngine.consistency := k; ScoringEngine.validity := v;
              ScoringEngine.timeliness := None |}
  end.

End Engine.

End ScoringEngine64.

(* ------------------------------------------------------------------ *)
(** ** The documented formulas, evaluated in double precision

    Sums run from 0 through the list from its head, one rounding after each
    operation. *)

Module Formula64.

Section Formulas.

Context `{Rounding}.

(** Arithmetic mean of a list of numbers. *)
Definition mean (xs : list Q) : Q :=
  fl (Double.sum xs / num (List.length xs)).

(** A count over a total, as a percentage. *)
Definition percentage (count total : nat) : Q :=
  fl (fl (num count / num total) * 100).

(** Distinct values over values, as a percentage; 100 for a column without
    values. *)
Definition uniquenessOf (values : list jsstring) : Q :=
  match values with
  | [] => 100
  | _ :: _ => percentage (setSize values) (List.length values)
  end.

(** Mean absolute deviation of the lengths from their mean. *)
Definition meanDeviation (lengths : list Q) : Q :=
  mean (map (fun len => Qabs (fl (len - mean lengths))) lengths).

(** 100 without values or with one value; otherwise 100 less the deviation
    ratio, floored at 0. *)
Definition consistencyOf (values : list jsstring) : Q :=
  match values with
  | [] => 100
  | [_] => 100
  | _ :: _ :: _ =>
      let lengths := map (fun v => num (List.length v)) values in
      Qmax 0
        (fl (100 - fl (fl (meanDeviation lengths / Qmax (mean lengths) 1) * 100)))
  end.

(** Rounded mean of a per-column measure. *)
Definition columnMean (f : list jsstring -> Q) (rows : list Row)
  (columns : list jsstring) : Z :=
  round (mean (map (fun col => f (columnValues rows col)) columns)).

(** Present cells over all cells, as a rounded percentage. *)
Definition completenessOf (rows : list Row) (columns : list jsstring) : Z :=
  round (percentage (presentCells rows columns)
                    (List.length rows * List.length columns)).

(** Rows whose key field, trimmed, is not empty, over all rows, as a rounded
    percentage. *)
Definition validityOf (rows : list Row) (keyColumn : jsstring) : Z :=
  let valid := filter (fun row => negb (isEmpty (cell row keyColumn))) rows in
  round (percentage (List.length valid) (List.length rows)).

(** The weighted sum of scores, products added from 0 in the order of the
    dimensions. *)
Definition weightedSum (scores weights : list Q) : Q :=
  Double.sum (map (fun '(s, w) => fl (s * w)) (combine scores weights)).



(** Step 4: a weight scaled so that the total of the four becomes the total
    plus the timeliness weight. *)
Definition redistributed (four timelinessWeight w : Q) : Q :=
  fl (w * fl (fl (four + timelinessWeight) / four)).



Context `{Host}.

(** Age in hours of a timestamp: now minus the parsed date. *)
Definition ageHours (time : Z) : Q :=
  fl (fl (inject_Z now - inject_Z time) / (1000 * 60 * 60)).

Definition ages (rows : list Row) (dateColumn : jsstring) : list Q :=
  map ageHours (parsedDates rows dateColumn).

(** The score of a date column: 50 without parsed dates, otherwise the
    score of the mean age. *)
Definition ageOutcome (rows : list Row) (dateColumn : jsstring) : Z :=
  match parsedDates rows dateColumn with
  | [] => 50%Z
  | _ :: _ => ageScore (mean (ages rows dateColumn))
  end.

End Formulas.

End Formula64.

(** Datasets on which rounding shows. *)
Module Example64.

Import ExampleHost.

(** 23 rows with distinct one-letter cells. *)
Definition letters : list Row :=
  map (fun i => [(lit "id", [N.of_nat (65 + i)])]) (seq 0 23).

(** 40 rows of one column: 23 cells with a value, 17 empty ones. *)
Definition sparse : list Row := letters ++ repeat [(lit "id", [])] 17.


(** 40 rows of one column holding 23 distinct values. *)
Definition echoed : list Row := letters ++ repeat [(lit "id", lit "A")] 17.




End Example64.

(* ------------------------------------------------------------------ *)
(** ** Numbers *)

Lemma div_some (a b : Q) : ~ b == 0 -> div a b = Some (a / b).
Proof.
  intros Hb. unfold div.
  destruct (Qeq_bool b 0) eqn:E; [|reflexivity].
  apply Qeq_bool_eq in E. contradiction.
Qed.

Lemma num_nonneg (n : nat) : 0 <= num n.
Proof.
  unfold num. change 0 with (inject_Z 0). rewrite <- Zle_Qle. lia.
Qed.

Lemma num_S_pos (n : nat) : 0 < num (S n).
Proof.
  unfold num. change 0 with (inject_Z 0). rewrite <- Zlt_Qlt. lia.
Qed.

Lemma num_S_neq (n : nat) : ~ num (S n) == 0.
Proof.
  intros E. pose proof (num_S_pos n) as P. rewrite E in P.
  apply (Qlt_irrefl 0), P.
Qed.

Lemma num_le (n m : nat) : (n <= m)%nat -> num n <= num m.
Proof.
  intros L. unfold num. rewrite <- Zle_Qle. lia.
Qed.

Lemma num_S (n : nat) : num (S n) == num n + 1.
Proof.
  unfold num. rewrite Nat2Z.inj_succ. unfold Z.succ.
  rewrite inject_Z_plus. reflexivity.
Qed.

Lemma ltb_true (a b : Q) : ltb a b = true <-> a < b.
Proof.
  unfold ltb. rewrite negb_true_iff.
  split; intros E.
  - apply Qnot_le_lt. intros L. apply Qle_bool_iff in L. congruence.
  - destruct (Qle_bool b a) eqn:F; [|reflexivity].
    apply Qle_bool_iff in F. exfalso. apply (Qlt_not_le _ _ E), F.
Qed.

Lemma ltb_false (a b : Q) : ltb a b = false <-> b <= a.
Proof.
  unfold ltb. rewrite negb_false_iff. apply Qle_bool_iff.
Qed.

Lemma round_comp (x y : Q) : x == y -> round x = round y.
Proof.
  intros E. unfold round. apply Qfloor_comp. rewrite E. reflexivity.
Qed.

Lemma round_range (x : Q) : 0 <= x -> x <= 100 -> (0 <= round x <= 100)%Z.
Proof.
  intros L U. unfold round. split.
  - change 0%Z with (Qfloor (0 + (1 # 2))).
    apply Qfloor_resp_le. lra.
  - change 100%Z with (Qfloor (100 + (1 # 2))).
    apply Qfloor_resp_le. lra.
Qed.

Lemma round_between (x : Q) (z : Z) :
  inject_Z z - (1 # 2) <= x -> x < inject_Z z + (1 # 2) -> round x = z.
Proof.
  intros L U. unfold round.
  pose proof (Qfloor_le (x + (1 # 2))) as F1.
  pose proof (Qlt_floor (x + (1 # 2))) as F2.
  assert (A : (z <= Qfloor (x + (1 # 2)))%Z).
  { rewrite <- (Qfloor_Z z). apply Qfloor_resp_le. lra. }
  assert (B : (Qfloor (x + (1 # 2)) < z + 1)%Z).
  { rewrite Zlt_Qlt. rewrite inject_Z_plus.
    eapply Qle_lt_trans; [exact F1|]. change (inject_Z 1) with 1. lra. }
  lia.
Qed.

Lemma clamp_range (z : Z) : (0 <= clamp z <= 100)%Z.
Proof. unfold clamp. lia. Qed.

Lemma clamp_id (z : Z) : (0 <= z <= 100)%Z -> clamp z = z.
Proof. unfold clamp. lia. Qed.

Lemma sum_from (xs : list Q) (a : Q) : fold_left Qplus xs a == a + sum xs.
Proof.
  unfold sum. revert a.
  induction xs as [|x xs IH]; intros a; simpl.
  - lra.
  - rewrite IH. rewrite (IH (0 + x)). lra.
Qed.

Lemma sum_cons (x : Q) (xs : list Q) : sum (x :: xs) == x + sum xs.
Proof.
  unfold sum at 1. simpl. rewrite sum_from. lra.
Qed.

Lemma sum_bounds (xs : list Q) (lo hi : Q) :
  Forall (fun x => lo <= x /\ x <= hi) xs ->
  lo * num (List.length xs) <= sum xs /\ sum xs <= hi * num (List.length xs).
Proof.
  induction 1 as [|x xs [Hl Hh] _ [IHl IHh]].
  - unfold sum, num. simpl. change (inject_Z 0) with 0. split; lra.
  - rewrite sum_cons. cbn [List.length]. rewrite num_S.
    set (n := num (List.length xs)) in *. set (s := sum xs) in *.
    assert (E1 : lo * (n + 1) == lo * n + lo) by ring.
    assert (E2 : hi * (n + 1) == hi * n + hi) by ring.
    rewrite E1, E2. split; lra.
Qed.

Lemma div_le_upper (a b hi : Q) : 0 < b -> a <= hi * b -> a / b <= hi.
Proof.
  intros Hb H. apply Qle_shift_div_r; assumption.
Qed.

Lemma div_le_lower (a b lo : Q) : 0 < b -> lo * b <= a -> lo <= a / b.
Proof.
  intros Hb H. apply Qle_shift_div_l; assumption.
Qed.

Lemma mean_bounds (xs : list Q) (lo hi : Q) :
  xs <> [] ->
  Forall (fun x => lo <= x /\ x <= hi) xs ->
  lo <= mean xs /\ mean xs <= hi.
Proof.
  intros Hne HF. destruct (sum_bounds xs lo hi HF) as [L U].
  unfold mean. destruct xs as [|x xs]; [congruence|].
  cbn [List.length] in *.
  split; [apply div_le_lower | apply div_le_upper];
    auto using num_S_pos.
Qed.

Lemma sum_nonneg (xs : list Q) : Forall (fun x => 0 <= x) xs -> 0 <= sum xs.
Proof.
  induction 1 as [|x xs Hx _ IH].
  - unfold sum. simpl. lra.
  - rewrite sum_cons. lra.
Qed.

Lemma mean_nonneg (xs : list Q) : Forall (fun x => 0 <= x) xs -> 0 <= mean xs.
Proof.
  intros HF. unfold mean. destruct xs as [|x xs].
  - unfold sum, num. simpl. unfold Qdiv. change (inject_Z 0) with 0. lra.
  - apply div_le_lower; [apply num_S_pos|].
    pose proof (sum_nonneg _ HF). lra.
Qed.

Lemma fold_left_map_acc {A B C : Type} (f : A -> C -> A) (g : B -> C)
  (l : list B) (a : A) :
  fold_left (fun acc x => f acc (g x)) l a = fold_left f (map g l) a.
Proof.
  revert a. induction l as [|x l IH]; intros a; simpl; [reflexivity|apply IH].
Qed.

(* ------------------------------------------------------------------ *)
(** ** Loops *)

Lemma foldM_ext {A B : Type} (f g : A -> B -> option A) (l : list B) (a : A) :
  (forall a x, f a x = g a x) -> foldM f l a = foldM g l a.
Proof.
  intros E. revert a. induction l as [|x l IH]; intros a; simpl.
  - reflexivity.
  - rewrite E. destruct (g a x); simpl; [apply IH|reflexivity].
Qed.

(** A loop that adds one measured value per element and counts the
    elements. *)
Lemma foldM_acc {B : Type} (f : Q * nat -> B -> option (Q * nat)) (g : B -> Q) :
  (forall t c x, exists q, f (t, c) x = Some (t + q, S c) /\ q == g x) ->
  forall l t c,
  exists t', foldM f l (t, c) = Some (t', (c + List.length l)%nat) /\
             t' == t + sum (map g l).
Proof.
  intros Hf l. induction l as [|x l IH]; intros t c.
  - exists t. simpl. rewrite Nat.add_0_r. split; [reflexivity|].
    unfold sum. simpl. lra.
  - destruct (Hf t c x) as [q [Eq Hq]].
    destruct (IH (t + q) (S c)) as [t' [Et Ht]].
    exists t'. simpl. rewrite Eq. simpl. rewrite Et.
    split; [f_equal; f_equal; lia|].
    rewrite Ht, sum_cons, Hq. lra.
Qed.

Lemma completenessCell_le (row : Row) (columns : list jsstring) (st : nat * nat) :
  (snd st <= fst st)%nat ->
  (snd (fold_left (completenessCell row) columns st) <=
   fst (fold_left (completenessCell row) columns st))%nat.
Proof.
  revert st. induction columns as [|col columns IH]; intros [t n] H; simpl.
  - exact H.
  - apply IH. simpl in *. destruct (present (get row col)); simpl; lia.
Qed.

Lemma completenessScan_le (rows : list Row) (columns : list jsstring) :
  (snd (completenessScan rows columns) <= fst (completenessScan rows columns))%nat.
Proof.
  unfold completenessScan.
  assert (G : forall st : nat * nat, (snd st <= fst st)%nat ->
    (snd (fold_left (fun st row => fold_left (completenessCell row) columns st) rows st) <=
     fst (fold_left (fun st row => fold_left (completenessCell row) columns st) rows st))%nat).
  { induction rows as [|row rows IH]; intros st H; simpl.
    - exact H.
    - apply IH. apply completenessCell_le. exact H. }
  apply G. simpl. lia.
Qed.

Lemma percent_range (n t : nat) :
  (n <= S t)%nat ->
  0 <= num n / num (S t) * 100 /\ num n / num (S t) * 100 <= 100.
Proof.
  intros L.
  pose proof (num_S_pos t) as P. pose proof (num_nonneg n) as N.
  pose proof (num_le _ _ L) as M.
  assert (A : 0 <= num n / num (S t)) by (apply div_le_lower; lra).
  assert (B : num n / num (S t) <= 1) by (apply div_le_upper; lra).
  split; lra.
Qed.

Lemma nodup_length_le (values : list jsstring) :
  (setSize values <= List.length values)%nat.
Proof.
  unfold setSize. induction values as [|v values IH]; simpl.
  - lia.
  - destruct (in_dec (list_eq_dec N.eq_dec) v values); simpl; lia.
Qed.

Lemma uniquenessOf_range (values : list jsstring) :
  0 <= uniquenessOf values /\ uniquenessOf values <= 100.
Proof.
  unfold uniquenessOf. destruct values as [|v values].
  - split; lra.
  - apply percent_range. apply (nodup_length_le (v :: values)).
Qed.

Lemma Qmax_one_pos (x : Q) : 0 < Qmax x 1.
Proof.
  pose proof (Q.le_max_r x 1). lra.
Qed.

Lemma consistency_value_range (md m : Q) :
  0 <= md ->
  0 <= Qmax 0 (100 - md / Qmax m 1 * 100) /\
  Qmax 0 (100 - md / Qmax m 1 * 100) <= 100.
Proof.
  intros Hmd. split.
  - apply Q.le_max_l.
  - apply Q.max_lub; [lra|].
    assert (A : 0 <= md / Qmax m 1).
    { apply div_le_lower; [apply Qmax_one_pos|lra]. }
    lra.
Qed.

Lemma meanDeviation_nonneg (lengths : list Q) : 0 <= meanDeviation lengths.
Proof.
  unfold meanDeviation. apply mean_nonneg.
  apply Forall_forall. intros x Hx. apply in_map_iff in Hx.
  destruct Hx as [len [<- _]]. apply Qabs_nonneg.
Qed.

Lemma consistencyOf_range (values : list jsstring) :
  0 <= consistencyOf values /\ consistencyOf values <= 100.
Proof.
  unfold consistencyOf. destruct values as [|v [|v' values]].
  - split; lra.
  - split; lra.
  - apply consistency_value_range, meanDeviation_nonneg.
Qed.

Lemma columnMean_range (g : list jsstring -> Q) (rows : list Row)
  (columns : list jsstring) :
  (forall values, 0 <= g values /\ g values <= 100) ->
  columns <> [] ->
  (0 <= columnMean g rows columns <= 100)%Z.
Proof.
  intros Hg Hne. unfold columnMean.
  assert (M : 0 <= mean (map (fun col => g (columnValues rows col)) columns) /\
              mean (map (fun col => g (columnValues rows col)) columns) <= 100).
  { apply mean_bounds.
    - destruct columns; [congruence|discriminate].
    - apply Forall_forall. intros x Hx. apply in_map_iff in Hx.
      destruct Hx as [col [<- _]]. apply Hg. }
  apply round_range; apply M.
Qed.

(** The column loop of the uniqueness and consistency calculators ends with
    the sum of the per-column values and the number of columns. *)
Lemma column_loop (f : Q * nat -> jsstring -> option (Q * nat))
  (g : list jsstring -> Q) (rows : list Row) (columns : list jsstring) :
  (forall t c col, exists q,
      f (t, c) col = Some (t + q, S c) /\ q == g (columnValues rows col)) ->
  columns <> [] ->
  exists t n,
    foldM f columns (0, 0%nat) = Some (t, S n) /\
    round (t / num (S n)) = columnMean g rows columns.
Proof.
  intros Hf Hne.
  destruct (foldM_acc f (fun col => g (columnValues rows col)) Hf columns 0 0%nat)
    as [t [Et Ht]].
  destruct columns as [|col columns]; [congruence|].
  exists t, (List.length columns). split.
  - exact Et.
  - unfold columnMean, mean. apply round_comp.
    rewrite Ht. rewrite length_map. cbn [List.length].
    field. apply num_S_neq.
Qed.

Module DataQualityFacts.
Import DataQuality.

Lemma computeCompleteness_range (rows : list Row) :
  exists z, computeCompleteness rows = Some z /\ (0 <= z <= 100)%Z.
Proof.
  unfold computeCompleteness.
  destruct rows as [|row rows]; [exists 0%Z; split; [reflexivity|lia]|].
  destruct (firstKeys (row :: rows)) as [|col columns];
    [exists 0%Z; split; [reflexivity|lia]|].
  destruct (completenessScan (row :: rows) (col :: columns)) as [[|t] n];
    [exists 0%Z; split; [reflexivity|lia]|].
  rewrite div_some by apply num_S_neq. cbn [bind].
  eexists. split; [reflexivity|apply clamp_range].
Qed.

Lemma uniquenessStep_spec (rows : list Row) (t : Q) (c : nat) (col : jsstring) :
  exists q, uniquenessStep rows (t, c) col = Some (t + q, S c) /\
            q == uniquenessOf (columnValues rows col).
Proof.
  unfold uniquenessStep, uniquenessOf.
  destruct (columnValues rows col) as [|v values].
  - exists 100. split; reflexivity.
  - cbn [List.length]. rewrite div_some by apply num_S_neq. cbn [bind].
    eexists. split; reflexivity.
Qed.

Lemma computeUniqueness_formula (row : Row) (rows : list Row) :
  firstKeys (row :: rows) <> [] ->
  computeUniqueness (row :: rows) =
  Some (columnMean uniquenessOf (row :: rows) (firstKeys (row :: rows))).
Proof.
  intros Hne. unfold computeUniqueness.
  destruct (column_loop (uniquenessStep (row :: rows)) uniquenessOf (row :: rows)
              (firstKeys (row :: rows)) (uniquenessStep_spec (row :: rows)) Hne)
    as [t [n [Et Er]]].
  destruct (firstKeys (row :: rows)) as [|col columns] eqn:K; [congruence|].
  rewrite Et. cbn [bind]. rewrite div_some by apply num_S_neq. cbn [bind].
  rewrite Er. f_equal. apply clamp_id.
  apply columnMean_range; [apply uniquenessOf_range|discriminate].
Qed.

Lemma lengthConsistency_formula (v v' : jsstring) (values : list jsstring) :
  lengthConsistency (v :: v' :: values) = Some (consistencyOf (v :: v' :: values)).
Proof.
  unfold lengthConsistency, consistencyOf, meanDeviation, mean.
  rewrite !length_map. cbn [List.length].
  rewrite div_some by apply num_S_neq. cbn [bind].
  rewrite !length_map. cbn [List.length].
  rewrite div_some by apply num_S_neq. cbn [bind].
  rewrite div_some.
  - reflexivity.
  - intros E. pose proof (Qmax_one_pos
      (sum (map (fun v0 => num (List.length v0)) (v :: v' :: values)) /
       num (S (S (List.length values))))) as P.
    rewrite E in P. apply (Qlt_irrefl 0), P.
Qed.

Lemma columnConsistency_formula (values : list jsstring) :
  columnConsistency values = Some (consistencyOf values).
Proof.
  destruct values as [|v [|v' values]]; try reflexivity.
  apply lengthConsistency_formula.
Qed.

Lemma consistencyStep_spec (rows : list Row) (t : Q) (c : nat) (col : jsstring) :
  exists q, consistencyStep rows (t, c) col = Some (t + q, S c) /\
            q == consistencyOf (columnValues rows col).
Proof.
  unfold consistencyStep. rewrite columnConsistency_formula. cbn [bind].
  eexists. split; reflexivity.
Qed.

Lemma computeConsistency_formula (row : Row) (rows : list Row) :
  firstKeys (row :: rows) <> [] ->
  computeConsistency (row :: rows) =
  Some (columnMean consistencyOf (row :: rows) (firstKeys (row :: rows))).
Proof.
  intros Hne. unfold computeConsistency.
  destruct (column_loop (consistencyStep (row :: rows)) consistencyOf (row :: rows)
              (firstKeys (row :: rows)) (consistencyStep_spec (row :: rows)) Hne)
    as [t [n [Et Er]]].
  destruct (firstKeys (row :: rows)) as [|col columns] eqn:K; [congruence|].
  rewrite Et. cbn [bind]. rewrite div_some by apply num_S_neq. cbn [bind].
  rewrite Er. f_equal. apply clamp_id.
  apply columnMean_range; [apply consistencyOf_range|discriminate].
Qed.

End DataQualityFacts.

(* ------------------------------------------------------------------ *)
(** ** Cells, validity and ages *)

Lemma present_cell (row : Row) (col : jsstring) :
  present (get row col) = negb (isEmpty (cell row col)).
Proof.
  unfold present, cell. destruct (get row col); reflexivity.
Qed.

Lemma filter_length_le {A : Type} (p : A -> bool) (l : list A) :
  (List.length (filter p l) <= List.length l)%nat.
Proof.
  induction l as [|x l IH]; simpl; [lia|].
  destruct (p x); simpl; lia.
Qed.

Lemma validityOf_range (rows : list Row) (keyColumn : jsstring) :
  rows <> [] -> (0 <= validityOf rows keyColumn <= 100)%Z.
Proof.
  intros Hne. unfold validityOf.
  destruct rows as [|row rows]; [congruence|].
  cbn [List.length].
  apply round_range; apply percent_range;
    apply (filter_length_le _ (row :: rows)).
Qed.


Lemma hour_neq : ~ 1000 * 60 * 60 == 0.
Proof. intros E. discriminate E. Qed.


Lemma ageScore_range (meanAge : Q) : (0 <= ageScore meanAge <= 100)%Z.
Proof.
  unfold ageScore.
  repeat match goal with |- context [ltb ?a ?b] => destruct (ltb a b) end; lia.
Qed.

Section Ages.
Context `{Host}.

Lemma ageLoop (dateColumn : jsstring) (rows : list Row) (n : nat) (t : Q) :
  foldM (ageStep dateColumn) rows (n, t) =
  Some ((n + List.length (parsedDates rows dateColumn))%nat,
        fold_left Qplus (ages rows dateColumn) t).
Proof.
  revert n t. induction rows as [|row rows IH]; intros n t.
  - simpl. rewrite Nat.add_0_r. reflexivity.
  - cbn [foldM]. unfold ageStep at 1. unfold ages, parsedDates.
    cbn [flat_map].
    destruct (isEmpty (cell row dateColumn)).
    + cbn [bind app]. apply IH.
    + destruct (parseDate (cell row dateColumn)) as [time|].
      * rewrite div_some by apply hour_neq. cbn [bind app map fold_left List.length].
        rewrite IH. unfold ages, parsedDates, ageHours.
        f_equal. f_equal. lia.
      * cbn [bind app]. apply IH.
Qed.

Lemma age_result (rows : list Row) (dateColumn : jsstring) :
  (st <- foldM (ageStep dateColumn) rows (0%nat, 0) ;; ageResult st) =
  Some (ageOutcome rows dateColumn).
Proof.
  rewrite ageLoop. cbn [bind]. unfold ageResult, ageOutcome.
  rewrite Nat.add_0_l.
  destruct (parsedDates rows dateColumn) as [|time times] eqn:P.
  - reflexivity.
  - cbn [List.length]. rewrite div_some by apply num_S_neq. cbn [bind].
    unfold mean, sum.
    replace (List.length (ages rows dateColumn)) with (S (List.length times))
      by (unfold ages; rewrite length_map, P; reflexivity).
    reflexivity.
Qed.

Lemma ageOutcome_range (rows : list Row) (dateColumn : jsstring) :
  (0 <= ageOutcome rows dateColumn <= 100)%Z.
Proof.
  unfold ageOutcome. destruct (parsedDates rows dateColumn).
  - lia.
  - apply ageScore_range.
Qed.

End Ages.

Module DataQualityRanges.
Import DataQuality DataQualityFacts.

Lemma computeValidity_formula (row : Row) (rows : list Row)
  (keyColumn : jsstring) (others : list jsstring) :
  firstKeys (row :: rows) = keyColumn :: others ->
  computeValidity (row :: rows) = Some (validityOf (row :: rows) keyColumn).
Proof.
  intros K. unfold computeValidity. rewrite K.
  rewrite (filter_ext _ (fun r => negb (isEmpty (cell r keyColumn))))
    by (intros r; apply present_cell).
  cbn [List.length]. rewrite div_some by apply num_S_neq. cbn [bind].
  f_equal. apply clamp_id.
  apply (validityOf_range (row :: rows)). discriminate.
Qed.

Lemma computeValidity_range (rows : list Row) :
  exists z, computeValidity rows = Some z /\ (0 <= z <= 100)%Z.
Proof.
  destruct rows as [|row rows]; [exists 0%Z; split; [reflexivity|lia]|].
  destruct (firstKeys (row :: rows)) as [|k ks] eqn:K.
  - exists 0%Z. unfold computeValidity. rewrite K. split; [reflexivity|lia].
  - rewrite (computeValidity_formula _ _ _ _ K). eexists. split; [reflexivity|].
    apply validityOf_range. discriminate.
Qed.

Section WithHost.
Context `{Host}.

Lemma computeTimeliness_no_date (rows : list Row) :
  find hasDateKeyword (firstKeys rows) = None ->
  computeTimeliness rows = Some 50%Z.
Proof.
  intros F. unfold computeTimeliness.
  destruct rows as [|row rows]; [reflexivity|].
  rewrite F. destruct (firstKeys (row :: rows)); reflexivity.
Qed.

Lemma computeTimeliness_date (row : Row) (rows : list Row)
  (c : N) (name : jsstring) :
  find hasDateKeyword (firstKeys (row :: rows)) = Some (c :: name) ->
  computeTimeliness (row :: rows) = Some (ageOutcome (row :: rows) (c :: name)).
Proof.
  intros F. unfold computeTimeliness. rewrite F.
  destruct (firstKeys (row :: rows)) as [|k ks]; [discriminate F|].
  apply age_result.
Qed.

Lemma computeTimeliness_range (rows : list Row) :
  exists z, computeTimeliness rows = Some z /\ (0 <= z <= 100)%Z.
Proof.
  destruct rows as [|row rows]; [exists 50%Z; split; [reflexivity|lia]|].
  destruct (find hasDateKeyword (firstKeys (row :: rows))) as [[|c name]|] eqn:F.
  - exists 50%Z. unfold computeTimeliness. rewrite F.
    destruct (firstKeys (row :: rows)); split; try reflexivity; lia.
  - rewrite (computeTimeliness_date _ _ _ _ F). eexists. split; [reflexivity|].
    apply ageOutcome_range.
  - rewrite (computeTimeliness_no_date _ F). exists 50%Z. split; [reflexivity|lia].
Qed.

End WithHost.

Lemma computeUniqueness_range (rows : list Row) :
  exists z, computeUniqueness rows = Some z /\ (0 <= z <= 100)%Z.
Proof.
  destruct rows as [|row rows]; [exists 0%Z; split; [reflexivity|lia]|].
  destruct (firstKeys (row :: rows)) as [|k ks] eqn:K.
  - exists 0%Z. unfold computeUniqueness. rewrite K. split; [reflexivity|lia].
  - rewrite computeUniqueness_formula by (rewrite K; discriminate).
    eexists. split; [reflexivity|].
    apply columnMean_range; [apply uniquenessOf_range|rewrite K; discriminate].
Qed.

Lemma computeConsistency_range (rows : list Row) :
  exists z, computeConsistency rows = Some z /\ (0 <= z <= 100)%Z.
Proof.
  destruct rows as [|row rows]; [exists 0%Z; split; [reflexivity|lia]|].
  destruct (firstKeys (row :: rows)) as [|k ks] eqn:K.
  - exists 0%Z. unfold computeConsistency. rewrite K. split; [reflexivity|lia].
  - rewrite computeConsistency_formula by (rewrite K; discriminate).
    eexists. split; [reflexivity|].
    apply columnMean_range; [apply consistencyOf_range|rewrite K; discriminate].
Qed.

End DataQualityRanges.

(* ------------------------------------------------------------------ *)
(** ** The TypeScript calculators *)

Module ScoringEngineFacts.
Import ScoringEngine.

Lemma isEmptyList_false {A : Type} (xs : list A) :
  xs <> [] -> isEmptyList xs = false.
Proof. destruct xs; [congruence|reflexivity]. Qed.

Lemma guard_nonempty (rows : list Row) (columns : list jsstring) :
  rows <> [] -> columns <> [] ->
  isEmptyList rows || isEmptyList columns = false.
Proof.
  intros Hr Hc. rewrite (isEmptyList_false _ Hr), (isEmptyList_false _ Hc).
  reflexivity.
Qed.

Lemma calculateCompleteness_range (rows : list Row) (columns : list jsstring) :
  exists z, calculateCompleteness rows columns = Some z /\ (0 <= z <= 100)%Z.
Proof.
  unfold calculateCompleteness.
  destruct (isEmptyList rows || isEmptyList columns);
    [exists 0%Z; split; [reflexivity|lia]|].
  pose proof (completenessScan_le rows columns) as L.
  destruct (completenessScan rows columns) as [[|t] n];
    [exists 0%Z; split; [reflexivity|lia]|].
  rewrite div_some by apply num_S_neq. cbn [bind].
  eexists. split; [reflexivity|].
  apply round_range; apply percent_range; exact L.
Qed.

Lemma calculate_uniquenessStep_spec (rows : list Row) (t : Q) (c : nat)
  (col : jsstring) :
  exists q, uniquenessStep rows (t, c) col = Some (t + q, S c) /\
            q == uniquenessOf (columnValues rows col).
Proof.
  unfold uniquenessStep, uniquenessOf.
  destruct (columnValues rows col) as [|v values].
  - exists 100. split; reflexivity.
  - cbn [List.length Nat.ltb Nat.leb].
    rewrite div_some by apply num_S_neq. cbn [bind].
    eexists. split; reflexivity.
Qed.

Lemma calculateUniqueness_formula (rows : list Row) (columns : list jsstring) :
  rows <> [] -> columns <> [] ->
  calculateUniqueness rows columns =
  Some (columnMean uniquenessOf rows columns).
Proof.
  intros Hr Hc. unfold calculateUniqueness.
  rewrite guard_nonempty by assumption.
  destruct (column_loop (uniquenessStep rows) uniquenessOf rows columns
              (calculate_uniquenessStep_spec rows) Hc) as [t [n [Et Er]]].
  rewrite Et. cbn [bind]. rewrite div_some by apply num_S_neq. cbn [bind].
  rewrite Er. reflexivity.
Qed.

(** A column with a single value has no deviation. *)
Lemma single_value_consistency (len : Q) :
  Qmax 0 (100 -
          (0 + Qabs (len - (0 + len) / num 1)) / num 1 /
          Qmax ((0 + len) / num 1) 1 * 100) == 100.
Proof.
  assert (E : len - (0 + len) / num 1 == 0).
  { unfold num. change (inject_Z (Z.of_nat 1)) with 1. field. }
  rewrite E. change (Qabs 0) with 0.
  assert (Z0 : (0 + 0) / num 1 / Qmax ((0 + len) / num 1) 1 * 100 == 0).
  { unfold Qdiv. ring. }
  rewrite Z0. apply Q.max_r. lra.
Qed.

Lemma calculate_consistencyStep_spec (rows : list Row) (t : Q) (c : nat)
  (col : jsstring) :
  exists q, consistencyStep rows (t, c) col = Some (t + q, S c) /\
            q == consistencyOf (columnValues rows col).
Proof.
  unfold consistencyStep.
  destruct (columnValues rows col) as [|v values] eqn:V.
  - exists 100. split; reflexivity.
  - rewrite !length_map. cbn [List.length].
    rewrite div_some by apply num_S_neq. cbn [bind].
    rewrite div_some by apply num_S_neq. cbn [bind].
    rewrite div_some.
    + cbn [bind]. eexists. split; [reflexivity|].
      destruct values as [|v' values].
      * unfold consistencyOf, sum. cbn [map fold_left List.length].
        apply single_value_consistency.
      * unfold consistencyOf, meanDeviation, mean.
        rewrite fold_left_map_acc. rewrite !length_map. cbn [List.length].
        reflexivity.
    + intros E. pose proof (Qmax_one_pos
        (sum (map (fun v0 => num (List.length v0)) (v :: values)) /
         num (S (List.length values)))) as P.
      rewrite E in P. apply (Qlt_irrefl 0), P.
Qed.

Lemma calculateConsistency_formula (rows : list Row) (columns : list jsstring) :
  rows <> [] -> columns <> [] ->
  calculateConsistency rows columns =
  Some (columnMean consistencyOf rows columns).
Proof.
  intros Hr Hc. unfold calculateConsistency.
  rewrite guard_nonempty by assumption.
  destruct (column_loop (consistencyStep rows) consistencyOf rows columns
              (calculate_consistencyStep_spec rows) Hc) as [t [n [Et Er]]].
  rewrite Et. cbn [bind]. rewrite div_some by apply num_S_neq. cbn [bind].
  rewrite Er. reflexivity.
Qed.

Lemma calculateValidity_formula (row : Row) (rows : list Row)
  (keyColumn : jsstring) (others : list jsstring) :
  calculateValidity (row :: rows) (keyColumn :: others) =
  Some (validityOf (row :: rows) keyColumn).
Proof.
  unfold calculateValidity. cbn [List.length].
  rewrite div_some by apply num_S_neq. reflexivity.
Qed.

Lemma calculateUniqueness_range (rows : list Row) (columns : list jsstring) :
  exists z, calculateUniqueness rows columns = Some z /\ (0 <= z <= 100)%Z.
Proof.
  destruct rows as [|row rows].
  { exists 0%Z. split; [reflexivity|lia]. }
  destruct columns as [|col columns].
  { exists 0%Z. split; [reflexivity|lia]. }
  rewrite calculateUniqueness_formula by discriminate.
  eexists. split; [reflexivity|].
  apply columnMean_range; [apply uniquenessOf_range|discriminate].
Qed.

Lemma calculateConsistency_range (rows : list Row) (columns : list jsstring) :
  exists z, calculateConsistency rows columns = Some z /\ (0 <= z <= 100)%Z.
Proof.
  destruct rows as [|row rows].
  { exists 0%Z. split; [reflexivity|lia]. }
  destruct columns as [|col columns].
  { exists 0%Z. split; [reflexivity|lia]. }
  rewrite calculateConsistency_formula by discriminate.
  eexists. split; [reflexivity|].
  apply columnMean_range; [apply consistencyOf_range|discriminate].
Qed.

Lemma calculateValidity_range (rows : list Row) (columns : list jsstring) :
  exists z, calculateValidity rows columns = Some z /\ (0 <= z <= 100)%Z.
Proof.
  destruct rows as [|row rows].
  { exists 0%Z. split; [reflexivity|lia]. }
  destruct columns as [|col columns].
  { exists 0%Z. split; [reflexivity|lia]. }
  rewrite calculateValidity_formula.
  eexists. split; [reflexivity|].
  apply validityOf_range. discriminate.
Qed.

Section WithHost.
Context `{Host}.

Lemma calculateTimeliness_formula (row : Row) (rows : list Row)
  (dateColumnName : jsstring) :
  calculateTimeliness (row :: rows) dateColumnName =
  Some (ageOutcome (row :: rows) dateColumnName).
Proof.
  unfold calculateTimeliness. apply age_result.
Qed.

Lemma calculateTimeliness_range (rows : list Row) (dateColumnName : jsstring) :
  exists z, calculateTimeliness rows dateColumnName = Some z /\
            (0 <= z <= 100)%Z.
Proof.
  destruct rows as [|row rows].
  { exists 0%Z. split; [reflexivity|lia]. }
  rewrite calculateTimeliness_formula.
  eexists. split; [reflexivity|apply ageOutcome_range].
Qed.

End WithHost.

End ScoringEngineFacts.

(* ------------------------------------------------------------------ *)
(** ** The composite score *)

Module CompositeFacts.
Import DataQuality.

Lemma inRange_true (q : Q) : 0 <= q -> q <= 100 -> inRange (Some q) = true.
Proof.
  intros L U. unfold inRange.
  apply andb_true_intro. split; apply Qle_bool_iff; assumption.
Qed.

Lemma validated_in_range (q : Q) : 0 <= q -> q <= 100 -> validated (Some q) = q.
Proof.
  intros L U. unfold validated. rewrite inRange_true by assumption. reflexivity.
Qed.


Lemma computeDQS_stages (d : Dimensions) (w : WeightMap) :
  DQS (computeDQS (Some d) w) =
  let hasT := inRange (d_timeliness d) in
  let st := normalize hasT (redistribute hasT (w, availableWeight hasT w)) in
  if Qeq_bool (snd st) 0 then Some 0%Z
  else match weightedSum hasT (validatedDimensions d) (fst st) with
       | Some ws => Some (clamp (round ws))
       | None => None
       end.
Proof.
  unfold computeDQS. cbv zeta. unfold validatedDimensions at 1.
  cbn [d_timeliness].
  destruct (redistribute _ _) as [w1 t1].
  destruct (normalize _ _) as [w2 t2]. cbn [fst snd].
  destruct (Qeq_bool t2 0); [reflexivity|].
  destruct (weightedSum _ _ _); reflexivity.
Qed.

Lemma Qeq_bool_false (a : Q) : ~ a == 0 -> Qeq_bool a 0 = false.
Proof.
  intros N. destruct (Qeq_bool a 0) eqn:E; [|reflexivity].
  apply Qeq_bool_eq in E. contradiction.
Qed.

Lemma ltb_comp (a a' b b' : Q) : a == a' -> b == b' -> ltb a b = ltb a' b'.
Proof.
  intros Ea Eb. unfold ltb. f_equal. apply Qleb_comp; assumption.
Qed.

Lemma redistributed (c u k v wc wu wk wv : Q) (t wt : option Q) :
  0 <= c <= 100 -> 0 <= u <= 100 -> 0 <= k <= 100 -> 0 <= v <= 100 ->
  inRange t = false ->
  0 < wc + wu + wk + wv -> 0 <= orZero wt ->
  DQS (computeDQS
         (Some {| d_completeness := Some c; d_uniqueness := Some u;
                  d_consistency := Some k; d_validity := Some v;
                  d_timeliness := t |})
         {| w_completeness := Some wc; w_uniqueness := Some wu;
            w_consistency := Some wk; w_validity := Some wv;
            w_timeliness := wt |}) =
  Some (clamp (round
    ((if ltb 0.001 (Qabs (wc + wu + wk + wv + orZero wt - 1))
      then 1 else wc + wu + wk + wv + orZero wt) *
     weighted4 c u k v wc wu wk wv))).
Proof.
  intros [Lc Uc] [Lu Uu] [Lk Uk] [Lv Uv] HT HW Hwt.
  rewrite computeDQS_stages. cbv zeta. cbn [d_timeliness]. rewrite HT.
  unfold availableWeight. cbv zeta.
  cbn [w_completeness w_uniqueness w_consistency w_validity orZero].
  set (W := 0 + wc + wu + wk + wv).
  assert (EW : W == wc + wu + wk + wv) by (unfold W; ring).
  assert (PW : 0 < W) by lra.
  assert (NW : ~ W == 0) by lra.
  unfold redistribute. cbv zeta. cbn [negb andb w_timeliness]. rewrite (proj2 (ltb_true 0 W) PW).
  assert (ET : (if truthy wt then W + orZero wt else W)
               == wc + wu + wk + wv + orZero wt).
  { unfold truthy. destruct wt as [q|]; cbn [orZero].
    - destruct (Qeq_bool q 0) eqn:E; cbn [negb]; [|lra].
      apply Qeq_bool_eq in E. lra.
    - lra. }
  set (T := wc + wu + wk + wv + orZero wt) in *.
  assert (PT : 0 < T) by (unfold T; lra).
  destruct (truthy wt) eqn:TW.
  - rewrite div_some by exact NW.
    unfold normalize. cbv zeta.
    assert (PT1 : 0 < W + orZero wt) by lra.
    rewrite (proj2 (ltb_true 0 _) PT1). cbn [andb].
    rewrite (ltb_comp 0.001 0.001 (Qabs (W + orZero wt - 1)) (Qabs (T - 1)))
      by (try reflexivity; rewrite ET; reflexivity).
    destruct (ltb 0.001 (Qabs (T - 1))).
    + rewrite div_some by lra. cbn [fst snd].
      rewrite Qeq_bool_false by lra.
      unfold weightedSum, validatedDimensions, scaleRequired.
      cbn [d_completeness d_uniqueness d_consistency d_validity d_timeliness
           w_completeness w_uniqueness w_consistency w_validity w_timeliness
           nmul nadd].
      rewrite !validated_in_range by assumption.
      f_equal. f_equal. apply round_comp.
      subst W T. unfold weighted4. field. repeat split; lra.
    + cbn [fst snd]. rewrite Qeq_bool_false by lra.
      unfold weightedSum, validatedDimensions, scaleRequired.
      cbn [d_completeness d_uniqueness d_consistency d_validity d_timeliness
           w_completeness w_uniqueness w_consistency w_validity w_timeliness
           nmul nadd].
      rewrite !validated_in_range by assumption.
      f_equal. f_equal. apply round_comp.
      rewrite <- ET. subst W T. unfold weighted4. field. repeat split; lra.
  - unfold normalize. cbv zeta. rewrite (proj2 (ltb_true 0 W) PW). cbn [andb].
    rewrite (ltb_comp 0.001 0.001 (Qabs (W - 1)) (Qabs (T - 1)))
      by (try reflexivity; rewrite ET; reflexivity).
    destruct (ltb 0.001 (Qabs (T - 1))).
    + rewrite div_some by lra. cbn [fst snd].
      rewrite Qeq_bool_false by lra.
      unfold weightedSum, validatedDimensions, scaleRequired.
      cbn [d_completeness d_uniqueness d_consistency d_validity d_timeliness
           w_completeness w_uniqueness w_consistency w_validity w_timeliness
           nmul nadd].
      rewrite !validated_in_range by assumption.
      f_equal. f_equal. apply round_comp.
      subst W T. unfold weighted4. field. repeat split; lra.
    + cbn [fst snd]. rewrite Qeq_bool_false by lra.
      unfold weightedSum, validatedDimensions.
      cbn [d_completeness d_uniqueness d_consistency d_validity d_timeliness
           w_completeness w_uniqueness w_consistency w_validity w_timeliness
           nmul nadd].
      rewrite !validated_in_range by assumption.
      f_equal. f_equal. apply round_comp.
      rewrite <- ET. subst W T. unfold weighted4. field. repeat split; lra.
Qed.

End CompositeFacts.

Lemma calculateDQS_mean (scores : ScoringEngine.DimensionScores) :
  ScoringEngine.calculateDQS scores =
  Some (round (mean (ScoringEngine.definedScores scores))).
Proof.
  unfold ScoringEngine.calculateDQS, ScoringEngine.definedScores, mean.
  destruct (ScoringEngine.timeliness scores);
    cbn [app map List.length]; rewrite div_some by apply num_S_neq;
    reflexivity.
Qed.






Lemma sameCells_length (rows rows' : list Row) :
  sameCells rows rows' -> List.length rows = List.length rows'.
Proof.
  induction 1; cbn [List.length]; congruence.
Qed.

Lemma columnValues_same (rows rows' : list Row) (col : jsstring) :
  sameCells rows rows' -> columnValues rows col = columnValues rows' col.
Proof.
  intros S. unfold columnValues. f_equal.
  induction S as [|r r' rows rows' E _ IH]; cbn [map]; [reflexivity|].
  rewrite E, IH. reflexivity.
Qed.

Lemma completenessCell_same (r r' : Row) (columns : list jsstring)
  (st : nat * nat) :
  (forall col, cell r col = cell r' col) ->
  fold_left (completenessCell r) columns st =
  fold_left (completenessCell r') columns st.
Proof.
  intros E. revert st.
  induction columns as [|col columns IH]; intros st; cbn [fold_left];
    [reflexivity|].
  rewrite IH. f_equal. unfold completenessCell. destruct st as [t n].
  rewrite !present_cell, E. reflexivity.
Qed.

Lemma completenessScan_same (rows rows' : list Row) (columns : list jsstring) :
  sameCells rows rows' ->
  completenessScan rows columns = completenessScan rows' columns.
Proof.
  intros S. unfold completenessScan. generalize (0%nat, 0%nat).
  induction S as [|r r' rows rows' E _ IH]; intros st; cbn [fold_left];
    [reflexivity|].
  rewrite (completenessCell_same r r' columns st E). apply IH.
Qed.

Lemma validRows_same (rows rows' : list Row) (col : jsstring) :
  sameCells rows rows' ->
  List.length (filter (fun row => negb (isEmpty (cell row col))) rows) =
  List.length (filter (fun row => negb (isEmpty (cell row col))) rows').
Proof.
  induction 1 as [|r r' rows rows' E _ IH]; cbn [filter]; [reflexivity|].
  rewrite E. destruct (negb (isEmpty (cell r' col))); cbn [List.length];
    rewrite IH; reflexivity.
Qed.

Lemma ageLoop_same `{Host} (rows rows' : list Row) (col : jsstring)
  (st : nat * Q) :
  sameCells rows rows' ->
  foldM (ageStep col) rows st = foldM (ageStep col) rows' st.
Proof.
  intros S. revert st.
  induction S as [|r r' rows rows' E _ IH]; intros st; cbn [foldM];
    [reflexivity|].
  assert (A : ageStep col st r = ageStep col st r').
  { unfold ageStep. rewrite E. reflexivity. }
  rewrite A. destruct (ageStep col st r'); cbn [bind]; [apply IH|reflexivity].
Qed.

Module SameCells.
Import DataQuality.

Lemma sameCells_cons (r r' : Row) (rows rows' : list Row) :
  (forall col, cell r col = cell r' col) -> sameCells rows rows' ->
  sameCells (r :: rows) (r' :: rows').
Proof. intros E S. constructor; assumption. Qed.

Lemma computeCompleteness_same (rows rows' : list Row) :
  sameCells rows rows' -> firstKeys rows = firstKeys rows' ->
  computeCompleteness rows = computeCompleteness rows'.
Proof.
  intros S K. unfold computeCompleteness.
  destruct S as [|r r' rows rows' E S]; [reflexivity|].
  rewrite <- K.
  rewrite (completenessScan_same _ _ _ (sameCells_cons _ _ _ _ E S)).
  reflexivity.
Qed.

Lemma computeUniqueness_same (rows rows' : list Row) :
  sameCells rows rows' -> firstKeys rows = firstKeys rows' ->
  computeUniqueness rows = computeUniqueness rows'.
Proof.
  intros S K. unfold computeUniqueness.
  destruct S as [|r r' rows rows' E S]; [reflexivity|].
  rewrite <- K.
  rewrite (foldM_ext (uniquenessStep (r :: rows)) (uniquenessStep (r' :: rows'))).
  - reflexivity.
  - intros st col. unfold uniquenessStep.
    rewrite (columnValues_same _ _ col (sameCells_cons _ _ _ _ E S)).
    reflexivity.
Qed.

Lemma computeConsistency_same (rows rows' : list Row) :
  sameCells rows rows' -> firstKeys rows = firstKeys rows' ->
  computeConsistency rows = computeConsistency rows'.
Proof.
  intros S K. unfold computeConsistency.
  destruct S as [|r r' rows rows' E S]; [reflexivity|].
  rewrite <- K.
  rewrite (foldM_ext (consistencyStep (r :: rows)) (consistencyStep (r' :: rows'))).
  - reflexivity.
  - intros st col. unfold consistencyStep.
    rewrite (columnValues_same _ _ col (sameCells_cons _ _ _ _ E S)).
    reflexivity.
Qed.

Lemma computeValidity_same (rows rows' : list Row) :
  sameCells rows rows' -> firstKeys rows = firstKeys rows' ->
  computeValidity rows = computeValidity rows'.
Proof.
  intros S K. unfold computeValidity.
  destruct S as [|r r' rows rows' E S]; [reflexivity|].
  rewrite <- K. destruct (firstKeys (r :: rows)) as [|k ks]; [reflexivity|].
  pose proof (sameCells_cons _ _ _ _ E S) as S'.
  rewrite (filter_ext _ (fun row => negb (isEmpty (cell row k))) (fun row => present_cell row k) (r :: rows)).
  rewrite (filter_ext _ (fun row => negb (isEmpty (cell row k))) (fun row => present_cell row k) (r' :: rows')).
  rewrite (validRows_same _ _ k S'), (sameCells_length _ _ S').
  reflexivity.
Qed.

Lemma computeTimeliness_same `{Host} (rows rows' : list Row) :
  sameCells rows rows' -> firstKeys rows = firstKeys rows' ->
  computeTimeliness rows = computeTimeliness rows'.
Proof.
  intros S K. unfold computeTimeliness.
  destruct S as [|r r' rows rows' E S]; [reflexivity|].
  rewrite <- K. destruct (firstKeys (r :: rows)) as [|k ks]; [reflexivity|].
  destruct (find hasDateKeyword (k :: ks)) as [[|c name]|]; try reflexivity.
  rewrite (ageLoop_same _ _ _ _ (sameCells_cons _ _ _ _ E S)).
  reflexivity.
Qed.

Lemma computeAllScores_same `{Host} (rows rows' : list Row) :
  sameCells rows rows' -> firstKeys rows = firstKeys rows' ->
  computeAllScores rows = computeAllScores rows'.
Proof.
  intros S K. unfold computeAllScores.
  rewrite (computeCompleteness_same _ _ S K), (computeUniqueness_same _ _ S K),
    (computeConsistency_same _ _ S K), (computeValidity_same _ _ S K),
    (computeTimeliness_same _ _ S K).
  reflexivity.
Qed.

Import ScoringEngine.

Lemma isEmptyList_same (rows rows' : list Row) :
  sameCells rows rows' -> isEmptyList rows = isEmptyList rows'.
Proof. destruct 1; reflexivity. Qed.

Lemma computeScores_same `{Host} (rows rows' : list Row)
  (metadata : ScoringMetadata) :
  sameCells rows rows' ->
  computeScores rows metadata = computeScores rows' metadata.
Proof.
  intros S. unfold computeScores. cbv zeta.
  assert (C : calculateCompleteness rows (columns metadata) =
              calculateCompleteness rows' (columns metadata)).
  { unfold calculateCompleteness.
    rewrite (isEmptyList_same _ _ S), (completenessScan_same _ _ _ S).
    reflexivity. }
  assert (U : calculateUniqueness rows (columns metadata) =
              calculateUniqueness rows' (columns metadata)).
  { unfold calculateUniqueness. rewrite (isEmptyList_same _ _ S).
    rewrite (foldM_ext (uniquenessStep rows) (uniquenessStep rows'));
      [reflexivity|].
    intros st col. unfold uniquenessStep.
    rewrite (columnValues_same _ _ col S). reflexivity. }
  assert (K : calculateConsistency rows (columns metadata) =
              calculateConsistency rows' (columns metadata)).
  { unfold calculateConsistency. rewrite (isEmptyList_same _ _ S).
    rewrite (foldM_ext (consistencyStep rows) (consistencyStep rows'));
      [reflexivity|].
    intros st col. unfold consistencyStep.
    rewrite (columnValues_same _ _ col S). reflexivity. }
  assert (V : calculateValidity rows (columns metadata) =
              calculateValidity rows' (columns metadata)).
  { unfold calculateValidity.
    destruct S as [|r r' rows rows' E S]; [reflexivity|].
    destruct (columns metadata) as [|k ks]; [reflexivity|].
    pose proof (sameCells_cons _ _ _ _ E S) as S'.
    rewrite (validRows_same _ _ k S'), (sameCells_length _ _ S').
    reflexivity. }
  assert (T : forall name, calculateTimeliness rows name =
                           calculateTimeliness rows' name).
  { intros name. unfold calculateTimeliness.
    destruct S as [|r r' rows rows' E S]; [reflexivity|].
    rewrite (ageLoop_same _ _ _ _ (sameCells_cons _ _ _ _ E S)).
    reflexivity. }
  rewrite C, U, K, V.
  destruct (dateColumnOf metadata); [rewrite T|]; reflexivity.
Qed.

End SameCells.

(* ------------------------------------------------------------------ *)
Lemma mean_upper (xs : list Q) (hi : Q) :
  xs <> [] -> Forall (fun x => x <= hi) xs -> mean xs <= hi.
Proof.
  intros Hne HF. unfold mean.
  assert (S : sum xs <= hi * num (List.length xs)).
  { clear Hne. induction HF as [|x xs Hx _ IH].
    - unfold sum, num. simpl. change (inject_Z 0) with 0. lra.
    - rewrite sum_cons. cbn [List.length]. rewrite num_S.
      set (n := num (List.length xs)) in *.
      assert (E : hi * (n + 1) == hi * n + hi) by ring.
      rewrite E. lra. }
  destruct xs as [|x xs]; [congruence|].
  apply div_le_upper; [apply num_S_pos|exact S].
Qed.

Section Engine.
Context `{Host}.

Lemma computeAllScores_range (rows : list Row) :
  exists s, DataQuality.computeAllScores rows = Some s /\
    (0 <= DataQuality.completeness s <= 100)%Z /\
    (0 <= DataQuality.uniqueness s <= 100)%Z /\
    (0 <= DataQuality.consistency s <= 100)%Z /\
    (0 <= DataQuality.validity s <= 100)%Z /\
    (0 <= DataQuality.timeliness s <= 100)%Z.
Proof.
  destruct (DataQualityFacts.computeCompleteness_range rows) as [c [Ec Rc]].
  destruct (DataQualityRanges.computeUniqueness_range rows) as [u [Eu Ru]].
  destruct (DataQualityRanges.computeConsistency_range rows) as [k [Ek Rk]].
  destruct (DataQualityRanges.computeValidity_range rows) as [v [Ev Rv]].
  destruct (DataQualityRanges.computeTimeliness_range rows) as [t [Et Rt]].
  unfold DataQuality.computeAllScores. rewrite Ec, Eu, Ek, Ev, Et.
  cbn [bind]. eexists. split; [reflexivity|].
  cbn. repeat split; lia.
Qed.

Lemma computeScores_range (rows : list Row)
  (metadata : ScoringEngine.ScoringMetadata) :
  exists s, ScoringEngine.computeScores rows metadata = Some s /\
    (0 <= ScoringEngine.completeness s <= 100)%Z /\
    (0 <= ScoringEngine.uniqueness s <= 100)%Z /\
    (0 <= ScoringEngine.consistency s <= 100)%Z /\
    (0 <= ScoringEngine.validity s <= 100)%Z /\
    (forall t, ScoringEngine.timeliness s = Some t -> (0 <= t <= 100)%Z).
Proof.
  set (cols := ScoringEngine.columns metadata).
  destruct (ScoringEngineFacts.calculateCompleteness_range rows cols) as [c [Ec Rc]].
  destruct (ScoringEngineFacts.calculateUniqueness_range rows cols) as [u [Eu Ru]].
  destruct (ScoringEngineFacts.calculateConsistency_range rows cols) as [k [Ek Rk]].
  destruct (ScoringEngineFacts.calculateValidity_range rows cols) as [v [Ev Rv]].
  unfold ScoringEngine.computeScores. cbv zeta. fold cols.
  rewrite Ec, Eu, Ek, Ev. cbn [bind].
  destruct (ScoringEngine.dateColumnOf metadata) as [name|].
  - destruct (ScoringEngineFacts.calculateTimeliness_range rows name) as [t [Et Rt]].
    rewrite Et. cbn [bind]. eexists. split; [reflexivity|].
    cbn. do 4 (split; [lia|]). intros t' E. injection E as <-. lia.
  - eexists. split; [reflexivity|].
    cbn. do 4 (split; [lia|]). intros t' E. discriminate E.
Qed.

End Engine.

(* ------------------------------------------------------------------ *)
(** ** The composite engine *)


(* ------------------------------------------------------------------ *)
(** ** The dimension calculators *)

Section Totality.
Context `{Host}.

(** C4: on every row list, every score of [computeAllScores], of the
    standalone calculators (for any column list and date column) and of
    [computeScores] is an integer between 0 and 100. *)
Theorem scores_between_0_and_100 (rows : list Row) (columns : list jsstring)
  (dateColumn : jsstring) (metadata : ScoringEngine.ScoringMetadata) :
  (exists s, DataQuality.computeAllScores rows = Some s /\
     (0 <= DataQuality.completeness s <= 100)%Z /\
     (0 <= DataQuality.uniqueness s <= 100)%Z /\
     (0 <= DataQuality.consistency s <= 100)%Z /\
     (0 <= DataQuality.validity s <= 100)%Z /\
     (0 <= DataQuality.timeliness s <= 100)%Z) /\
  (exists z, DataQuality.computeCompleteness rows = Some z /\ (0 <= z <= 100)%Z) /\
  (exists z, DataQuality.computeUniqueness rows = Some z /\ (0 <= z <= 100)%Z) /\
  (exists z, DataQuality.computeConsistency rows = Some z /\ (0 <= z <= 100)%Z) /\
  (exists z, DataQuality.computeValidity rows = Some z /\ (0 <= z <= 100)%Z) /\
  (exists z, DataQuality.computeTimeliness rows = Some z /\ (0 <= z <= 100)%Z) /\
  (exists z, ScoringEngine.calculateCompleteness rows columns = Some z /\
             (0 <= z <= 100)%Z) /\
  (exists z, ScoringEngine.calculateUniqueness rows columns = Some z /\
             (0 <= z <= 100)%Z) /\
  (exists z, ScoringEngine.calculateConsistency rows columns = Some z /\
             (0 <= z <= 100)%Z) /\
  (exists z, ScoringEngine.calculateValidity rows columns = Some z /\
             (0 <= z <= 100)%Z) /\
  (exists z, ScoringEngine.calculateTimeliness rows dateColumn = Some z /\
             (0 <= z <= 100)%Z) /\
  (exists s, ScoringEngine.computeScores rows metadata = Some s /\
     (0 <= ScoringEngine.completeness s <= 100)%Z /\
     (0 <= ScoringEngine.uniqueness s <= 100)%Z /\
     (0 <= ScoringEngine.consistency s <= 100)%Z /\
     (0 <= ScoringEngine.validity s <= 100)%Z /\
     match ScoringEngine.timeliness s with
     | Some t => (0 <= t <= 100)%Z
     | None => True
     end).
Proof.
  split; [apply computeAllScores_range|].
  split; [apply DataQualityFacts.computeCompleteness_range|].
  split; [apply DataQualityRanges.computeUniqueness_range|].
  split; [apply DataQualityRanges.computeConsistency_range|].
  split; [apply DataQualityRanges.computeValidity_range|].
  split; [apply DataQualityRanges.computeTimeliness_range|].
  split; [apply ScoringEngineFacts.calculateCompleteness_range|].
  split; [apply ScoringEngineFacts.calculateUniqueness_range|].
  split; [apply ScoringEngineFacts.calculateConsistency_range|].
  split; [apply ScoringEngineFacts.calculateValidity_range|].
  split; [apply ScoringEngineFacts.calculateTimeliness_range|].
  destruct (computeScores_range rows metadata)
    as (s & Es & Rc & Ru & Rk & Rv & Rt).
  exists s. do 5 (split; [assumption|]).
  destruct (ScoringEngine.timeliness s) as [t|]; [apply Rt; reflexivity|exact I].
Qed.

End Totality.

Section Formulas.
Context `{Host}.



End Formulas.

(* ------------------------------------------------------------------ *)
(** ** The properties on example data *)

Module Examples.
Import ExampleHost.

(** C6, as stated, fails on 201 rows that hold the same single value: the
    dataset has rows and a column, the column's uniqueness is 100/201, less
    than one half, and the score is 0; so in double precision as in exact
    arithmetic. *)
Lemma uniqueness_zero_with_rows_and_columns :
  repeated <> [] /\ firstKeys repeated <> [] /\
  DataQuality.computeUniqueness repeated = Some 0%Z /\
  ScoringEngine.calculateUniqueness repeated (firstKeys repeated) = Some 0%Z /\
  @DataQuality64.computeUniqueness IEEE.double repeated = Some 0%Z /\
  @ScoringEngine64.calculateUniqueness IEEE.double repeated
    (firstKeys repeated) = Some 0%Z.
Proof.
  split; [vm_compute; discriminate|].
  split; [vm_compute; discriminate|].
  repeat split; vm_compute; reflexivity.
Qed.


End Examples.

(* ------------------------------------------------------------------ *)
(** ** Further properties: completeness and the agreement of the engines *)

Lemma list_sum_step (x : nat) (l : list nat) :
  list_sum (x :: l) = (x + list_sum l)%nat.
Proof. reflexivity. Qed.

Lemma completenessCell_count (row : Row) (columns : list jsstring) (t n : nat) :
  fold_left (completenessCell row) columns (t, n) =
  ((t + List.length columns)%nat,
   (n + List.length (filter (fun col => present (get row col)) columns))%nat).
Proof.
  revert t n. induction columns as [|col columns IH]; intros t n.
  - cbn. f_equal; lia.
  - cbn [fold_left completenessCell filter]. rewrite IH.
    destruct (present (get row col)); cbn [List.length]; f_equal; lia.
Qed.

Lemma completenessScan_count (rows : list Row) (columns : list jsstring) :
  completenessScan rows columns =
  ((List.length rows * List.length columns)%nat, presentCells rows columns).
Proof.
  unfold completenessScan, presentCells.
  assert (G : forall t n,
    fold_left (fun st row => fold_left (completenessCell row) columns st) rows (t, n) =
    ((t + List.length rows * List.length columns)%nat,
     (n + list_sum (map (fun row => List.length
           (filter (fun col => present (get row col)) columns)) rows))%nat)).
  { induction rows as [|row rows IH]; intros t n.
    - cbn. f_equal; lia.
    - cbn [fold_left]. rewrite completenessCell_count, IH.
      cbn [map List.length Nat.mul]. rewrite list_sum_step. f_equal; lia. }
  rewrite G. reflexivity.
Qed.

Lemma calculateCompleteness_formula (rows : list Row) (columns : list jsstring) :
  rows <> [] -> columns <> [] ->
  ScoringEngine.calculateCompleteness rows columns =
  Some (completenessOf rows columns).
Proof.
  intros Hr Hc. unfold ScoringEngine.calculateCompleteness, completenessOf.
  rewrite ScoringEngineFacts.guard_nonempty by assumption.
  rewrite completenessScan_count.
  destruct rows as [|row rows]; [congruence|].
  destruct columns as [|col columns]; [congruence|].
  cbn [List.length Nat.mul Nat.add].
  rewrite div_some by apply num_S_neq. reflexivity.
Qed.

Lemma presentCells_le (rows : list Row) (columns : list jsstring) :
  (presentCells rows columns <= List.length rows * List.length columns)%nat.
Proof.
  pose proof (completenessScan_le rows columns) as L.
  rewrite completenessScan_count in L. exact L.
Qed.

Lemma completenessOf_range (rows : list Row) (columns : list jsstring) :
  rows <> [] -> columns <> [] -> (0 <= completenessOf rows columns <= 100)%Z.
Proof.
  intros Hr Hc. unfold completenessOf.
  pose proof (presentCells_le rows columns) as L.
  destruct rows as [|row rows]; [congruence|].
  destruct columns as [|col columns]; [congruence|].
  cbn [List.length Nat.mul Nat.add] in *.
  apply round_range; apply percent_range; exact L.
Qed.

Lemma computeCompleteness_formula (rows : list Row) :
  rows <> [] -> firstKeys rows <> [] ->
  DataQuality.computeCompleteness rows =
  Some (completenessOf rows (firstKeys rows)).
Proof.
  intros Hr Hc. unfold DataQuality.computeCompleteness.
  pose proof (completenessOf_range rows (firstKeys rows) Hr Hc) as R.
  unfold completenessOf in *.
  rewrite completenessScan_count.
  destruct rows as [|row rows]; [congruence|].
  destruct (firstKeys (row :: rows)) as [|col columns]; [congruence|].
  cbn [List.length Nat.mul Nat.add] in *.
  rewrite div_some by apply num_S_neq. cbn [bind].
  rewrite clamp_id by exact R. reflexivity.
Qed.

Lemma percent_all (n : nat) : num (S n) / num (S n) * 100 == 100.
Proof. field. apply num_S_neq. Qed.

Lemma percent_none (n : nat) : num 0 / num (S n) * 100 == 0.
Proof.
  unfold num at 1. change (inject_Z (Z.of_nat 0)) with 0.
  field. apply num_S_neq.
Qed.

Lemma filter_all {A : Type} (p : A -> bool) (l : list A) :
  (forall x, In x l -> p x = true) -> filter p l = l.
Proof.
  induction l as [|x l IH]; intros H; cbn [filter]; [reflexivity|].
  rewrite (H x (or_introl eq_refl)). f_equal. apply IH.
  intros y Hy. apply H. right. exact Hy.
Qed.

Lemma filter_none {A : Type} (p : A -> bool) (l : list A) :
  (forall x, In x l -> p x = false) -> filter p l = [].
Proof.
  induction l as [|x l IH]; intros H; cbn [filter]; [reflexivity|].
  rewrite (H x (or_introl eq_refl)). apply IH.
  intros y Hy. apply H. right. exact Hy.
Qed.

Lemma presentCells_all (rows : list Row) (columns : list jsstring) :
  (forall row col, In row rows -> In col columns ->
                   present (get row col) = true) ->
  presentCells rows columns = (List.length rows * List.length columns)%nat.
Proof.
  unfold presentCells. induction rows as [|row rows IH]; intros H.
  - reflexivity.
  - cbn [map List.length Nat.mul]. rewrite list_sum_step.
    rewrite filter_all by (intros col Hc; apply H; [left; reflexivity|exact Hc]).
    rewrite IH; [reflexivity|].
    intros r c Hr Hc. apply H; [right; exact Hr|exact Hc].
Qed.

Lemma presentCells_none (rows : list Row) (columns : list jsstring) :
  (forall row col, In row rows -> In col columns ->
                   present (get row col) = false) ->
  presentCells rows columns = 0%nat.
Proof.
  unfold presentCells. induction rows as [|row rows IH]; intros H.
  - reflexivity.
  - cbn [map List.length]. rewrite list_sum_step.
    rewrite filter_none by (intros col Hc; apply H; [left; reflexivity|exact Hc]).
    rewrite IH; [reflexivity|].
    intros r c Hr Hc. apply H; [right; exact Hr|exact Hc].
Qed.

(** X2: when every cell of the rows under the columns holds a value that is
    not empty after trimming, completeness is 100; when none does, it
    is 0. *)
Theorem completeness_full_and_empty (rows : list Row) (columns : list jsstring) :
  rows <> [] -> columns <> [] ->
  ((forall row col, In row rows -> In col columns ->
                    present (get row col) = true) ->
   ScoringEngine.calculateCompleteness rows columns = Some 100%Z /\
   (columns = firstKeys rows ->
    DataQuality.computeCompleteness rows = Some 100%Z)) /\
  ((forall row col, In row rows -> In col columns ->
                    present (get row col) = false) ->
   ScoringEngine.calculateCompleteness rows columns = Some 0%Z /\
   (columns = firstKeys rows ->
    DataQuality.computeCompleteness rows = Some 0%Z)).
Proof.
  intros Hr Hc.
  assert (S : exists n, (List.length rows * List.length columns = S n)%nat).
  { destruct rows as [|row rows]; [congruence|].
    destruct columns as [|col columns]; [congruence|].
    cbn. eexists. reflexivity. }
  destruct S as [n En].
  split; intros H.
  - assert (E : completenessOf rows columns = 100%Z).
    { unfold completenessOf. rewrite presentCells_all by exact H. rewrite En.
      rewrite (round_comp _ 100) by apply percent_all. reflexivity. }
    split.
    + rewrite calculateCompleteness_formula by assumption. rewrite E. reflexivity.
    + intros ->. rewrite computeCompleteness_formula by assumption.
      rewrite E. reflexivity.
  - assert (E : completenessOf rows columns = 0%Z).
    { unfold completenessOf. rewrite presentCells_none by exact H. rewrite En.
      rewrite (round_comp _ 0) by apply percent_none. reflexivity. }
    split.
    + rewrite calculateCompleteness_formula by assumption. rewrite E. reflexivity.
    + intros ->. rewrite computeCompleteness_formula by assumption.
      rewrite E. reflexivity.
Qed.

(** X3: on every row list the two engines agree on completeness,
    uniqueness, consistency and validity, the TypeScript calculators being
    given the keys of the first row as columns; so [computeScores] under
    [prepareMetadata] returns the same four scores as [computeAllScores]. *)
Theorem engines_agree_on_four_dimensions `{Host} (rows : list Row) :
  DataQuality.computeCompleteness rows =
    ScoringEngine.calculateCompleteness rows (firstKeys rows) /\
  DataQuality.computeUniqueness rows =
    ScoringEngine.calculateUniqueness rows (firstKeys rows) /\
  DataQuality.computeConsistency rows =
    ScoringEngine.calculateConsistency rows (firstKeys rows) /\
  DataQuality.computeValidity rows =
    ScoringEngine.calculateValidity rows (firstKeys rows) /\
  ScoringEngine.columns (ScoringEngine.prepareMetadata rows) = firstKeys rows /\
  exists a s,
    DataQuality.computeAllScores rows = Some a /\
    ScoringEngine.computeScores rows (ScoringEngine.prepareMetadata rows) = Some s /\
    ScoringEngine.completeness s = DataQuality.completeness a /\
    ScoringEngine.uniqueness s = DataQuality.uniqueness a /\
    ScoringEngine.consistency s = DataQuality.consistency a /\
    ScoringEngine.validity s = DataQuality.validity a.
Proof.
  assert (C : DataQuality.computeCompleteness rows =
              ScoringEngine.calculateCompleteness rows (firstKeys rows)).
  { destruct rows as [|row rows]; [reflexivity|].
    destruct (firstKeys (row :: rows)) as [|k ks] eqn:K.
    - unfold DataQuality.computeCompleteness. rewrite K. reflexivity.
    - rewrite <- K.
      rewrite computeCompleteness_formula, calculateCompleteness_formula;
        try discriminate; try (rewrite K; discriminate). reflexivity. }
  assert (U : DataQuality.computeUniqueness rows =
              ScoringEngine.calculateUniqueness rows (firstKeys rows)).
  { destruct rows as [|row rows]; [reflexivity|].
    destruct (firstKeys (row :: rows)) as [|k ks] eqn:K.
    - unfold DataQuality.computeUniqueness. rewrite K. reflexivity.
    - rewrite <- K.
      rewrite DataQualityFacts.computeUniqueness_formula,
        ScoringEngineFacts.calculateUniqueness_formula;
        try discriminate; try (rewrite K; discriminate). reflexivity. }
  assert (Kc : DataQuality.computeConsistency rows =
               ScoringEngine.calculateConsistency rows (firstKeys rows)).
  { destruct rows as [|row rows]; [reflexivity|].
    destruct (firstKeys (row :: rows)) as [|k ks] eqn:K.
    - unfold DataQuality.computeConsistency. rewrite K. reflexivity.
    - rewrite <- K.
      rewrite DataQualityFacts.computeConsistency_formula,
        ScoringEngineFacts.calculateConsistency_formula;
        try discriminate; try (rewrite K; discriminate). reflexivity. }
  assert (V : DataQuality.computeValidity rows =
              ScoringEngine.calculateValidity rows (firstKeys rows)).
  { destruct rows as [|row rows]; [reflexivity|].
    destruct (firstKeys (row :: rows)) as [|k ks] eqn:K.
    - unfold DataQuality.computeValidity. rewrite K. reflexivity.
    - rewrite (DataQualityRanges.computeValidity_formula _ _ _ _ K).
      rewrite ScoringEngineFacts.calculateValidity_formula. reflexivity. }
  assert (M : ScoringEngine.columns (ScoringEngine.prepareMetadata rows) =
              firstKeys rows).
  { destruct rows; reflexivity. }
  do 5 (split; [assumption|]).
  destruct (computeAllScores_range rows) as [a [Ea _]].
  destruct (computeScores_range rows (ScoringEngine.prepareMetadata rows))
    as [s [Es _]].
  exists a, s. split; [exact Ea|]. split; [exact Es|].
  unfold DataQuality.computeAllScores in Ea.
  unfold ScoringEngine.computeScores in Es. cbv zeta in Es.
  rewrite M, <- C, <- U, <- Kc, <- V in Es.
  destruct (DataQuality.computeCompleteness rows) as [c|]; [|discriminate Ea].
  destruct (DataQuality.computeUniqueness rows) as [u|]; [|discriminate Ea].
  destruct (DataQuality.computeConsistency rows) as [k|]; [|discriminate Ea].
  destruct (DataQuality.computeValidity rows) as [v|]; [|discriminate Ea].
  cbn [bind] in Ea, Es.
  destruct (DataQuality.computeTimeliness rows) as [t|]; [|discriminate Ea].
  cbn [bind] in Ea. injection Ea as <-.
  destruct (ScoringEngine.dateColumnOf (ScoringEngine.prepareMetadata rows))
    as [name|].
  - destruct (ScoringEngine.calculateTimeliness rows name); [|discriminate Es].
    cbn [bind] in Es. injection Es as <-. repeat split; reflexivity.
  - injection Es as <-. repeat split; reflexivity.
Qed.

(* ------------------------------------------------------------------ *)
(** ** Further properties: extreme scores *)

Lemma columnMean_between (g : list jsstring -> Q) (rows : list Row)
  (columns : list jsstring) (lo hi : Q) :
  columns <> [] ->
  (forall col, In col columns ->
     lo <= g (columnValues rows col) /\ g (columnValues rows col) <= hi) ->
  lo <= mean (map (fun col => g (columnValues rows col)) columns) /\
  mean (map (fun col => g (columnValues rows col)) columns) <= hi.
Proof.
  intros Hne Hg. apply mean_bounds.
  - destruct columns; [congruence|discriminate].
  - apply Forall_forall. intros x Hx. apply in_map_iff in Hx.
    destruct Hx as [col [<- Hin]]. apply Hg, Hin.
Qed.

Lemma columnMean_constant (g : list jsstring -> Q) (rows : list Row)
  (columns : list jsstring) (z : Z) :
  columns <> [] ->
  (forall col, In col columns -> g (columnValues rows col) == inject_Z z) ->
  columnMean g rows columns = z.
Proof.
  intros Hne Hg. unfold columnMean.
  destruct (columnMean_between g rows columns (inject_Z z) (inject_Z z) Hne)
    as [L U].
  { intros col Hin. rewrite (Hg col Hin). split; apply Qle_refl. }
  apply round_between; lra.
Qed.

Lemma uniquenessOf_distinct (values : list jsstring) :
  NoDup values -> uniquenessOf values == 100.
Proof.
  intros ND. unfold uniquenessOf, setSize.
  destruct values as [|v values]; [reflexivity|].
  rewrite (nodup_fixed_point (list_eq_dec N.eq_dec) ND).
  cbn [List.length]. apply percent_all.
Qed.

(** X4: when no column holds the same trimmed non-empty value twice,
    uniqueness is 100, in both engines. *)
Theorem uniqueness_100_when_values_distinct (rows : list Row)
  (columns : list jsstring) :
  rows <> [] -> columns <> [] ->
  (forall col, In col columns -> NoDup (columnValues rows col)) ->
  ScoringEngine.calculateUniqueness rows columns = Some 100%Z /\
  (columns = firstKeys rows ->
   DataQuality.computeUniqueness rows = Some 100%Z).
Proof.
  intros Hr Hc ND.
  assert (E : columnMean uniquenessOf rows columns = 100%Z).
  { apply columnMean_constant; [exact Hc|].
    intros col Hin. apply uniquenessOf_distinct, ND, Hin. }
  split.
  - rewrite ScoringEngineFacts.calculateUniqueness_formula by assumption.
    rewrite E. reflexivity.
  - intros ->. destruct rows as [|row rows]; [congruence|].
    rewrite DataQualityFacts.computeUniqueness_formula by exact Hc.
    rewrite E. reflexivity.
Qed.

Lemma columnValues_constant (rows : list Row) (col v : jsstring) :
  v <> [] -> (forall row, In row rows -> cell row col = v) ->
  columnValues rows col = repeat v (List.length rows).
Proof.
  intros Hv H. unfold columnValues.
  induction rows as [|row rows IH]; [reflexivity|].
  cbn [map filter List.length repeat].
  rewrite (H row (or_introl eq_refl)).
  destruct v as [|c v]; [congruence|]. cbn [isEmpty negb].
  f_equal. apply IH. intros r Hr. apply H. right. exact Hr.
Qed.

Lemma setSize_repeat (v : jsstring) (n : nat) : setSize (repeat v (S n)) = 1%nat.
Proof.
  unfold setSize. induction n as [|n IH]; [reflexivity|].
  change (repeat v (S (S n))) with (v :: repeat v (S n)).
  cbn [nodup].
  destruct (in_dec (list_eq_dec N.eq_dec) v (repeat v (S n))) as [_|Hn].
  - exact IH.
  - exfalso. apply Hn. left. reflexivity.
Qed.

(** X5: a dataset with a single column in which all N rows hold the same
    non-empty trimmed value has uniqueness round(100 / N). *)
Theorem uniqueness_of_one_repeated_value (rows : list Row) (col v : jsstring) :
  rows <> [] -> v <> [] ->
  (forall row, In row rows -> cell row col = v) ->
  ScoringEngine.calculateUniqueness rows [col] =
    Some (round (100 / num (List.length rows))) /\
  (firstKeys rows = [col] ->
   DataQuality.computeUniqueness rows =
     Some (round (100 / num (List.length rows)))).
Proof.
  intros Hr Hv H.
  assert (E : columnMean uniquenessOf rows [col] =
              round (100 / num (List.length rows))).
  { unfold columnMean, mean, sum. cbn [map fold_left List.length].
    rewrite (columnValues_constant rows col v Hv H).
    destruct rows as [|row rows]; [congruence|].
    cbn [List.length]. unfold uniquenessOf.
    change (repeat v (S (List.length rows)))
      with (v :: repeat v (List.length rows)) at 1.
    cbv iota. rewrite setSize_repeat, repeat_length.
    apply round_comp. unfold num at 1 3.
    change (inject_Z (Z.of_nat 1)) with 1. field. apply num_S_neq. }
  split.
  - rewrite ScoringEngineFacts.calculateUniqueness_formula;
      [|exact Hr|discriminate].
    rewrite E. reflexivity.
  - intros K. destruct rows as [|row rows]; [congruence|].
    rewrite DataQualityFacts.computeUniqueness_formula
      by (rewrite K; discriminate).
    rewrite K, E. reflexivity.
Qed.

(** X6: validity is 100 when the first column holds a non-empty trimmed
    value in every row, and 0 when it holds one in no row. *)
Theorem validity_full_and_empty (rows : list Row) (keyColumn : jsstring)
  (others : list jsstring) :
  rows <> [] ->
  ((forall row, In row rows -> isEmpty (cell row keyColumn) = false) ->
   ScoringEngine.calculateValidity rows (keyColumn :: others) = Some 100%Z /\
   (firstKeys rows = keyColumn :: others ->
    DataQuality.computeValidity rows = Some 100%Z)) /\
  ((forall row, In row rows -> isEmpty (cell row keyColumn) = true) ->
   ScoringEngine.calculateValidity rows (keyColumn :: others) = Some 0%Z /\
   (firstKeys rows = keyColumn :: others ->
    DataQuality.computeValidity rows = Some 0%Z)).
Proof.
  intros Hr. destruct rows as [|row rows]; [congruence|].
  split; intros H.
  - assert (E : validityOf (row :: rows) keyColumn = 100%Z).
    { unfold validityOf. cbv zeta. rewrite filter_all.
      - cbn [List.length]. rewrite (round_comp _ 100) by apply percent_all.
        reflexivity.
      - intros r Hin. rewrite (H r Hin). reflexivity. }
    split.
    + rewrite ScoringEngineFacts.calculateValidity_formula, E. reflexivity.
    + intros K. rewrite (DataQualityRanges.computeValidity_formula _ _ _ _ K), E.
      reflexivity.
  - assert (E : validityOf (row :: rows) keyColumn = 0%Z).
    { unfold validityOf. cbv zeta. rewrite filter_none.
      - cbn [List.length]. rewrite (round_comp _ 0) by apply percent_none.
        reflexivity.
      - intros r Hin. rewrite (H r Hin). reflexivity. }
    split.
    + rewrite ScoringEngineFacts.calculateValidity_formula, E. reflexivity.
    + intros K. rewrite (DataQualityRanges.computeValidity_formula _ _ _ _ K), E.
      reflexivity.
Qed.

Lemma consistencyOf_equal_lengths (values : list jsstring) (len : nat) :
  (forall v, In v values -> List.length v = len) ->
  consistencyOf values == 100.
Proof.
  intros H. unfold consistencyOf.
  destruct values as [|v [|v' values]]; try reflexivity.
  set (vs := v :: v' :: values) in *.
  set (lengths := map (fun x => num (List.length x)) vs).
  assert (Hne : lengths <> []) by discriminate.
  assert (HL : Forall (fun x => num len <= x /\ x <= num len) lengths).
  { apply Forall_forall. intros x Hx. apply in_map_iff in Hx.
    destruct Hx as [w [<- Hw]]. rewrite (H w Hw). split; apply Qle_refl. }
  destruct (mean_bounds lengths (num len) (num len) Hne HL) as [ML MU].
  assert (MD : meanDeviation lengths <= 0).
  { unfold meanDeviation. apply mean_upper.
    - discriminate.
    - apply Forall_forall. intros x Hx. apply in_map_iff in Hx.
      destruct Hx as [l [<- Hl]].
      rewrite Forall_forall in HL. destruct (HL l Hl) as [A B].
      apply Qabs_Qle_condition. split; lra. }
  pose proof (meanDeviation_nonneg lengths) as MN.
  pose proof (Qmax_one_pos (mean lengths)) as P.
  assert (R0 : 0 <= meanDeviation lengths / Qmax (mean lengths) 1)
    by (apply div_le_lower; lra).
  assert (R1 : meanDeviation lengths / Qmax (mean lengths) 1 <= 0)
    by (apply div_le_upper; lra).
  apply Qle_antisym.
  - apply Q.max_lub; lra.
  - eapply Qle_trans; [|apply Q.le_max_r]. lra.
Qed.

(** X7: when, in every column, the trimmed non-empty values all have the
    same length, consistency is 100, in both engines. *)
Theorem consistency_100_when_lengths_equal (rows : list Row)
  (columns : list jsstring) :
  rows <> [] -> columns <> [] ->
  (forall col, In col columns ->
     exists len, forall v, In v (columnValues rows col) -> List.length v = len) ->
  ScoringEngine.calculateConsistency rows columns = Some 100%Z /\
  (columns = firstKeys rows ->
   DataQuality.computeConsistency rows = Some 100%Z).
Proof.
  intros Hr Hc HL.
  assert (E : columnMean consistencyOf rows columns = 100%Z).
  { apply columnMean_constant; [exact Hc|].
    intros col Hin. destruct (HL col Hin) as [len Hlen].
    apply (consistencyOf_equal_lengths _ len Hlen). }
  split.
  - rewrite ScoringEngineFacts.calculateConsistency_formula by assumption.
    rewrite E. reflexivity.
  - intros ->. destruct rows as [|row rows]; [congruence|].
    rewrite DataQualityFacts.computeConsistency_formula by exact Hc.
    rewrite E. reflexivity.
Qed.

(* ------------------------------------------------------------------ *)
(** ** Further properties: the date column and timeliness *)

Lemma find_first {A : Type} (p : A -> bool) (l : list A) (x : A) :
  find p l = Some x ->
  exists before after,
    l = before ++ x :: after /\ p x = true /\
    forall y, In y before -> p y = false.
Proof.
  induction l as [|a l IH]; intros F; [discriminate F|].
  cbn [find] in F. destruct (p a) eqn:Pa.
  - injection F as <-. exists [], l. split; [reflexivity|].
    split; [exact Pa|]. intros y [].
  - destruct (IH F) as (before & after & -> & Px & Hb).
    exists (a :: before), after. split; [reflexivity|].
    split; [exact Px|]. intros y [<-|Hy]; [exact Pa|apply Hb, Hy].
Qed.

Lemma firstn_subset {A : Type} (n : nat) (l : list A) (x : A) :
  In x (firstn n l) -> In x l.
Proof.
  revert l. induction n as [|n IH]; intros l Hin; [contradiction|].
  destruct l as [|a l]; [contradiction|].
  cbn [firstn] in Hin. destruct Hin as [<-|Hin]; [left; reflexivity|].
  right. apply IH, Hin.
Qed.

Lemma more_than_half (n m : nat) :
  ltb (num n * 0.5) (num m) = true <-> (n < 2 * m)%nat.
Proof.
  rewrite ltb_true.
  assert (D : num (2 * m) == 2 * num m).
  { unfold num. rewrite Nat2Z.inj_mul, inject_Z_mult. reflexivity. }
  split.
  - intros L. destruct (Nat.lt_ge_cases n (2 * m)) as [Hlt|Hge]; [exact Hlt|].
    pose proof (num_le _ _ Hge) as G. lra.
  - intros L. assert (G : num (S n) <= num (2 * m)) by (apply num_le; lia).
    rewrite num_S in G. lra.
Qed.

Section DateColumn.
Context `{Host}.

Lemma detectLoop_find (rows : list Row) (columns : list jsstring) :
  ScoringEngine.detectLoop rows columns = find (qualifies rows) columns.
Proof.
  induction columns as [|col columns IH]; [reflexivity|].
  cbn [ScoringEngine.detectLoop find]. unfold qualifies at 1, sampleValues.
  destruct (hasDateKeyword col); cbn [andb]; [|exact IH].
  destruct (ltb _ _); [reflexivity|exact IH].
Qed.

Lemma dateLike_parsed (rows : list Row) (col : jsstring) (row : Row) :
  In row rows -> ScoringEngine.dateLike (cell row col) = true ->
  parsedDates rows col <> [].
Proof.
  intros Hin D. unfold parsedDates.
  induction rows as [|r rows IH]; [contradiction|].
  cbn [flat_map]. destruct Hin as [->|Hin].
  - unfold ScoringEngine.dateLike in D.
    destruct (isEmpty (cell row col)); [discriminate D|].
    destruct (parseDate (cell row col)); [discriminate|discriminate D].
  - intros E. apply app_eq_nil in E. destruct E as [_ E].
    exact (IH Hin E).
Qed.

Lemma qualifies_parsed (rows : list Row) (col : jsstring) :
  qualifies rows col = true -> parsedDates rows col <> [].
Proof.
  intros Q. unfold qualifies in Q. apply andb_true_iff in Q.
  destruct Q as [_ Q]. apply more_than_half in Q.
  destruct (filter ScoringEngine.dateLike (sampleValues rows col))
    as [|v vs] eqn:F; [cbn in Q; lia|].
  assert (Hv : In v (filter ScoringEngine.dateLike (sampleValues rows col)))
    by (rewrite F; left; reflexivity).
  apply filter_In in Hv. destruct Hv as [Hin D].
  unfold sampleValues in Hin. apply in_map_iff in Hin.
  destruct Hin as [row [<- Hrow]].
  apply (dateLike_parsed rows col row); [|exact D].
  apply (firstn_subset _ _ _ Hrow).
Qed.

(** X8: a column reported by [detectDateColumn] is one of the given columns,
    has a date keyword in its lower-cased name, and more than half of the
    cells sampled from the first ten rows parse as dates; every column before
    it fails that test; the row list is then not empty. *)
Theorem detected_date_column_is_first_qualifying (rows : list Row)
  (columns : list jsstring) (col : jsstring) :
  ScoringEngine.detectDateColumn rows columns = Some col ->
  rows <> [] /\
  hasDateKeyword col = true /\
  (List.length (sampleValues rows col) <
   2 * List.length (filter ScoringEngine.dateLike (sampleValues rows col)))%nat /\
  (List.length (sampleValues rows col) <= 10)%nat /\
  exists before after,
    columns = before ++ col :: after /\
    forall c, In c before -> qualifies rows c = false.
Proof.
  intros D. unfold ScoringEngine.detectDateColumn in D.
  destruct rows as [|row rows]; [discriminate D|].
  rewrite detectLoop_find in D.
  destruct (find_first _ _ _ D) as (before & after & E & Q & Hb).
  split; [discriminate|].
  unfold qualifies in Q. apply andb_true_iff in Q. destruct Q as [K M].
  split; [exact K|]. split; [apply more_than_half, M|].
  split.
  - unfold sampleValues. rewrite length_map, length_firstn. lia.
  - exists before, after. split; assumption.
Qed.

Lemma no_keyword_no_date_column (rows : list Row) (columns : list jsstring) :
  (forall c, In c columns -> hasDateKeyword c = false) ->
  ScoringEngine.detectDateColumn rows columns = None.
Proof.
  intros Hno. unfold ScoringEngine.detectDateColumn.
  destruct rows as [|row rows]; [reflexivity|].
  rewrite detectLoop_find.
  destruct (find (qualifies (row :: rows)) columns) as [c|] eqn:F;
    [|reflexivity].
  apply find_some in F. destruct F as [Hin Q].
  unfold qualifies in Q. rewrite (Hno c Hin) in Q. discriminate Q.
Qed.

(** X9: [detectDateColumn] reports nothing on the empty row list, and
    nothing when no column name holds a date keyword, whatever the cells
    hold; [prepareMetadata] then reports no date column and [computeScores]
    returns no timeliness. *)
Theorem no_date_keyword_no_timeliness (rows : list Row) :
  (forall c, In c (firstKeys rows) -> hasDateKeyword c = false) ->
  ScoringEngine.detectDateColumn rows (firstKeys rows) = None /\
  ScoringEngine.hasDateColumn (ScoringEngine.prepareMetadata rows) = false /\
  exists s,
    ScoringEngine.computeScores rows (ScoringEngine.prepareMetadata rows) = Some s /\
    ScoringEngine.timeliness s = None.
Proof.
  intros Hno.
  pose proof (no_keyword_no_date_column rows (firstKeys rows) Hno) as D.
  assert (M : ScoringEngine.hasDateColumn (ScoringEngine.prepareMetadata rows) = false).
  { destruct rows as [|row rows]; [reflexivity|].
    unfold ScoringEngine.prepareMetadata. cbn [ScoringEngine.hasDateColumn].
    change (keys row) with (firstKeys (row :: rows)). rewrite D. reflexivity. }
  split; [exact D|]. split; [exact M|].
  destruct (computeScores_range rows (ScoringEngine.prepareMetadata rows))
    as [s [Es _]].
  exists s. split; [exact Es|].
  unfold ScoringEngine.computeScores in Es. cbv zeta in Es.
  unfold ScoringEngine.dateColumnOf in Es. rewrite M in Es.
  destruct (ScoringEngine.calculateCompleteness _ _); [|discriminate Es].
  destruct (ScoringEngine.calculateUniqueness _ _); [|discriminate Es].
  destruct (ScoringEngine.calculateConsistency _ _); [|discriminate Es].
  destruct (ScoringEngine.calculateValidity _ _); [|discriminate Es].
  cbn [bind] in Es. injection Es as <-. reflexivity.
Qed.

End DateColumn.

Lemma ageScore_antitone (a b : Q) : a <= b -> (ageScore b <= ageScore a)%Z.
Proof.
  intros L. unfold ageScore.
  destruct (ltb a 1) eqn:A1; [apply ltb_true in A1|apply ltb_false in A1];
  destruct (ltb a 6) eqn:A2; [apply ltb_true in A2|apply ltb_false in A2| |];
  try (apply ltb_true in A2); try (apply ltb_false in A2);
  destruct (ltb a 24) eqn:A3;
  try (apply ltb_true in A3); try (apply ltb_false in A3);
  destruct (ltb a 72) eqn:A4;
  try (apply ltb_true in A4); try (apply ltb_false in A4);
  destruct (ltb a 168) eqn:A5;
  try (apply ltb_true in A5); try (apply ltb_false in A5);
  try (exfalso; lra);
  destruct (ltb b 1) eqn:B1;
  try (apply ltb_true in B1); try (apply ltb_false in B1);
  destruct (ltb b 6) eqn:B2;
  try (apply ltb_true in B2); try (apply ltb_false in B2);
  destruct (ltb b 24) eqn:B3;
  try (apply ltb_true in B3); try (apply ltb_false in B3);
  destruct (ltb b 72) eqn:B4;
  try (apply ltb_true in B4); try (apply ltb_false in B4);
  destruct (ltb b 168) eqn:B5;
  try (apply ltb_true in B5); try (apply ltb_false in B5);
  try lia; exfalso; lra.
Qed.

Lemma sum_map_le {A : Type} (f g : A -> Q) (l : list A) :
  (forall x, In x l -> f x <= g x) -> sum (map f l) <= sum (map g l).
Proof.
  induction l as [|a l IH]; intros H.
  - apply Qle_refl.
  - cbn [map]. rewrite !sum_cons.
    assert (A1 : f a <= g a) by (apply H; left; reflexivity).
    assert (A2 : sum (map f l) <= sum (map g l))
      by (apply IH; intros x Hx; apply H; right; exact Hx).
    lra.
Qed.

Lemma mean_map_le {A : Type} (f g : A -> Q) (l : list A) :
  (forall x, In x l -> f x <= g x) -> mean (map f l) <= mean (map g l).
Proof.
  intros H. unfold mean. rewrite !length_map.
  pose proof (sum_map_le f g l H) as Hsum.
  destruct l as [|a l].
  - apply Qle_refl.
  - cbn [List.length]. pose proof (num_S_pos (List.length l)) as P.
    apply Qle_shift_div_l; [exact P|].
    assert (E : sum (map f (a :: l)) / num (S (List.length l)) *
                num (S (List.length l)) == sum (map f (a :: l))).
    { field. apply num_S_neq. }
    rewrite E. exact Hsum.
Qed.

(** X11: scoring the same rows at a later time never raises timeliness:
    for two clocks [now1 <= now2] and the same date parser, the score under
    [now2] is at most the score under [now1], in both engines. *)
Theorem timeliness_never_rises_as_time_passes
  (lower : jsstring -> jsstring) (parse : jsstring -> option Z)
  (now1 now2 : Z) (rows : list Row) (dateColumn : jsstring) :
  (now1 <= now2)%Z ->
  let earlier := {| toLowerCase := lower; parseDate := parse; now := now1 |} in
  let later := {| toLowerCase := lower; parseDate := parse; now := now2 |} in
  (exists s1 s2,
     @ScoringEngine.calculateTimeliness earlier rows dateColumn = Some s1 /\
     @ScoringEngine.calculateTimeliness later rows dateColumn = Some s2 /\
     (s2 <= s1)%Z) /\
  (exists s1 s2,
     @DataQuality.computeTimeliness earlier rows = Some s1 /\
     @DataQuality.computeTimeliness later rows = Some s2 /\
     (s2 <= s1)%Z).
Proof.
  intros L earlier later.
  assert (O : forall col,
    (@ageOutcome later rows col <= @ageOutcome earlier rows col)%Z).
  { intros col. unfold ageOutcome.
    change (@parsedDates later rows col) with (@parsedDates earlier rows col).
    destruct (@parsedDates earlier rows col) as [|t ts] eqn:P; [lia|].
    apply ageScore_antitone. unfold ages.
    change (@parsedDates later rows col) with (@parsedDates earlier rows col).
    apply mean_map_le. intros time _. unfold ageHours.
    cbn [now earlier later].
    apply Qle_shift_div_l; [reflexivity|].
    assert (E : inject_Z (now1 - time) / (1000 * 60 * 60) * (1000 * 60 * 60)
                == inject_Z (now1 - time)) by (field; discriminate).
    rewrite E. rewrite <- Zle_Qle. lia. }
  split.
  - destruct rows as [|row rows].
    + exists 0%Z, 0%Z. repeat split; lia.
    + exists (@ageOutcome earlier (row :: rows) dateColumn),
             (@ageOutcome later (row :: rows) dateColumn).
      split; [apply ScoringEngineFacts.calculateTimeliness_formula|].
      split; [apply ScoringEngineFacts.calculateTimeliness_formula|apply O].
  - destruct rows as [|row rows].
    + exists 50%Z, 50%Z. repeat split; lia.
    + change (@DataQuality.computeTimeliness later (row :: rows)) with
        (match firstKeys (row :: rows) with
         | [] => Some 50%Z
         | _ :: _ =>
             match find (@hasDateKeyword earlier) (firstKeys (row :: rows)) with
             | None => Some 50%Z
             | Some [] => Some 50%Z
             | Some dateColumn =>
                 st <- foldM (@ageStep later dateColumn) (row :: rows) (0%nat, 0) ;;
                 ageResult st
             end
         end).
      unfold DataQuality.computeTimeliness.
      destruct (firstKeys (row :: rows)) as [|k ks];
        [exists 50%Z, 50%Z; repeat split; lia|].
      destruct (find (@hasDateKeyword earlier) (k :: ks)) as [[|c name]|];
        try (exists 50%Z, 50%Z; repeat split; lia).
      rewrite (@age_result earlier), (@age_result later).
      eexists. eexists. split; [reflexivity|]. split; [reflexivity|apply O].
Qed.

(* ------------------------------------------------------------------ *)
(** ** Further properties: the composite score under any weights *)

Module CompositeMore.
Import DataQuality CompositeFacts.


End CompositeMore.

Lemma round_monotone (x y : Q) : x <= y -> (round x <= round y)%Z.
Proof.
  intros L. unfold round. apply Qfloor_resp_le. lra.
Qed.


Lemma round_inject (z : Z) : round (inject_Z z) = z.
Proof. apply round_between; lra. Qed.






Module Validation.
Import DataQuality CompositeFacts.




End Validation.


(** X17: [calculateDQS] lies between the lowest and the highest of the
    scores that are present; in particular equal scores give that score. *)
Theorem calculateDQS_between_extremes (s : ScoringEngine.DimensionScores)
  (lo hi : Z) :
  (lo <= ScoringEngine.completeness s <= hi)%Z ->
  (lo <= ScoringEngine.uniqueness s <= hi)%Z ->
  (lo <= ScoringEngine.consistency s <= hi)%Z ->
  (lo <= ScoringEngine.validity s <= hi)%Z ->
  (forall t, ScoringEngine.timeliness s = Some t -> (lo <= t <= hi)%Z) ->
  exists z, ScoringEngine.calculateDQS s = Some z /\ (lo <= z <= hi)%Z.
Proof.
  intros Rc Ru Rk Rv Rt. rewrite calculateDQS_mean.
  eexists. split; [reflexivity|].
  assert (Hne : ScoringEngine.definedScores s <> []).
  { unfold ScoringEngine.definedScores.
    destruct (ScoringEngine.timeliness s); discriminate. }
  assert (HF : Forall (fun x => inject_Z lo <= x /\ x <= inject_Z hi)
                      (ScoringEngine.definedScores s)).
  { unfold ScoringEngine.definedScores.
    apply Forall_forall. intros x Hx. apply in_map_iff in Hx.
    destruct Hx as [z [<- Hz]]. rewrite <- !Zle_Qle.
    apply in_app_or in Hz. destruct Hz as [Hz|Hz].
    - cbn [In] in Hz. destruct Hz as [<-|[<-|[<-|[<-|[]]]]]; assumption.
    - destruct (ScoringEngine.timeliness s) as [t|]; [|contradiction].
      destruct Hz as [<-|[]]. apply Rt. reflexivity. }
  destruct (mean_bounds _ _ _ Hne HF) as [L U].
  split.
  - rewrite <- (round_inject lo). apply round_monotone, L.
  - rewrite <- (round_inject hi). apply round_monotone, U.
Qed.

(* ------------------------------------------------------------------ *)
(** ** Further properties: the order of the rows *)

Lemma list_sum_perm (xs ys : list nat) :
  Permutation xs ys -> list_sum xs = list_sum ys.
Proof.
  induction 1 as [|x xs ys _ IH|x y xs|xs ys zs _ IH1 _ IH2].
  - reflexivity.
  - rewrite !list_sum_step, IH. reflexivity.
  - rewrite !list_sum_step. lia.
  - congruence.
Qed.

Lemma filter_perm {A : Type} (p : A -> bool) (xs ys : list A) :
  Permutation xs ys -> Permutation (filter p xs) (filter p ys).
Proof.
  induction 1 as [|x xs ys _ IH|x y xs|xs ys zs _ IH1 _ IH2].
  - constructor.
  - cbn [filter]. destruct (p x); [constructor|]; exact IH.
  - cbn [filter]. destruct (p x), (p y); try apply Permutation_refl.
    apply perm_swap.
  - eapply Permutation_trans; eassumption.
Qed.

Lemma presentCells_perm (rows rows' : list Row) (columns : list jsstring) :
  Permutation rows rows' ->
  presentCells rows columns = presentCells rows' columns.
Proof.
  intros P. unfold presentCells. apply list_sum_perm, Permutation_map, P.
Qed.

Lemma columnValues_perm (rows rows' : list Row) (col : jsstring) :
  Permutation rows rows' ->
  Permutation (columnValues rows col) (columnValues rows' col).
Proof.
  intros P. unfold columnValues. apply filter_perm, Permutation_map, P.
Qed.

Lemma setSize_perm (xs ys : list jsstring) :
  Permutation xs ys -> setSize xs = setSize ys.
Proof.
  intros P. unfold setSize. apply Permutation_length.
  apply NoDup_Permutation; try apply NoDup_nodup.
  intros x. rewrite !nodup_In. split; apply Permutation_in;
    [exact P|apply Permutation_sym, P].
Qed.

(* ------------------------------------------------------------------ *)
(** ** Further properties: surrounding whitespace *)

Lemma trimStart_twice (s : jsstring) : trimStart (trimStart s) = trimStart s.
Proof.
  induction s as [|c s IH]; [reflexivity|].
  cbn [trimStart]. destruct (isWhiteSpace c) eqn:W; [exact IH|].
  cbn [trimStart]. rewrite W. reflexivity.
Qed.

Lemma trimStart_suffix (s : jsstring) : exists p, s = p ++ trimStart s.
Proof.
  induction s as [|c s [p IH]]; [exists []; reflexivity|].
  cbn [trimStart]. destruct (isWhiteSpace c).
  - exists (c :: p). cbn [app]. f_equal. exact IH.
  - exists []. reflexivity.
Qed.

Lemma trimEnd_prefix (s : jsstring) : exists p, s = trimEnd s ++ p.
Proof.
  unfold trimEnd. destruct (trimStart_suffix (rev s)) as [p E].
  exists (rev p). rewrite <- rev_app_distr, <- E. symmetry. apply rev_involutive.
Qed.

Lemma trimEnd_twice (s : jsstring) : trimEnd (trimEnd s) = trimEnd s.
Proof.
  unfold trimEnd. rewrite rev_involutive, trimStart_twice. reflexivity.
Qed.

(** A string that does not start with white space. *)
Lemma trimStart_clean (s : jsstring) :
  trimStart s = s -> trimStart (trimEnd s) = trimEnd s.
Proof.
  intros C. destruct (trimEnd_prefix s) as [p E].
  destruct (trimEnd s) as [|c t] eqn:T; [reflexivity|].
  rewrite E in C. cbn [app trimStart] in C.
  cbn [trimStart]. destruct (isWhiteSpace c); [|reflexivity].
  exfalso. destruct (trimStart_suffix (t ++ p)) as [q Q].
  rewrite C in Q.
  assert (L : List.length (t ++ p) = List.length (q ++ c :: t ++ p))
    by (rewrite <- Q; reflexivity).
  rewrite !length_app in L. cbn [List.length] in L. rewrite length_app in L.
  lia.
Qed.

Lemma trim_twice (s : jsstring) : trim (trim s) = trim s.
Proof.
  unfold trim. rewrite (trimStart_clean (trimStart s) (trimStart_twice s)).
  apply trimEnd_twice.
Qed.

Lemma own_trimRow (row : Row) (col : jsstring) :
  own (trimRow row) col =
  match own row col with Some v => Some (trim v) | None => None end.
Proof.
  unfold trimRow. induction row as [|[k v] row IH]; [reflexivity|].
  cbn [map own]. destruct (streq k col); [reflexivity|exact IH].
Qed.

Lemma cell_trimRow (row : Row) (col : jsstring) :
  cell (trimRow row) col = cell row col.
Proof.
  unfold cell, get. rewrite own_trimRow.
  destruct (own row col) as [v|]; [apply trim_twice|reflexivity].
Qed.

Lemma keys_trimRow (row : Row) : keys (trimRow row) = keys row.
Proof.
  unfold keys, trimRow. rewrite map_map. apply map_ext.
  intros [k v]. reflexivity.
Qed.

Lemma sameCells_trimRow (rows : list Row) : sameCells rows (map trimRow rows).
Proof.
  induction rows as [|row rows IH]; constructor.
  - intros col. symmetry. apply cell_trimRow.
  - exact IH.
Qed.

(** X19: white space around cell values never changes a score: trimming
    every value of every row leaves the results of [computeAllScores] and
    of [computeScores] unchanged; and [trim] applied twice is [trim]. *)
Theorem scores_ignore_surrounding_whitespace `{Host} (rows : list Row)
  (metadata : ScoringEngine.ScoringMetadata) :
  DataQuality.computeAllScores (map trimRow rows) =
    DataQuality.computeAllScores rows /\
  ScoringEngine.computeScores (map trimRow rows) metadata =
    ScoringEngine.computeScores rows metadata /\
  (forall s, trim (trim s) = trim s).
Proof.
  split; [|split].
  - symmetry. apply SameCells.computeAllScores_same.
    + apply sameCells_trimRow.
    + destruct rows as [|row rows]; [reflexivity|].
      cbn [map]. unfold firstKeys. cbn [hd]. symmetry. apply keys_trimRow.
  - symmetry. apply SameCells.computeScores_same, sameCells_trimRow.
  - apply trim_twice.
Qed.

(* ------------------------------------------------------------------ *)
(** ** Further properties: the deterministic explanation *)

Module ExplanationFacts.
Import Explanation.

Lemma fillToThree_three (l : list Recommendation) :
  List.length (firstn 3 (fillToThree 3 l)) = 3%nat.
Proof.
  destruct l as [|a [|b [|c l]]]; reflexivity.
Qed.

End ExplanationFacts.

(** X20: the deterministic explanation always carries exactly three
    recommendations, whatever the scores. *)
Theorem fallback_gives_three_recommendations (show : Q -> string)
  (dimensions : Explanation.Scores) (DQS : Q) :
  List.length
    (Explanation.recommendations
       (Explanation.generateFallbackExplanation show dimensions DQS)) = 3%nat.
Proof.
  unfold Explanation.generateFallbackExplanation, Explanation.collectAdvice.
  cbn [Explanation.recommendations]. apply ExplanationFacts.fillToThree_three.
Qed.

(** X21: when completeness, validity, uniqueness and consistency are all 70
    or more, the three recommendations are the low-severity monitoring
    advice. *)
Theorem fallback_for_scores_of_70_or_more (show : Q -> string)
  (dimensions : Explanation.Scores) (DQS : Q) :
  70 <= Explanation.completeness dimensions ->
  70 <= Explanation.validity dimensions ->
  70 <= Explanation.uniqueness dimensions ->
  70 <= Explanation.consistency dimensions ->
  Explanation.recommendations
    (Explanation.generateFallbackExplanation show dimensions DQS) =
  [Explanation.monitoringAdvice; Explanation.monitoringAdvice;
   Explanation.monitoringAdvice].
Proof.
  unfold Explanation.generateFallbackExplanation, Explanation.collectAdvice.
  cbn [Explanation.recommendations].
  intros Hc Hv Hu Hk.
  rewrite (proj2 (ltb_false _ _) Hc), (proj2 (ltb_false _ _) Hv),
    (proj2 (ltb_false _ _) Hu), (proj2 (ltb_false _ _) Hk).
  reflexivity.
Qed.

(** X22: when completeness, validity and uniqueness are all below 70, the
    recommendations are theirs, in this order, each of high severity exactly
    when its score is below 50, and the consistency advice is left out
    whatever the consistency score. *)
Theorem fallback_recommendations_by_priority (show : Q -> string)
  (dimensions : Explanation.Scores) (DQS : Q) :
  Explanation.completeness dimensions < 70 ->
  Explanation.validity dimensions < 70 ->
  Explanation.uniqueness dimensions < 70 ->
  Explanation.recommendations
    (Explanation.generateFallbackExplanation show dimensions DQS) =
  [Explanation.completenessAdvice (ltb (Explanation.completeness dimensions) 50);
   Explanation.validityAdvice (ltb (Explanation.validity dimensions) 50);
   Explanation.uniquenessAdvice (ltb (Explanation.uniqueness dimensions) 50)].
Proof.
  unfold Explanation.generateFallbackExplanation, Explanation.collectAdvice.
  cbn [Explanation.recommendations].
  intros Hc Hv Hu.
  rewrite (proj2 (ltb_true _ _) Hc), (proj2 (ltb_true _ _) Hv),
    (proj2 (ltb_true _ _) Hu).
  destruct (ltb (Explanation.consistency dimensions) 70); reflexivity.
Qed.

(** X23: a recommendation of high severity is only ever given for
    completeness, validity or uniqueness, and only when that score is below
    50; the consistency and monitoring advice are never of high
    severity. *)
Theorem fallback_high_severity_only_below_50 (show : Q -> string)
  (dimensions : Explanation.Scores) (DQS : Q) (r : Explanation.Recommendation) :
  In r (Explanation.recommendations
          (Explanation.generateFallbackExplanation show dimensions DQS)) ->
  Explanation.severity r = Explanation.High ->
  (r = Explanation.completenessAdvice true /\
   Explanation.completeness dimensions < 50) \/
  (r = Explanation.validityAdvice true /\
   Explanation.validity dimensions < 50) \/
  (r = Explanation.uniquenessAdvice true /\
   Explanation.uniqueness dimensions < 50).
Proof.
  unfold Explanation.generateFallbackExplanation, Explanation.collectAdvice.
  cbn [Explanation.recommendations].
  destruct (ltb (Explanation.completeness dimensions) 50) eqn:C50;
  destruct (ltb (Explanation.validity dimensions) 50) eqn:V50;
  destruct (ltb (Explanation.uniqueness dimensions) 50) eqn:U50;
  try apply ltb_true in C50; try apply ltb_true in V50;
  try apply ltb_true in U50;
  destruct (ltb (Explanation.completeness dimensions) 70);
  destruct (ltb (Explanation.validity dimensions) 70);
  destruct (ltb (Explanation.uniqueness dimensions) 70);
  destruct (ltb (Explanation.consistency dimensions) 70);
  cbn; intros Hin Hs;
  repeat (destruct Hin as [<-|Hin]; [try discriminate Hs; tauto|]);
  contradiction.
Qed.

(* ------------------------------------------------------------------ *)
(** ** The further properties on example data *)

Module MoreExamples.
Import ExampleHost ExampleScores.

Lemma Qle_by_test (a b : Q) : Qle_bool a b = true -> a <= b.
Proof. apply Qle_bool_iff. Qed.

Lemma planned_cells_present :
  forall row col, In row planned -> In col (firstKeys planned) ->
                  present (get row col) = true.
Proof.
  intros row col [<-|[<-|[]]] [<-|[<-|[]]]; reflexivity.
Defined.

Lemma completeness_full_and_empty_witness :
  (planned <> [] /\ firstKeys planned <> [] /\
   forall row col, In row planned -> In col (firstKeys planned) ->
                   present (get row col) = true) /\
  ScoringEngine.calculateCompleteness planned (firstKeys planned) = Some 100%Z.
Proof.
  assert (Hr : planned <> []) by discriminate.
  assert (Hc : firstKeys planned <> []) by discriminate.
  split; [repeat split; try assumption; apply planned_cells_present|].
  apply (proj1 (proj1 (completeness_full_and_empty planned (firstKeys planned)
                         Hr Hc) planned_cells_present)).
Defined.

Lemma planned_values_distinct :
  forall col, In col (firstKeys planned) -> NoDup (columnValues planned col).
Proof.
  intros col [<-|[<-|[]]];
    (constructor; [intros [E|[]]; discriminate E|]);
    (constructor; [intros []|constructor]).
Defined.

Lemma uniqueness_100_when_values_distinct_witness :
  (planned <> [] /\ firstKeys planned <> [] /\
   forall col, In col (firstKeys planned) -> NoDup (columnValues planned col)) /\
  ScoringEngine.calculateUniqueness planned (firstKeys planned) = Some 100%Z.
Proof.
  assert (Hr : planned <> []) by discriminate.
  assert (Hc : firstKeys planned <> []) by discriminate.
  split; [repeat split; try assumption; apply planned_values_distinct|].
  apply (proj1 (uniqueness_100_when_values_distinct planned (firstKeys planned)
                  Hr Hc planned_values_distinct)).
Defined.

Lemma repeated_cells :
  forall row, In row repeated -> cell row (lit "a") = lit "x".
Proof.
  intros row Hin. apply repeat_spec in Hin. rewrite Hin. reflexivity.
Defined.

Lemma uniqueness_of_one_repeated_value_witness :
  (repeated <> [] /\ lit "x" <> [] /\
   forall row, In row repeated -> cell row (lit "a") = lit "x") /\
  ScoringEngine.calculateUniqueness repeated [lit "a"] =
    Some (round (100 / num (List.length repeated))).
Proof.
  assert (Hr : repeated <> []) by discriminate.
  assert (Hv : lit "x" <> []) by discriminate.
  split; [repeat split; try assumption; apply repeated_cells|].
  apply (proj1 (uniqueness_of_one_repeated_value repeated (lit "a") (lit "x")
                  Hr Hv repeated_cells)).
Defined.

Lemma planned_keys_present :
  forall row, In row planned -> isEmpty (cell row (lit "id")) = false.
Proof. intros row [<-|[<-|[]]]; reflexivity. Defined.

Lemma validity_full_and_empty_witness :
  (planned <> [] /\
   forall row, In row planned -> isEmpty (cell row (lit "id")) = false) /\
  ScoringEngine.calculateValidity planned (lit "id" :: [lit "time"]) = Some 100%Z.
Proof.
  assert (Hr : planned <> []) by discriminate.
  split; [split; [exact Hr|apply planned_keys_present]|].
  apply (proj1 (proj1 (validity_full_and_empty planned (lit "id") [lit "time"] Hr)
                  planned_keys_present)).
Defined.

Lemma planned_lengths :
  forall col, In col (firstKeys planned) ->
    exists len, forall v, In v (columnValues planned col) -> List.length v = len.
Proof.
  intros col [<-|[<-|[]]].
  - exists 1%nat. intros v [<-|[<-|[]]]; reflexivity.
  - exists 9%nat. intros v [<-|[<-|[]]]; reflexivity.
Defined.

Lemma consistency_100_when_lengths_equal_witness :
  (planned <> [] /\ firstKeys planned <> [] /\
   forall col, In col (firstKeys planned) ->
     exists len, forall v, In v (columnValues planned col) -> List.length v = len) /\
  ScoringEngine.calculateConsistency planned (firstKeys planned) = Some 100%Z.
Proof.
  assert (Hr : planned <> []) by discriminate.
  assert (Hc : firstKeys planned <> []) by discriminate.
  split; [repeat split; try assumption; apply planned_lengths|].
  apply (proj1 (consistency_100_when_lengths_equal planned (firstKeys planned)
                  Hr Hc planned_lengths)).
Defined.

Lemma detected_date_column_is_first_qualifying_witness :
  @ScoringEngine.detectDateColumn host planned (firstKeys planned) =
    Some (lit "time") /\
  @hasDateKeyword host (lit "time") = true /\
  exists before after,
    firstKeys planned = before ++ lit "time" :: after /\
    forall c, In c before -> @qualifies host planned c = false.
Proof.
  assert (D : @ScoringEngine.detectDateColumn host planned (firstKeys planned) =
              Some (lit "time")) by reflexivity.
  split; [exact D|].
  destruct (@detected_date_column_is_first_qualifying host planned
              (firstKeys planned) (lit "time") D) as (_ & K & _ & _ & E).
  split; [exact K|exact E].
Defined.

Lemma people_no_keyword :
  forall c, In c (firstKeys people) -> @hasDateKeyword host c = false.
Proof. intros c [<-|[<-|[]]]; reflexivity. Defined.

Lemma no_date_keyword_no_timeliness_witness :
  (forall c, In c (firstKeys people) -> @hasDateKeyword host c = false) /\
  @ScoringEngine.detectDateColumn host people (firstKeys people) = None.
Proof.
  split; [apply people_no_keyword|].
  apply (proj1 (@no_date_keyword_no_timeliness host people people_no_keyword)).
Defined.

Lemma timeliness_never_rises_as_time_passes_witness :
  (720000000 <= 900000000)%Z /\
  exists s1 s2,
    @ScoringEngine.calculateTimeliness
       {| toLowerCase := map lowerUnit; parseDate := readMillis;
          now := 720000000 |} events (lit "time") = Some s1 /\
    @ScoringEngine.calculateTimeliness
       {| toLowerCase := map lowerUnit; parseDate := readMillis;
          now := 900000000 |} events (lit "time") = Some s2 /\
    (s2 <= s1)%Z.
Proof.
  assert (L : (720000000 <= 900000000)%Z) by (intros E; discriminate E).
  split; [exact L|].
  apply (proj1 (timeliness_never_rises_as_time_passes (map lowerUnit) readMillis
                  720000000 900000000 events (lit "time") L)).
Defined.




Lemma calculateDQS_between_extremes_witness :
  exists z,
    ScoringEngine.calculateDQS
      {| ScoringEngine.completeness := 83; ScoringEngine.uniqueness := 100;
         ScoringEngine.consistency := 81; ScoringEngine.validity := 100;
         ScoringEngine.timeliness := None |} = Some z /\
    (81 <= z <= 100)%Z.
Proof.
  apply (calculateDQS_between_extremes
           {| ScoringEngine.completeness := 83; ScoringEngine.uniqueness := 100;
              ScoringEngine.consistency := 81; ScoringEngine.validity := 100;
              ScoringEngine.timeliness := None |} 81 100);
    try (split; intros E; discriminate E).
  intros t E. discriminate E.
Defined.

Lemma fallback_for_scores_of_70_or_more_witness :
  Explanation.recommendations
    (Explanation.generateFallbackExplanation (fun _ => EmptyString) healthy 88) =
  [Explanation.monitoringAdvice; Explanation.monitoringAdvice;
   Explanation.monitoringAdvice].
Proof.
  apply (fallback_for_scores_of_70_or_more (fun _ => EmptyString) healthy 88);
    apply Qle_by_test; reflexivity.
Defined.

Lemma fallback_recommendations_by_priority_witness :
  Explanation.recommendations
    (Explanation.generateFallbackExplanation (fun _ => EmptyString) ailing 61) =
  [Explanation.completenessAdvice true; Explanation.validityAdvice false;
   Explanation.uniquenessAdvice false].
Proof.
  apply (fallback_recommendations_by_priority (fun _ => EmptyString) ailing 61);
    reflexivity.
Defined.

Lemma fallback_high_severity_only_below_50_witness :
  Explanation.completenessAdvice true = Explanation.completenessAdvice true /\
  Explanation.completeness ailing < 50.
Proof.
  destruct (fallback_high_severity_only_below_50 (fun _ => EmptyString) ailing 61
              (Explanation.completenessAdvice true)
              (or_introl eq_refl) eq_refl) as [A|[[E _]|[E _]]].
  - exact A.
  - discriminate E.
  - discriminate E.
Defined.

End MoreExamples.

(* ------------------------------------------------------------------ *)
(** ** The rounding of IEEE 754 *)

Module IEEEFacts.
Import IEEE.






Lemma pow2_lt (n m : Z) : (n < m)%Z -> 2 ^ n < 2 ^ m.
Proof. intros L. apply Qpower_lt_compat_l; [exact L|reflexivity]. Qed.











Lemma binary64_zero : binary64 0 = 0.
Proof. reflexivity. Qed.



Lemma exact_lawful : Lawful exact.
Proof. split; intros; cbn [fl exact]; [assumption|reflexivity]. Qed.

End IEEEFacts.

(* ------------------------------------------------------------------ *)
(** ** The calculators in double precision *)

Module DoubleFacts.

Section Loops.

Context `{Rounding}.

Lemma div_some64 (a b : Q) : ~ b == 0 -> Double.div a b = Some (fl (a / b)).
Proof.
  intros Hb. unfold Double.div.
  destruct (Qeq_bool b 0) eqn:E; [|reflexivity].
  apply Qeq_bool_iff in E. contradiction.
Qed.

(** A loop that adds one measured value per element and counts the
    elements. *)
Lemma foldM_sum {B : Type} (f : Q * nat -> B -> option (Q * nat)) (g : B -> Q) :
  (forall t c x, f (t, c) x = Some (Double.add t (g x), S c)) ->
  forall l t c,
    foldM f l (t, c) =
    Some (fold_left Double.add (map g l) t, (c + List.length l)%nat).
Proof.
  intros Hf l. induction l as [|x l IH]; intros t c.
  - cbn [foldM map fold_left List.length]. rewrite Nat.add_0_r. reflexivity.
  - cbn [foldM map fold_left List.length]. rewrite Hf. cbn [bind].
    rewrite IH. f_equal. f_equal. lia.
Qed.

(** The loop over the columns and the division that follows it. *)
Lemma column_loop64 (f : Q * nat -> jsstring -> option (Q * nat))
  (g : list jsstring -> Q) (rows : list Row) (columns : list jsstring) :
  (forall t c col,
      f (t, c) col = Some (Double.add t (g (columnValues rows col)), S c)) ->
  columns <> [] ->
  exists t n,
    foldM f columns (0, 0%nat) = Some (t, S n) /\
    Double.div t (num (S n)) =
    Some (Formula64.mean (map (fun col => g (columnValues rows col)) columns)).
Proof.
  intros Hf Hne.
  destruct columns as [|col columns]; [congruence|].
  exists (Double.sum (map (fun col => g (columnValues rows col)) (col :: columns))),
         (List.length columns).
  split.
  - rewrite (foldM_sum f (fun col => g (columnValues rows col)) Hf).
    reflexivity.
  - rewrite div_some64 by apply num_S_neq.
    unfold Formula64.mean. rewrite length_map. reflexivity.
Qed.

Lemma lengthConsistency_formula64 (v v' : jsstring) (values : list jsstring) :
  Double.lengthConsistency (v :: v' :: values) =
  Some (Formula64.consistencyOf (v :: v' :: values)).
Proof.
  unfold Double.lengthConsistency, Formula64.consistencyOf,
    Formula64.meanDeviation, Formula64.mean.
  rewrite !length_map. cbn [List.length].
  rewrite div_some64 by apply num_S_neq. cbn [bind].
  rewrite !length_map. cbn [List.length].
  rewrite div_some64 by apply num_S_neq. cbn [bind].
  rewrite div_some64.
  - reflexivity.
  - intros E.
    pose proof (Qmax_one_pos
      (fl (Double.sum (map (fun v0 => num (List.length v0)) (v :: v' :: values)) /
           num (S (S (List.length values)))))) as P.
    rewrite E in P. apply (Qlt_irrefl 0), P.
Qed.

Section Ages.

Context `{Host}.

Lemma ageLoop64 (dateColumn : jsstring) (rows : list Row) (n : nat) (t : Q) :
  foldM (Double.ageStep dateColumn) rows (n, t) =
  Some ((n + List.length (parsedDates rows dateColumn))%nat,
        fold_left Double.add (Formula64.ages rows dateColumn) t).
Proof.
  revert n t. induction rows as [|row rows IH]; intros n t.
  - simpl. rewrite Nat.add_0_r. reflexivity.
  - cbn [foldM]. unfold Double.ageStep at 1. unfold Formula64.ages, parsedDates.
    cbn [flat_map].
    destruct (isEmpty (cell row dateColumn)).
    + cbn [bind app]. apply IH.
    + destruct (parseDate (cell row dateColumn)) as [time|].
      * rewrite div_some64 by apply hour_neq.
        cbn [bind app map fold_left List.length].
        rewrite IH. unfold Formula64.ages, parsedDates, Formula64.ageHours.
        f_equal. f_equal. lia.
      * cbn [bind app]. apply IH.
Qed.

Lemma age_result64 (rows : list Row) (dateColumn : jsstring) :
  (st <- foldM (Double.ageStep dateColumn) rows (0%nat, 0) ;;
   Double.ageResult st) =
  Some (Formula64.ageOutcome rows dateColumn).
Proof.
  rewrite ageLoop64. cbn [bind]. unfold Double.ageResult, Formula64.ageOutcome.
  rewrite Nat.add_0_l.
  destruct (parsedDates rows dateColumn) as [|time times] eqn:P.
  - reflexivity.
  - cbn [List.length]. rewrite div_some64 by apply num_S_neq. cbn [bind].
    unfold Formula64.mean, Double.sum.
    replace (List.length (Formula64.ages rows dateColumn))
      with (S (List.length times))
      by (unfold Formula64.ages; rewrite length_map, P; reflexivity).
    reflexivity.
Qed.

End Ages.

End Loops.

End DoubleFacts.

Module DataQuality64Facts.
Import DataQuality64 DoubleFacts.

Section Calculators.

Context `{Rounding}.

Lemma uniquenessStep_spec64 (rows : list Row) (t : Q) (c : nat) (col : jsstring) :
  uniquenessStep rows (t, c) col =
  Some (Double.add t (Formula64.uniquenessOf (columnValues rows col)), S c).
Proof.
  unfold uniquenessStep, Formula64.uniquenessOf, Formula64.percentage.
  destruct (columnValues rows col) as [|v values]; [reflexivity|].
  cbn [List.length]. rewrite div_some64 by apply num_S_neq. reflexivity.
Qed.

Lemma computeUniqueness_formula64 (row : Row) (rows : list Row) :
  firstKeys (row :: rows) <> [] ->
  computeUniqueness (row :: rows) =
  Some (clamp (Formula64.columnMean Formula64.uniquenessOf (row :: rows)
                 (firstKeys (row :: rows)))).
Proof.
  intros Hne. unfold computeUniqueness.
  destruct (column_loop64 (uniquenessStep (row :: rows)) Formula64.uniquenessOf
              (row :: rows) (firstKeys (row :: rows))
              (uniquenessStep_spec64 (row :: rows)) Hne)
    as [t [n [Et Er]]].
  destruct (firstKeys (row :: rows)) as [|col columns] eqn:K; [congruence|].
  rewrite Et. cbn [bind]. rewrite Er. reflexivity.
Qed.

Lemma columnConsistency_formula64 (values : list jsstring) :
  columnConsistency values = Some (Formula64.consistencyOf values).
Proof.
  destruct values as [|v [|v' values]]; try reflexivity.
  apply lengthConsistency_formula64.
Qed.

Lemma consistencyStep_spec64 (rows : list Row) (t : Q) (c : nat) (col : jsstring) :
  consistencyStep rows (t, c) col =
  Some (Double.add t (Formula64.consistencyOf (columnValues rows col)), S c).
Proof.
  unfold consistencyStep. rewrite columnConsistency_formula64. reflexivity.
Qed.

Lemma computeConsistency_formula64 (row : Row) (rows : list Row) :
  firstKeys (row :: rows) <> [] ->
  computeConsistency (row :: rows) =
  Some (clamp (Formula64.columnMean Formula64.consistencyOf (row :: rows)
                 (firstKeys (row :: rows)))).
Proof.
  intros Hne. unfold computeConsistency.
  destruct (column_loop64 (consistencyStep (row :: rows)) Formula64.consistencyOf
              (row :: rows) (firstKeys (row :: rows))
              (consistencyStep_spec64 (row :: rows)) Hne)
    as [t [n [Et Er]]].
  destruct (firstKeys (row :: rows)) as [|col columns] eqn:K; [congruence|].
  rewrite Et. cbn [bind]. rewrite Er. reflexivity.
Qed.

Lemma computeValidity_formula64 (row : Row) (rows : list Row)
  (keyColumn : jsstring) (others : list jsstring) :
  firstKeys (row :: rows) = keyColumn :: others ->
  computeValidity (row :: rows) =
  Some (clamp (Formula64.validityOf (row :: rows) keyColumn)).
Proof.
  intros K. unfold computeValidity, Formula64.validityOf, Formula64.percentage.
  rewrite K.
  rewrite (filter_ext _ (fun r => negb (isEmpty (cell r keyColumn))))
    by (intros r; apply present_cell).
  cbn [List.length]. rewrite div_some64 by apply num_S_neq. reflexivity.
Qed.

Context `{Host}.


End Calculators.

End DataQuality64Facts.

Module ScoringEngine64Facts.
Import ScoringEngine64 DoubleFacts ScoringEngineFacts.

Section Calculators.

Context `{Rounding}.

Lemma calculate_uniquenessStep_spec64 (rows : list Row) (t : Q) (c : nat) (col : jsstring) :
  uniquenessStep rows (t, c) col =
  Some (Double.add t (Formula64.uniquenessOf (columnValues rows col)), S c).
Proof.
  unfold uniquenessStep, Formula64.uniquenessOf, Formula64.percentage.
  destruct (columnValues rows col) as [|v values]; [reflexivity|].
  cbn [List.length Nat.ltb Nat.leb].
  rewrite div_some64 by apply num_S_neq. reflexivity.
Qed.

Lemma calculateUniqueness_formula64 (rows : list Row) (columns : list jsstring) :
  rows <> [] -> columns <> [] ->
  calculateUniqueness rows columns =
  Some (Formula64.columnMean Formula64.uniquenessOf rows columns).
Proof.
  intros Hr Hc. unfold calculateUniqueness.
  rewrite (guard_nonempty rows columns Hr Hc).
  destruct (column_loop64 (uniquenessStep rows) Formula64.uniquenessOf rows columns
              (calculate_uniquenessStep_spec64 rows) Hc) as [t [n [Et Er]]].
  rewrite Et. cbn [bind]. rewrite Er. reflexivity.
Qed.

Lemma calculateValidity_formula64 (row : Row) (rows : list Row)
  (keyColumn : jsstring) (others : list jsstring) :
  calculateValidity (row :: rows) (keyColumn :: others) =
  Some (Formula64.validityOf (row :: rows) keyColumn).
Proof.
  unfold calculateValidity, Formula64.validityOf, Formula64.percentage.
  cbn [List.length]. rewrite div_some64 by apply num_S_neq. reflexivity.
Qed.


Context `{Host}.

Lemma calculateTimeliness_formula64 (row : Row) (rows : list Row)
  (dateColumnName : jsstring) :
  calculateTimeliness (row :: rows) dateColumnName =
  Some (Formula64.ageOutcome (row :: rows) dateColumnName).
Proof. unfold calculateTimeliness. apply age_result64. Qed.

End Calculators.

End ScoringEngine64Facts.

Module LawfulFacts.
Import ScoringEngine64 DoubleFacts ScoringEngineFacts.

Section Laws.

Context `{R : Rounding}.
Hypothesis L : Lawful R.









End Laws.

End LawfulFacts.

Module Composite64Facts.
Import DataQuality64 DoubleFacts.

Section Composite.

Context `{Rounding}.







End Composite.

End Composite64Facts.

(* ------------------------------------------------------------------ *)
(** ** The accuracy of double-precision arithmetic *)


Module IEEEError.
Import IEEE IEEEFacts.






End IEEEError.

Module NearFacts.
Import IEEE IEEEFacts IEEEError.














End NearFacts.

Module DefaultError.
Import IEEE.




End DefaultError.

Module WeightAccuracy.
Import IEEE IEEEFacts IEEEError NearFacts.









End WeightAccuracy.

Module SumAccuracy.
Import IEEE IEEEFacts IEEEError NearFacts.



End SumAccuracy.

Module CompositeAccuracy.
Import IEEE IEEEFacts IEEEError NearFacts WeightAccuracy SumAccuracy.






End CompositeAccuracy.

Module Validation64.
Import DataQuality64.

Section Checks.

Context `{Rounding}.












End Checks.

End Validation64.

(* ------------------------------------------------------------------ *)
(** ** Every call returns numbers, in double precision as well *)

Module Returned64.

Section Totality.

Context `{Rounding}.

Lemma computeCompleteness_total64 (rows : list Row) :
  exists z, DataQuality64.computeCompleteness rows = Some z /\
            (0 <= z <= 100)%Z.
Proof.
  unfold DataQuality64.computeCompleteness.
  destruct rows as [|row rows]; [exists 0%Z; split; [reflexivity|lia]|].
  destruct (firstKeys (row :: rows)); [exists 0%Z; split; [reflexivity|lia]|].
  destruct (completenessScan _ _) as [[|t] n];
    [exists 0%Z; split; [reflexivity|lia]|].
  rewrite DoubleFacts.div_some64 by apply num_S_neq.
  eexists. split; [reflexivity|apply clamp_range].
Qed.

Lemma computeUniqueness_total64 (rows : list Row) :
  exists z, DataQuality64.computeUniqueness rows = Some z /\
            (0 <= z <= 100)%Z.
Proof.
  destruct rows as [|row rows]; [exists 0%Z; split; [reflexivity|lia]|].
  destruct (firstKeys (row :: rows)) as [|k ks] eqn:K.
  - unfold DataQuality64.computeUniqueness. rewrite K.
    exists 0%Z. split; [reflexivity|lia].
  - rewrite DataQuality64Facts.computeUniqueness_formula64
      by (rewrite K; discriminate).
    eexists. split; [reflexivity|apply clamp_range].
Qed.

Lemma computeConsistency_total64 (rows : list Row) :
  exists z, DataQuality64.computeConsistency rows = Some z /\
            (0 <= z <= 100)%Z.
Proof.
  destruct rows as [|row rows]; [exists 0%Z; split; [reflexivity|lia]|].
  destruct (firstKeys (row :: rows)) as [|k ks] eqn:K.
  - unfold DataQuality64.computeConsistency. rewrite K.
    exists 0%Z. split; [reflexivity|lia].
  - rewrite DataQuality64Facts.computeConsistency_formula64
      by (rewrite K; discriminate).
    eexists. split; [reflexivity|apply clamp_range].
Qed.

Lemma computeValidity_total64 (rows : list Row) :
  exists z, DataQuality64.computeValidity rows = Some z /\
            (0 <= z <= 100)%Z.
Proof.
  destruct rows as [|row rows]; [exists 0%Z; split; [reflexivity|lia]|].
  destruct (firstKeys (row :: rows)) as [|k ks] eqn:K.
  - unfold DataQuality64.computeValidity. rewrite K.
    exists 0%Z. split; [reflexivity|lia].
  - rewrite (DataQuality64Facts.computeValidity_formula64 _ _ _ _ K).
    eexists. split; [reflexivity|apply clamp_range].
Qed.


Lemma calculateConsistency_total64 (rows : list Row) (columns : list jsstring) :
  exists z, ScoringEngine64.calculateConsistency rows columns = Some z.
Proof.
  unfold ScoringEngine64.calculateConsistency.
  destruct (isEmptyList rows || isEmptyList columns); [eexists; reflexivity|].
  assert (Step : forall t c col, exists q,
            ScoringEngine64.consistencyStep rows (t, c) col =
            Some (Double.add t q, S c)).
  { intros t c col. unfold ScoringEngine64.consistencyStep.
    destruct (columnValues rows col) as [|v values].
    - eexists. reflexivity.
    - rewrite !length_map. cbn [List.length].
      rewrite DoubleFacts.div_some64 by apply num_S_neq. cbn [bind].
      rewrite DoubleFacts.div_some64 by apply num_S_neq. cbn [bind].
      rewrite DoubleFacts.div_some64.
      + cbn [bind]. eexists. reflexivity.
      + intros E. pose proof (Qmax_one_pos
          (fl (Double.sum (map (fun v0 => num (List.length v0)) (v :: values)) /
               num (S (List.length values))))) as P.
        rewrite E in P. apply (Qlt_irrefl 0), P. }
  assert (Loop : forall l t c, exists t',
            foldM (ScoringEngine64.consistencyStep rows) l (t, c) =
            Some (t', (c + List.length l)%nat)).
  { induction l as [|x l IH]; intros t c.
    - exists t. cbn. rewrite Nat.add_0_r. reflexivity.
    - destruct (Step t c x) as [q Eq].
      destruct (IH (Double.add t q) (S c)) as [t' Et].
      exists t'. cbn [foldM List.length]. rewrite Eq. cbn [bind]. rewrite Et.
      f_equal. f_equal. lia. }
  destruct (Loop columns 0 0%nat) as [t Et]. rewrite Et. cbn [bind].
  destruct (0 + List.length columns)%nat; [eexists; reflexivity|].
  rewrite DoubleFacts.div_some64 by apply num_S_neq. eexists. reflexivity.
Qed.

Lemma calculateCompleteness_total64 (rows : list Row) (columns : list jsstring) :
  exists z, ScoringEngine64.calculateCompleteness rows columns = Some z.
Proof.
  unfold ScoringEngine64.calculateCompleteness.
  destruct (isEmptyList rows || isEmptyList columns); [eexists; reflexivity|].
  destruct (completenessScan rows columns) as [[|t] n]; [eexists; reflexivity|].
  rewrite DoubleFacts.div_some64 by apply num_S_neq. eexists. reflexivity.
Qed.

Lemma calculateUniqueness_total64 (rows : list Row) (columns : list jsstring) :
  exists z, ScoringEngine64.calculateUniqueness rows columns = Some z.
Proof.
  destruct rows as [|r rows]; [eexists; reflexivity|].
  destruct columns as [|c columns]; [eexists; reflexivity|].
  rewrite ScoringEngine64Facts.calculateUniqueness_formula64 by discriminate.
  eexists. reflexivity.
Qed.

Lemma calculateValidity_total64 (rows : list Row) (columns : list jsstring) :
  exists z, ScoringEngine64.calculateValidity rows columns = Some z.
Proof.
  destruct rows as [|r rows]; [eexists; reflexivity|].
  destruct columns as [|c columns]; [eexists; reflexivity|].
  rewrite ScoringEngine64Facts.calculateValidity_formula64.
  eexists. reflexivity.
Qed.

Context `{Host}.

Lemma ageOutcome_range64 (rows : list Row) (dateColumn : jsstring) :
  (0 <= Formula64.ageOutcome rows dateColumn <= 100)%Z.
Proof.
  unfold Formula64.ageOutcome.
  destruct (parsedDates rows dateColumn); [lia|apply ageScore_range].
Qed.

Lemma computeTimeliness_total64 (rows : list Row) :
  exists z, DataQuality64.computeTimeliness rows = Some z /\
            (0 <= z <= 100)%Z.
Proof.
  unfold DataQuality64.computeTimeliness.
  destruct rows as [|row rows]; [exists 50%Z; split; [reflexivity|lia]|].
  destruct (firstKeys (row :: rows)) as [|k ks];
    [exists 50%Z; split; [reflexivity|lia]|].
  destruct (find hasDateKeyword (k :: ks)) as [[|c name]|];
    try (exists 50%Z; split; [reflexivity|lia]).
  rewrite DoubleFacts.age_result64.
  eexists. split; [reflexivity|apply ageOutcome_range64].
Qed.

Lemma computeTimeliness_no_date64 (rows : list Row) :
  find hasDateKeyword (firstKeys rows) = None ->
  DataQuality64.computeTimeliness rows = Some 50%Z.
Proof.
  intros F. unfold DataQuality64.computeTimeliness.
  destruct rows as [|row rows]; [reflexivity|].
  rewrite F. destruct (firstKeys (row :: rows)); reflexivity.
Qed.

Lemma computeAllScores_total64 (rows : list Row) :
  exists s, DataQuality64.computeAllScores rows = Some s /\
    (0 <= DataQuality.completeness s <= 100)%Z /\
    (0 <= DataQuality.uniqueness s <= 100)%Z /\
    (0 <= DataQuality.consistency s <= 100)%Z /\
    (0 <= DataQuality.validity s <= 100)%Z /\
    (0 <= DataQuality.timeliness s <= 100)%Z /\
    DataQuality64.computeTimeliness rows = Some (DataQuality.timeliness s).
Proof.
  destruct (computeCompleteness_total64 rows) as [c [Ec Rc]].
  destruct (computeUniqueness_total64 rows) as [u [Eu Ru]].
  destruct (computeConsistency_total64 rows) as [k [Ek Rk]].
  destruct (computeValidity_total64 rows) as [v [Ev Rv]].
  destruct (computeTimeliness_total64 rows) as [t [Et Rt]].
  unfold DataQuality64.computeAllScores. rewrite Ec, Eu, Ek, Ev, Et.
  cbn [bind]. eexists. split; [reflexivity|].
  cbn [DataQuality.completeness DataQuality.uniqueness DataQuality.consistency
       DataQuality.validity DataQuality.timeliness]. tauto.
Qed.

Lemma calculateTimeliness_total64 (rows : list Row) (dateColumn : jsstring) :
  exists z, ScoringEngine64.calculateTimeliness rows dateColumn = Some z.
Proof.
  destruct rows as [|row rows]; [exists 0%Z; reflexivity|].
  rewrite ScoringEngine64Facts.calculateTimeliness_formula64.
  eexists. reflexivity.
Qed.

Lemma computeScores_total64 (rows : list Row)
  (metadata : ScoringEngine.ScoringMetadata) :
  exists s, ScoringEngine64.computeScores rows metadata = Some s.
Proof.
  unfold ScoringEngine64.computeScores. cbv zeta.
  destruct (calculateCompleteness_total64 rows (ScoringEngine.columns metadata))
    as [c ->].
  destruct (calculateUniqueness_total64 rows (ScoringEngine.columns metadata))
    as [u ->].
  destruct (calculateConsistency_total64 rows (ScoringEngine.columns metadata))
    as [k ->].
  destruct (calculateValidity_total64 rows (ScoringEngine.columns metadata))
    as [v ->].
  cbn [bind].
  destruct (ScoringEngine.dateColumnOf metadata) as [name|].
  - destruct (calculateTimeliness_total64 rows name) as [t ->].
    eexists. reflexivity.
  - eexists. reflexivity.
Qed.

End Totality.

End Returned64.

(* ------------------------------------------------------------------ *)
(** ** Rows with the same cells, in double precision *)

Module SameCells64.

Section Same.

Context `{Rounding}.





Context `{Host}.





End Same.

End SameCells64.

(* ------------------------------------------------------------------ *)
(** ** The composite engine in double precision *)

Module DefaultWeights.
Import IEEE.



End DefaultWeights.




(* ------------------------------------------------------------------ *)
(** ** The dimension calculators in double precision *)

Lemma round_zero (x : Q) : round x = 0%Z <-> - (1 # 2) <= x /\ x < 1 # 2.
Proof.
  split.
  - intros E. unfold round in E.
    pose proof (Qfloor_le (x + (1 # 2))) as F1.
    pose proof (Qlt_floor (x + (1 # 2))) as F2. rewrite E in F1, F2.
    change (inject_Z (0 + 1)) with 1 in F2. change (inject_Z 0) with 0 in F1.
    split; lra.
  - intros [L U]. apply round_between; change (inject_Z 0) with 0; lra.
Qed.


(** C6 (amended): on a dataset with rows and columns the uniqueness
    calculator returns the rounded mean, over the columns, of
    distinct trimmed non-empty values / trimmed non-empty values x 100, a
    column without such values counting 100, each operation in double
    precision and the mean summed in the order of the columns (the
    JavaScript version clamps the result to [0,100]); it returns 0 when
    there are no rows or no columns, and otherwise exactly when that mean
    rounds to 0, that is when it is below one half. *)
Theorem uniqueness_rounded_column_mean `{Rounding} (rows : list Row)
  (columns : list jsstring) :
  rows <> [] -> columns <> [] ->
  ScoringEngine64.calculateUniqueness rows columns =
    Some (Formula64.columnMean Formula64.uniquenessOf rows columns) /\
  (columns = firstKeys rows ->
   DataQuality64.computeUniqueness rows =
     Some (clamp (Formula64.columnMean Formula64.uniquenessOf rows columns))) /\
  (Formula64.columnMean Formula64.uniquenessOf rows columns = 0%Z <->
   - (1 # 2) <=
     Formula64.mean
       (map (fun col => Formula64.uniquenessOf (columnValues rows col)) columns)
   /\
   Formula64.mean
     (map (fun col => Formula64.uniquenessOf (columnValues rows col)) columns)
   < 1 # 2) /\
  ScoringEngine64.calculateUniqueness [] columns = Some 0%Z /\
  ScoringEngine64.calculateUniqueness rows [] = Some 0%Z /\
  DataQuality64.computeUniqueness [] = Some 0%Z /\
  DataQuality64.computeUniqueness ([] :: rows) = Some 0%Z.
Proof.
  intros Hr Hc. split; [|split; [|split; [|split; [|split; [|split]]]]].
  - apply ScoringEngine64Facts.calculateUniqueness_formula64; assumption.
  - intros ->. destruct rows as [|row rows]; [congruence|].
    apply DataQuality64Facts.computeUniqueness_formula64. exact Hc.
  - unfold Formula64.columnMean. apply round_zero.
  - reflexivity.
  - destruct rows; reflexivity.
  - reflexivity.
  - reflexivity.
Qed.




(* ------------------------------------------------------------------ *)
(** ** Returned numbers and missing keys *)

(** C3 (amended): when no column name of the dataset holds a date keyword
    (as for the empty dataset, which has no columns), [computeAllScores]
    returns a timeliness of exactly 50 whatever the rows hold, and on the
    empty row list completeness, uniqueness, consistency and validity 0 and
    timeliness 50.  The TypeScript engine differs: [computeScores] under
    [prepareMetadata] then returns no timeliness at all, and
    [calculateTimeliness] returns 0 on the empty row list; on rows of which
    no value of the column parses as a date it returns 50.  All of it holds
    whatever the rounding of the arithmetic. *)
Theorem timeliness_neutral_without_date_column `{Rounding} `{Host}
  (rows : list Row) :
  (forall col, In col (firstKeys rows) -> hasDateKeyword col = false) ->
  DataQuality64.computeTimeliness rows = Some 50%Z /\
  (exists s, DataQuality64.computeAllScores rows = Some s /\
             DataQuality.timeliness s = 50%Z) /\
  (rows = [] ->
   DataQuality64.computeAllScores rows =
   Some {| DataQuality.completeness := 0; DataQuality.uniqueness := 0;
           DataQuality.consistency := 0; DataQuality.validity := 0;
           DataQuality.timeliness := 50 |}) /\
  (exists s,
     ScoringEngine64.computeScores rows (ScoringEngine.prepareMetadata rows) =
       Some s /\
     ScoringEngine.timeliness s = None) /\
  (forall dateColumn,
     ScoringEngine64.calculateTimeliness [] dateColumn = Some 0%Z) /\
  (forall dateColumn,
     rows <> [] -> parsedDates rows dateColumn = [] ->
     ScoringEngine64.calculateTimeliness rows dateColumn = Some 50%Z).
Proof.
  intros Hno.
  assert (F : find hasDateKeyword (firstKeys rows) = None).
  { destruct (find hasDateKeyword (firstKeys rows)) as [col|] eqn:E;
      [|reflexivity].
    apply find_some in E. destruct E as [Hin Hk].
    rewrite (Hno col Hin) in Hk. discriminate Hk. }
  pose proof (Returned64.computeTimeliness_no_date64 rows F) as T.
  split; [exact T|]. split; [|split; [|split; [|split]]].
  - destruct (Returned64.computeAllScores_total64 rows)
      as (s & Es & _ & _ & _ & _ & _ & Et).
    exists s. split; [exact Es|].
    rewrite T in Et. injection Et as <-. reflexivity.
  - intros ->. reflexivity.
  - pose proof (no_keyword_no_date_column rows (firstKeys rows) Hno) as D.
    assert (M : ScoringEngine.hasDateColumn (ScoringEngine.prepareMetadata rows)
                = false).
    { destruct rows as [|row rows]; [reflexivity|].
      unfold ScoringEngine.prepareMetadata. cbn [ScoringEngine.hasDateColumn].
      change (keys row) with (firstKeys (row :: rows)). rewrite D. reflexivity. }
    destruct (Returned64.computeScores_total64 rows
                (ScoringEngine.prepareMetadata rows)) as [s Es].
    exists s. split; [exact Es|].
    unfold ScoringEngine64.computeScores in Es. cbv zeta in Es.
    unfold ScoringEngine.dateColumnOf in Es. rewrite M in Es.
    destruct (ScoringEngine64.calculateCompleteness _ _); [|discriminate Es].
    destruct (ScoringEngine64.calculateUniqueness _ _); [|discriminate Es].
    destruct (ScoringEngine64.calculateConsistency _ _); [|discriminate Es].
    destruct (ScoringEngine64.calculateValidity _ _); [|discriminate Es].
    cbn [bind] in Es. injection Es as <-. reflexivity.
  - intros dateColumn. reflexivity.
  - intros dateColumn Hr P. destruct rows as [|row rows]; [congruence|].
    rewrite ScoringEngine64Facts.calculateTimeliness_formula64.
    unfold Formula64.ageOutcome. rewrite P. reflexivity.
Qed.


(* ------------------------------------------------------------------ *)
(** ** Further properties in double precision *)

Section Completeness64.

Context `{Rounding}.

Lemma calculateCompleteness_formula64 (rows : list Row)
  (columns : list jsstring) :
  rows <> [] -> columns <> [] ->
  ScoringEngine64.calculateCompleteness rows columns =
  Some (Formula64.completenessOf rows columns).
Proof.
  intros Hr Hc.
  unfold ScoringEngine64.calculateCompleteness, Formula64.completenessOf,
    Formula64.percentage.
  rewrite ScoringEngineFacts.guard_nonempty by assumption.
  rewrite completenessScan_count.
  destruct rows as [|row rows]; [congruence|].
  destruct columns as [|col columns]; [congruence|].
  cbn [List.length Nat.mul Nat.add].
  rewrite DoubleFacts.div_some64 by apply num_S_neq. reflexivity.
Qed.

Lemma computeCompleteness_formula64 (rows : list Row) :
  rows <> [] -> firstKeys rows <> [] ->
  DataQuality64.computeCompleteness rows =
  Some (clamp (Formula64.completenessOf rows (firstKeys rows))).
Proof.
  intros Hr Hc.
  unfold DataQuality64.computeCompleteness, Formula64.completenessOf,
    Formula64.percentage.
  rewrite completenessScan_count.
  destruct rows as [|row rows]; [congruence|].
  destruct (firstKeys (row :: rows)) as [|col columns]; [congruence|].
  cbn [List.length Nat.mul Nat.add].
  rewrite DoubleFacts.div_some64 by apply num_S_neq. reflexivity.
Qed.

(** X1: on a dataset with rows and columns, completeness is
    round(present cells / (rows x columns) x 100) in double precision, in
    both engines (the JavaScript version clamps it to [0,100]); the present
    cells never outnumber the cells. *)
Theorem completeness_is_present_cell_percentage (rows : list Row)
  (columns : list jsstring) :
  rows <> [] -> columns <> [] ->
  ScoringEngine64.calculateCompleteness rows columns =
    Some (Formula64.completenessOf rows columns) /\
  (columns = firstKeys rows ->
   DataQuality64.computeCompleteness rows =
     Some (clamp (Formula64.completenessOf rows columns))) /\
  (presentCells rows columns <= List.length rows * List.length columns)%nat.
Proof.
  intros Hr Hc. split; [|split].
  - apply calculateCompleteness_formula64; assumption.
  - intros ->. apply computeCompleteness_formula64; assumption.
  - apply presentCells_le.
Qed.

Lemma completenessOf_perm64 (rows rows' : list Row) (columns : list jsstring) :
  Permutation rows rows' ->
  Formula64.completenessOf rows columns = Formula64.completenessOf rows' columns.
Proof.
  intros P. unfold Formula64.completenessOf.
  rewrite (presentCells_perm _ _ columns P), (Permutation_length P).
  reflexivity.
Qed.

Lemma uniquenessOf_perm64 (xs ys : list jsstring) :
  Permutation xs ys -> Formula64.uniquenessOf xs = Formula64.uniquenessOf ys.
Proof.
  intros P. unfold Formula64.uniquenessOf.
  pose proof (Permutation_length P) as L.
  pose proof (setSize_perm _ _ P) as S1.
  destruct xs as [|x xs], ys as [|y ys]; try discriminate L; [reflexivity|].
  rewrite S1, L. reflexivity.
Qed.

Lemma columnMean_ext64 (g : list jsstring -> Q) (rows rows' : list Row)
  (columns : list jsstring) :
  (forall col, g (columnValues rows col) = g (columnValues rows' col)) ->
  Formula64.columnMean g rows columns = Formula64.columnMean g rows' columns.
Proof.
  intros E. unfold Formula64.columnMean.
  rewrite (map_ext (fun col => g (columnValues rows col))
             (fun col => g (columnValues rows' col)) E).
  reflexivity.
Qed.

Lemma validityOf_perm64 (rows rows' : list Row) (keyColumn : jsstring) :
  Permutation rows rows' ->
  Formula64.validityOf rows keyColumn = Formula64.validityOf rows' keyColumn.
Proof.
  intros P. unfold Formula64.validityOf. cbv zeta.
  rewrite (Permutation_length (filter_perm _ _ _ P)), (Permutation_length P).
  reflexivity.
Qed.

Lemma calculators_perm64 (rows rows' : list Row) (columns : list jsstring) :
  Permutation rows rows' ->
  ScoringEngine64.calculateCompleteness rows columns =
    ScoringEngine64.calculateCompleteness rows' columns /\
  ScoringEngine64.calculateUniqueness rows columns =
    ScoringEngine64.calculateUniqueness rows' columns /\
  ScoringEngine64.calculateValidity rows columns =
    ScoringEngine64.calculateValidity rows' columns.
Proof.
  intros P. pose proof (Permutation_length P) as L.
  destruct rows as [|r rows], rows' as [|r' rows']; try discriminate L;
    [repeat split; reflexivity|].
  destruct columns as [|col columns]; [repeat split; reflexivity|].
  rewrite !calculateCompleteness_formula64 by discriminate.
  rewrite !ScoringEngine64Facts.calculateUniqueness_formula64 by discriminate.
  rewrite !ScoringEngine64Facts.calculateValidity_formula64.
  rewrite (completenessOf_perm64 _ _ _ P), (validityOf_perm64 _ _ _ P).
  rewrite (columnMean_ext64 Formula64.uniquenessOf (r :: rows) (r' :: rows'))
    by (intros c; apply uniquenessOf_perm64, columnValues_perm, P).
  repeat split; reflexivity.
Qed.

(** X18: completeness, uniqueness and validity do not depend on the order
    of the rows, in double precision as well: they are computed from counts.
    (Consistency and timeliness add up doubles row by row, and the order of
    a sum of doubles can change its last bit.) *)
Theorem scores_independent_of_row_order (rows rows' : list Row)
  (columns : list jsstring) :
  Permutation rows rows' ->
  ScoringEngine64.calculateCompleteness rows columns =
    ScoringEngine64.calculateCompleteness rows' columns /\
  ScoringEngine64.calculateUniqueness rows columns =
    ScoringEngine64.calculateUniqueness rows' columns /\
  ScoringEngine64.calculateValidity rows columns =
    ScoringEngine64.calculateValidity rows' columns /\
  (firstKeys rows = firstKeys rows' ->
   DataQuality64.computeCompleteness rows =
     DataQuality64.computeCompleteness rows' /\
   DataQuality64.computeUniqueness rows =
     DataQuality64.computeUniqueness rows' /\
   DataQuality64.computeValidity rows = DataQuality64.computeValidity rows').
Proof.
  intros P. destruct (calculators_perm64 rows rows' columns P) as (C & U & V).
  split; [exact C|]. split; [exact U|]. split; [exact V|].
  intros K. pose proof (Permutation_length P) as L.
  destruct rows as [|r rows], rows' as [|r' rows']; try discriminate L;
    [repeat split; reflexivity|].
  destruct (firstKeys (r :: rows)) as [|k ks] eqn:K1.
  - symmetry in K.
    unfold DataQuality64.computeCompleteness, DataQuality64.computeUniqueness,
      DataQuality64.computeValidity.
    rewrite K1, K. repeat split; reflexivity.
  - assert (N1 : firstKeys (r :: rows) <> []).
    { intros E. pose proof (eq_trans (eq_sym E) K1) as F. discriminate F. }
    assert (N2 : firstKeys (r' :: rows') <> []).
    { intros E. pose proof (eq_trans K E) as F. discriminate F. }
    rewrite (computeCompleteness_formula64 (r :: rows))
      by (try discriminate; exact N1).
    rewrite (computeCompleteness_formula64 (r' :: rows'))
      by (try discriminate; exact N2).
    rewrite (DataQuality64Facts.computeUniqueness_formula64 r rows N1).
    rewrite (DataQuality64Facts.computeUniqueness_formula64 r' rows' N2).
    rewrite (DataQuality64Facts.computeValidity_formula64 r rows k ks K1).
    rewrite (DataQuality64Facts.computeValidity_formula64 r' rows' k ks (eq_sym K)).
    rewrite <- K, K1.
    rewrite (completenessOf_perm64 _ _ _ P), (validityOf_perm64 _ _ _ P).
    rewrite (columnMean_ext64 Formula64.uniquenessOf (r :: rows) (r' :: rows'))
      by (intros c; apply uniquenessOf_perm64, columnValues_perm, P).
    repeat split; reflexivity.
Qed.

Context `{Host}.

(** X10: when [detectDateColumn] reports a column for the keys of the first
    row, at least one of its cells parses as a date, and [computeScores]
    under [prepareMetadata] returns as timeliness the score of the mean age
    of the parsed dates, in double precision: one of 100, 95, 85, 70, 50,
    30, never the fallback for a column without dates. *)
Theorem detected_column_gives_age_score (rows : list Row)
  (c : N) (name : jsstring) :
  ScoringEngine.detectDateColumn rows (firstKeys rows) = Some (c :: name) ->
  parsedDates rows (c :: name) <> [] /\
  exists s,
    ScoringEngine64.computeScores rows (ScoringEngine.prepareMetadata rows) =
      Some s /\
    ScoringEngine.timeliness s =
      Some (ageScore (Formula64.mean (Formula64.ages rows (c :: name)))) /\
    In (ageScore (Formula64.mean (Formula64.ages rows (c :: name))))
       [100; 95; 85; 70; 50; 30]%Z.
Proof.
  intros D.
  assert (P : parsedDates rows (c :: name) <> []).
  { unfold ScoringEngine.detectDateColumn in D.
    destruct rows as [|row rows]; [discriminate D|].
    rewrite detectLoop_find in D. apply find_some in D.
    apply qualifies_parsed, D. }
  split; [exact P|].
  destruct rows as [|row rows]; [discriminate D|].
  unfold ScoringEngine64.computeScores. cbv zeta.
  unfold ScoringEngine.dateColumnOf, ScoringEngine.prepareMetadata.
  cbn [ScoringEngine.hasDateColumn ScoringEngine.dateColumnName
       ScoringEngine.columns].
  change (keys row) with (firstKeys (row :: rows)).
  rewrite D.
  destruct (Returned64.calculateCompleteness_total64 (row :: rows) (firstKeys (row :: rows)))
    as [zc ->].
  destruct (Returned64.calculateUniqueness_total64 (row :: rows) (firstKeys (row :: rows)))
    as [zu ->].
  destruct (Returned64.calculateConsistency_total64 (row :: rows) (firstKeys (row :: rows)))
    as [zk ->].
  destruct (Returned64.calculateValidity_total64 (row :: rows) (firstKeys (row :: rows)))
    as [zv ->].
  rewrite ScoringEngine64Facts.calculateTimeliness_formula64.
  cbn [bind]. eexists. split; [reflexivity|].
  cbn [ScoringEngine.timeliness]. split.
  - unfold Formula64.ageOutcome.
    destruct (parsedDates (row :: rows) (c :: name)); [congruence|reflexivity].
  - unfold ageScore. cbn [In].
    repeat match goal with |- context [ltb ?a ?b] => destruct (ltb a b) end;
      tauto.
Qed.

End Completeness64.

(* ------------------------------------------------------------------ *)
(** ** The properties in double precision on example data *)

Module Examples64.
Import ExampleHost Example64.






Lemma people_no_date_keyword :
  forall col, In col (firstKeys people) -> @hasDateKeyword host col = false.
Proof. intros col [<-|[<-|[]]]; reflexivity. Defined.

Lemma timeliness_neutral_without_date_column_witness :
  (forall col, In col (firstKeys people) ->
               @hasDateKeyword host col = false) /\
  @DataQuality64.computeTimeliness IEEE.double host people = Some 50%Z /\
  exists s,
    @ScoringEngine64.computeScores IEEE.double host people
      (@ScoringEngine.prepareMetadata host people) = Some s /\
    ScoringEngine.timeliness s = None.
Proof.
  split; [exact people_no_date_keyword|].
  destruct (@timeliness_neutral_without_date_column IEEE.double host people
              people_no_date_keyword) as (T & _ & _ & S & _).
  split; [exact T|exact S].
Defined.

(** C3, as stated, fails for the TypeScript engine: on a dataset without a
    date column [computeScores] returns no timeliness, not 50, and on the
    empty row list [calculateTimeliness] returns 0. *)
Lemma computeScores_omits_timeliness :
  (forall col, In col (firstKeys people) ->
               @hasDateKeyword host col = false) /\
  @ScoringEngine64.computeScores IEEE.double host people
    (@ScoringEngine.prepareMetadata host people) =
  Some {| ScoringEngine.completeness := 75; ScoringEngine.uniqueness := 100;
          ScoringEngine.consistency := 81; ScoringEngine.validity := 50;
          ScoringEngine.timeliness := None |} /\
  @ScoringEngine64.calculateTimeliness IEEE.double host [] (lit "time") =
  Some 0%Z.
Proof.
  split; [exact people_no_date_keyword|].
  split; vm_compute; reflexivity.
Qed.




(** 23 distinct values among 40: (23 / 40) x 100 is the double just below
    57.5, and the score is 57. *)
Lemma uniqueness_rounded_column_mean_witness :
  (echoed <> [] /\ [lit "id"] <> []) /\
  @ScoringEngine64.calculateUniqueness IEEE.double echoed [lit "id"] =
    Some 57%Z /\
  @DataQuality64.computeUniqueness IEEE.double echoed = Some 57%Z.
Proof.
  assert (Hr : echoed <> []) by (vm_compute; discriminate).
  assert (Hc : [lit "id"] <> []) by discriminate.
  split; [split; assumption|].
  destruct (@uniqueness_rounded_column_mean IEEE.double echoed [lit "id"] Hr Hc)
    as (TS & JS & _).
  split.
  - rewrite TS. vm_compute. reflexivity.
  - rewrite (JS eq_refl). vm_compute. reflexivity.
Defined.






(** 23 present cells among 40: the score is 57. *)
Lemma completeness_is_present_cell_percentage_witness :
  (sparse <> [] /\ [lit "id"] <> []) /\
  @ScoringEngine64.calculateCompleteness IEEE.double sparse [lit "id"] =
    Some 57%Z /\
  @DataQuality64.computeCompleteness IEEE.double sparse = Some 57%Z.
Proof.
  assert (Hr : sparse <> []) by (vm_compute; discriminate).
  assert (Hc : [lit "id"] <> []) by discriminate.
  split; [split; assumption|].
  destruct (@completeness_is_present_cell_percentage IEEE.double sparse
              [lit "id"] Hr Hc) as (TS & JS & _).
  split.
  - rewrite TS. vm_compute. reflexivity.
  - rewrite (JS eq_refl). vm_compute. reflexivity.
Defined.

Lemma detected_column_gives_age_score_witness :
  @ScoringEngine.detectDateColumn host planned (firstKeys planned) =
    Some (116%N :: lit "ime") /\
  @parsedDates host planned (116%N :: lit "ime") <> [].
Proof.
  assert (D : @ScoringEngine.detectDateColumn host planned (firstKeys planned) =
              Some (116%N :: lit "ime")) by reflexivity.
  split; [exact D|].
  apply (proj1 (@detected_column_gives_age_score IEEE.double host planned
                  116%N (lit "ime") D)).
Defined.

Lemma scores_independent_of_row_order_witness :
  Permutation sparse (rev sparse) /\
  @ScoringEngine64.calculateCompleteness IEEE.double sparse [lit "id"] =
  @ScoringEngine64.calculateCompleteness IEEE.double (rev sparse) [lit "id"].
Proof.
  assert (P : Permutation sparse (rev sparse)) by apply Permutation_rev.
  split; [exact P|].
  apply (proj1 (@scores_independent_of_row_order IEEE.double sparse
                  (rev sparse) [lit "id"] P)).
Defined.

(** X24: in double precision the consistency of a column does depend on
    the order of its rows: the lengths 13, 8, 2, 25, 16, 16 score 58 and,
    as 16, 16, 25, 13, 8, 2, 57. *)
Lemma consistency_depends_on_row_order :
  let column (lengths : list nat) : list Row :=
    map (fun n => [(lit "id", repeat 97%N n)]) lengths in
  Permutation (column [13; 8; 2; 25; 16; 16]%nat)
              (column [16; 16; 25; 13; 8; 2]%nat) /\
  @ScoringEngine64.calculateConsistency IEEE.double
    (column [13; 8; 2; 25; 16; 16]%nat) [lit "id"] = Some 58%Z /\
  @ScoringEngine64.calculateConsistency IEEE.double
    (column [16; 16; 25; 13; 8; 2]%nat) [lit "id"] = Some 57%Z.
Proof.
  cbv zeta. split.
  - apply Permutation_map.
    change [16; 16; 25; 13; 8; 2]%nat with (rev [2; 8; 13; 25; 16; 16]%nat).
    eapply Permutation_trans; [|apply Permutation_rev].
    apply (Permutation_app_tail [25; 16; 16]%nat
             (l := [13; 8; 2]%nat) (l' := [2; 8; 13]%nat)).
    apply (Permutation_rev [13; 8; 2]%nat).
  - split; vm_compute; reflexivity.
Qed.

End Examples64.
